(** * The Helixir REST client: validators, range chunker and response unmarshalling

    A shallow embedding of
    - [helixirapi/helixir_api.py]: the parameter validators of [HelixirApi]
      and [_handle_candle_response], the loop that splits a candle request
      into sub-requests;
    - [quantnote_api/models/unmarshal.py] and [helixirapi/models/definitions.py]:
      the generic decoding of a JSON payload into response entities. The
      entry point of [unmarshal.py] is read together with the [Definition]
      class of [definitions.py]; the registry [models.name_to_class] they
      share is a parameter.

    Python integers are [Z]; [None] is [option]'s [None]; an exception is the
    [Raise] branch of [result]; a Python [dict] whose iteration order the code
    relies on is an association list, an attribute bag ([__dict__]) is a
    [gmap]. *)

From Stdlib Require Import ZArith Ascii String List Lia.
From stdpp Require Import base option list gmap strings.

Local Open Scope string_scope.
Local Open Scope list_scope.
Local Open Scope Z_scope.

Set Warnings "-register-all".

(* ================================================================== *)
(** * Part I. The embedding *)
(* ================================================================== *)

(** ** Exceptions and results *)

(** One constructor per [raise] site of the embedded code (the repository
    raises [ValueError] and [Exception] and tells them apart by message
    only), and one per Python run-time error the embedded code can hit.
    [NotEmbedded] is no exception of the code: it ends a run at a point from
    which the embedding does not say what Python does (see [self_table]). *)
Inductive exn : Type :=
  | KeyError                    (* d[k] on a missing key *)
  | AttributeError              (* x.attr on an object without it *)
  | TypeError                   (* None - 1, calling a non-callable, ... *)
  | IndexError                  (* l[i] out of range *)
  | ValueError_range_step_zero  (* range(a, b, 0) *)
  | BuiltinError                (* raised inside int, float, str, bool, isoparse *)
  | ExecutorError (code : Z)    (* raised by a sub-request, propagated unchanged *)
  | Exception_interval_too_long (* helixir_api.py line 149 *)
  | ValueError_too_early        (* line 274: data are available only from DATA_EPOCH *)
  | ValueError_to_not_after_from (* line 277 *)
  | ValueError_limit            (* line 290 *)
  | ValueError_page_too_small   (* line 297 *)
  | ValueError_page_too_big     (* line 299 *)
  | ValueError_chain            (* line 321 *)
  | NotEmbedded.                (* no exception: the run is not followed further *)

Inductive result (A : Type) : Type :=
  | Ok (a : A)
  | Raise (e : exn).
Arguments Ok {A} a.
Arguments Raise {A} e.

Definition bind {A B : Type} (r : result A) (k : A -> result B) : result B :=
  match r with
  | Ok a => k a
  | Raise e => Raise e
  end.

Notation "'let*' x ':=' r 'in' k" := (bind r (fun x => k))
  (at level 10, x name, r at level 100, k at level 200, only parsing).
Notation "'let*' ' pat ':=' r 'in' k" :=
  (bind r (fun x => match x with pat => k end))
  (at level 10, pat pattern, r at level 100, k at level 200, only parsing).

(** ** Python strings *)

(** [needle in hay] on [str]: [needle] occurs in [hay] as a contiguous run. *)
Fixpoint str_contains (needle hay : string) : bool :=
  String.prefix needle hay ||
  match hay with
  | EmptyString => false
  | String _ rest => str_contains needle rest
  end.

(** [str.upper] on the ASCII letters. The code upper-cases a resolution only
    to look it up in tables whose keys are ASCII, and no character outside
    ASCII has an ASCII letter or digit of these keys as its upper case. *)
Definition ascii_upper (c : ascii) : ascii :=
  let n := nat_of_ascii c in
  if (andb (97 <=? n)%nat (n <=? 122)%nat) then ascii_of_nat (n - 32) else c.

Fixpoint str_upper (s : string) : string :=
  match s with
  | EmptyString => EmptyString
  | String c rest => String (ascii_upper c) (str_upper rest)
  end.

(** [s.split(sep)] for a non-empty [sep]: [skip] counts the characters of a
    separator still to be passed over, [cur] is the piece being read. *)
Fixpoint split_go (sep : string) (skip : nat) (cur : string) (s : string)
  : list string :=
  match s with
  | EmptyString => [cur]
  | String c rest =>
      match skip with
      | S n => split_go sep n cur rest
      | O =>
          if String.prefix sep s
          then cur :: split_go sep (String.length sep - 1) EmptyString rest
          else split_go sep O (String.append cur (String c EmptyString)) rest
      end
  end.

Definition str_split (sep s : string) : list string := split_go sep O EmptyString s.

(** [s[:-1]] *)
Fixpoint str_drop_last (s : string) : string :=
  match s with
  | EmptyString => EmptyString
  | String c EmptyString => EmptyString
  | String c rest => String c (str_drop_last rest)
  end.

(** [l[i]] on a Python list *)
Definition py_index {A : Type} (l : list A) (i : nat) : result A :=
  match nth_error l i with
  | Some x => Ok x
  | None => Raise IndexError
  end.

(** [d[k]] and [k in d] on a [dict] literal kept in declaration order. *)
Fixpoint dict_get {V : Type} (d : list (string * V)) (k : string) : option V :=
  match d with
  | [] => None
  | (k', v) :: rest => if String.eqb k' k then Some v else dict_get rest k
  end.

Definition dict_item {V : Type} (d : list (string * V)) (k : string) : result V :=
  match dict_get d k with
  | Some v => Ok v
  | None => Raise KeyError
  end.

Definition dict_has {V : Type} (d : list (string * V)) (k : string) : bool :=
  match dict_get d k with
  | Some _ => true
  | None => false
  end.

(** ** [HelixirApi]: class constants *)

(** [DATA_EPOCH.timestamp()] for [2021-04-12T13:45:00+02:00]. *)
Definition DATA_EPOCH_timestamp : Z := 1618227900.

Definition CHAINS_NUMBER : Z := 5.
Definition LIMIT_LIMITS : Z * Z := (1, 500).
Definition PAGE_LIMITS : Z * Z := (1, 922337203685477581).
Definition CANDLE_LIMIT : Z := 5000.

Definition candle_seconds : list (string * Z) :=
  [ ("M1", 1*60); ("M5", 5*60); ("M10", 10*60); ("M15", 15*60);
    ("M30", 30*60); ("H1", 60*60); ("H4", 4*60*60); ("H12", 12*60*60);
    ("D1", 24*60*60) ].

Definition candle_limits : list (string * Z) :=
  [ ("M1", 1*60 * 60*24 * 7);
    ("M5", 5*60 * 12*24 * 7);
    ("M10", 10*60 * 6*24 * 7);
    ("M15", 15*60 * 4*24 * 10);
    ("M30", 30*60 * 2*24 * 10);
    ("H1", 60*60 * 24 * 14);
    ("H4", 4*60*60 * 6 * 20);
    ("H12", 12*60*60 * 2 * 20);
    ("D1", 24*60*60 * 30) ].

Definition strict_candle_limits : list (string * Z) :=
  [ ("M1", 1*60 * 60*24 * 1);
    ("M5", 5*60 * 12*24 * 1);
    ("M10", 10*60 * 6*24 * 1);
    ("M15", 15*60 * 4*24 * 2);
    ("M30", 30*60 * 2*24 * 2);
    ("H1", 60*60 * 24 * 2);
    ("H4", 4*60*60 * 6 * 7);
    ("H12", 12*60*60 * 2 * 7);
    ("D1", 24*60*60 * 30) ].

(** ** Chain validation *)

(** A chain argument is an [int] or a [str]; [==] never holds across the two. *)
Inductive chain_value : Type :=
  | ChainId (n : Z)
  | ChainName (s : string).

Definition chain_eqb (a b : chain_value) : bool :=
  match a, b with
  | ChainId n, ChainId m => Z.eqb n m
  | ChainName s, ChainName t => String.eqb s t
  | _, _ => false
  end.

Definition CHAIN_SUPPORTED_VALUES : list chain_value :=
  [ ChainId 56; ChainId 1; ChainId 137; ChainId 43114; ChainId 250;
    ChainName "BSC"; ChainName "ETH"; ChainName "POLYGON"; ChainName "AVAX"; ChainName "FTM";
    ChainName "bsc"; ChainName "eth"; ChainName "polygon"; ChainName "avax"; ChainName "ftm";
    ChainName "56"; ChainName "1"; ChainName "137"; ChainName "43114"; ChainName "250" ].

(** [x in l] *)
Definition chain_in (x : chain_value) (l : list chain_value) : bool :=
  existsb (chain_eqb x) l.

(** [l.index(x)]: the position of the first element equal to [x]. *)
Fixpoint chain_index (x : chain_value) (l : list chain_value) : option nat :=
  match l with
  | [] => None
  | y :: rest =>
      if chain_eqb y x then Some O
      else match chain_index x rest with
           | Some i => Some (S i)
           | None => None
           end
  end.

Definition _validate_chain (chain : chain_value) : result chain_value :=
  if negb (chain_in chain CHAIN_SUPPORTED_VALUES) then Raise ValueError_chain
  else
    match chain_index chain CHAIN_SUPPORTED_VALUES with
    | None => Raise ValueError_chain (* list.index raises ValueError; excluded by the test above *)
    | Some i =>
        py_index CHAIN_SUPPORTED_VALUES (Z.to_nat (Z.of_nat i mod CHAINS_NUMBER))
    end.

(** ** Limit and page validation *)

(** [not limit] for [limit : Optional[int]]: [None] and [0] are falsy. *)
Definition falsy (x : option Z) : bool :=
  match x with
  | None => true
  | Some n => Z.eqb n 0
  end.

Definition _validate_limit (limit : option Z) : result unit :=
  if falsy limit then Ok tt
  else
    match limit with
    | None => Ok tt
    | Some l =>
        if (l <? fst LIMIT_LIMITS) || (l >? snd LIMIT_LIMITS)
        then Raise ValueError_limit
        else Ok tt
    end.

Definition _validate_page (page : option Z) : result unit :=
  if falsy page then Ok tt
  else
    match page with
    | None => Ok tt
    | Some p =>
        if p <? fst PAGE_LIMITS then Raise ValueError_page_too_small
        else if p >? snd PAGE_LIMITS then Raise ValueError_page_too_big
        else Ok tt
    end.

(** ** Date and from/to validation *)

(** A date argument: an [int] timestamp, or anything else, which the code
    hands to [isoparse(str(date))]. *)
Inductive date_arg : Type :=
  | DateInt (n : Z)
  | DateText (s : string).

Inductive warning : Type :=
  | Warn_before_data_epoch.

Section Dates.
(** [int(isoparse(str(date)).timestamp())], from the dateutil package. *)
Variable isoparse_timestamp : string -> result Z.

(** Returns the coerced date and the warnings emitted on the way. *)
Definition _validate_date (date : option date_arg)
  : result (option Z * list warning) :=
  match date with
  | None => Ok (None, [])
  | Some d =>
      let* date := match d with
                   | DateInt n => Ok n
                   | DateText s => isoparse_timestamp s
                   end in
      if date <? DATA_EPOCH_timestamp
      then Ok (Some date, [Warn_before_data_epoch])
      else Ok (Some date, [])
  end.

Definition _validate_from__to (from_ to : option date_arg)
  : result ((option Z * option Z) * list warning) :=
  let* '(from_, w1) := _validate_date from_ in
  let* '(to, w2) := _validate_date to in
  if falsy to then Ok ((from_, to), w1 ++ w2)
  else
    match to with
    | None => Ok ((from_, to), w1 ++ w2)
    | Some t =>
        if t <? DATA_EPOCH_timestamp then Raise ValueError_too_early
        else if falsy from_ then Ok ((from_, to), w1 ++ w2)
        else
          match from_ with
          | None => Ok ((from_, to), w1 ++ w2)
          | Some f =>
              if t <=? f then Raise ValueError_to_not_after_from
              else Ok ((from_, to), w1 ++ w2)
          end
    end.
End Dates.

(** ** The candle request loop *)

(** [range(lo, hi, step)]: its length as CPython computes it, then its
    elements [lo, lo + step, ...]. *)
Definition range_length (lo hi step : Z) : Z :=
  if 0 <? step
  then (if lo <? hi then (hi - lo - 1) / step + 1 else 0)
  else (if hi <? lo then (lo - hi - 1) / (- step) + 1 else 0).

Fixpoint range_from (lo step : Z) (n : nat) : list Z :=
  match n with
  | O => []
  | S n' => lo :: range_from (lo + step) step n'
  end.

Definition py_range (lo hi step : Z) : result (list Z) :=
  if step =? 0 then Raise ValueError_range_step_zero
  else Ok (range_from lo step (Z.to_nat (range_length lo hi step))).

(** [delta / secs > limit] with Python's true division, for [secs > 0]
    (every entry of [candle_seconds] is positive). The quotient is a float;
    rounding can only turn a true comparison into a false one, and then
    [delta > step] below decides, since [step <= secs * CANDLE_LIMIT]. *)
Definition true_div_gt (delta secs limit : Z) : bool := delta >? limit * secs.

(** Lines 139 to 144: the table lookups on the upper-cased resolution. *)
Definition candle_step (endpoint resolution : string) : result (Z * Z) :=
  let resolution := str_upper resolution in
  let* step :=
    (if str_contains "active_addresses" endpoint || str_contains "moves" endpoint
     then dict_item strict_candle_limits resolution
     else dict_item candle_limits resolution) in
  let* secs := dict_item candle_seconds resolution in
  Ok (Z.min step (secs * CANDLE_LIMIT), secs).

Section CandleLoop.
(** What a request returns, and the state of everything outside the client
    (the server, the network): [_handle_response] reads [params] and acts
    on that state. *)
Variables (Item World : Type).

(** One call of [self._handle_response(..., params=params, ...)] with
    [params["from"]] and [params["to"]] as given; the other parameters do
    not change during a call of [_handle_candle_response]. *)
Variable executor : Z -> Z -> World -> result (list Item * World).

(** Lines 157 to 160, over the values [range] yields. *)
Fixpoint candle_loop (step original_to : Z) (starts : list Z)
    (result_ : list Item) (w : World) : result (list Item * World) :=
  match starts with
  | [] => Ok (result_, w)
  | i :: rest =>
      let from_ := i in
      let to := Z.min (i + step) original_to in
      let* '(items, w) := executor from_ to w in
      candle_loop step original_to rest (result_ ++ items) w
  end.

(** [now_cmp] is the clock reading [params["to"]] is compared with and
    [now_set] the later reading stored by [int(time.time())], both in whole
    seconds: for an integer [to], [to > time.time()] holds exactly when [to]
    exceeds the reading rounded down. *)
Definition _handle_candle_response (split_request : bool)
    (endpoint resolution : string) (from_ to : option Z)
    (now_cmp now_set : Z) (w : World) : result (list Item * World) :=
  let* '(step, secs) := candle_step endpoint resolution in
  let* _ :=
    (if negb split_request then
       match from_, to with
       | Some f, Some t =>
           let delta := f - t in
           if true_div_gt delta secs CANDLE_LIMIT || (delta >? step)
           then Raise Exception_interval_too_long
           else Ok tt
       | _, _ => Raise TypeError
       end
     else Ok tt) in
  let from_ := match from_ with
               | None => DATA_EPOCH_timestamp
               | Some f => f
               end in
  let to := match to with
            | None => now_set
            | Some t => if t >? now_cmp then now_set else t
            end in
  let original_to := to in
  let* starts := py_range from_ to step in
  candle_loop step original_to starts [] w.
End CandleLoop.

Arguments candle_loop {Item World} executor step original_to starts result_ w.
Arguments _handle_candle_response {Item World} executor split_request
  endpoint resolution from_ to now_cmp now_set w.

(** An executor that answers each request with the window it was asked for
    and records the request in the outside state. *)
Definition recording_executor (from_ to : Z) (log : list (Z * Z))
  : result (list (Z * Z) * list (Z * Z)) :=
  Ok ([(from_, to)], log ++ [(from_, to)]).

(** ** Decoded JSON, Python values and entity classes *)

(** What [response.json()] returns. A float is kept by its binary64 bit
    pattern; an object by its items in iteration order. *)
Inductive json : Type :=
  | JNull
  | JBool (b : bool)
  | JInt (n : Z)
  | JFloat (bits : Z)
  | JStr (s : string)
  | JList (l : list json)
  | JDict (items : list (string * json)).

(** What unmarshalling returns. [VRaw] is a decoded value handed on as it
    is (and the [str], [int], [float] or [bool] a constructor builds),
    [VObj] an instance of a [Definition] subclass: the class's [__name__]
    and the instance's [__dict__]. *)
Inductive pyval : Type :=
  | VRaw (j : json)
  | VDatetime (micros : Z)
  | VList (l : list pyval)
  | VDict (m : gmap string pyval)
  | VObj (cls : string) (attrs : gmap string pyval).

(** The callables the type tables name besides classes. *)
Inductive builtin : Type :=
  | B_int | B_float | B_str | B_bool | B_isoparse.

(** A value of [_attributes_to_types]: a constructor function, the alias
    [typing.List[C]] (of which the code reads [C.__name__] only), or a
    [Definition] subclass. A class is its name and its three tables. *)
Inductive declared_type : Type :=
  | TBuiltin (b : builtin)
  | TListOf (element_name : string)
  | TClass (c : class_desc)
with class_desc : Type :=
  | Class (name : string)
          (api_name_to_python : list (string * string))
          (attribute_is_primitive : list (string * bool))
          (attributes_to_types : list (string * declared_type)).

Definition cls_name (c : class_desc) : string :=
  match c with Class n _ _ _ => n end.
Definition _api_name_to_python (c : class_desc) : list (string * string) :=
  match c with Class _ t _ _ => t end.
Definition _attribute_is_primitive (c : class_desc) : list (string * bool) :=
  match c with Class _ _ t _ => t end.
Definition _attributes_to_types (c : class_desc) : list (string * declared_type) :=
  match c with Class _ _ _ t => t end.

(** [keyword.kwlist] *)
Definition kwlist : list string :=
  [ "False"; "None"; "True"; "and"; "as"; "assert"; "async"; "await";
    "break"; "class"; "continue"; "def"; "del"; "elif"; "else"; "except";
    "finally"; "for"; "from"; "global"; "if"; "import"; "in"; "is";
    "lambda"; "nonlocal"; "not"; "or"; "pass"; "raise"; "return"; "try";
    "while"; "with"; "yield" ].

Definition iskeyword (s : string) : bool := existsb (String.eqb s) kwlist.

(** [name_to_class] of [unmarshal.py]: the scalar response types. *)
Definition scalar_name_to_class : list (string * builtin) :=
  [ ("int", B_int); ("float", B_float); ("str", B_str) ].

(** [list_type.split("[")] on a value of the type table. None of them is a
    string: [str.split("[")] is the unbound method applied to ["["], which
    has one piece; the other objects have no attribute [split]. *)
Definition declared_type_split (t : declared_type) : result (list string) :=
  match t with
  | TBuiltin B_str => Ok ["["]
  | _ => Raise AttributeError
  end.

(** The attribute a payload key is stored under (lines 52, 53 and 66). *)
Definition attribute_name_of (c : class_desc) (key : string) : string :=
  match dict_get (_api_name_to_python c) key with
  | Some attribute_name => attribute_name
  | None => String.append key (if iskeyword key then "_" else "")
  end.

(** ** Decoded values at run time *)

(** [_unmarshal_json_object] reads the three class tables and [__setattr__]
    through [self] (lines 52 to 67), and an attribute of the instance comes
    before an attribute of its class. A payload can put a decoded value under
    one of these names; from then on the loop applies [in], [[]], [not],
    [str] and a call to that value. What these do on a decoded value
    follows. *)

(** A binary64 by its bit pattern: the sign is bit 63, the exponent bits 52
    to 62, the fraction bits 0 to 51. *)
Definition float_exponent (bits : Z) : Z := Z.land (Z.shiftr bits 52) 2047.
Definition float_fraction (bits : Z) : Z := Z.land bits (2 ^ 52 - 1).
Definition float_is_nan (bits : Z) : bool :=
  (float_exponent bits =? 2047) && negb (float_fraction bits =? 0).
Definition float_is_zero (bits : Z) : bool :=
  (float_exponent bits =? 0) && (float_fraction bits =? 0).

(** The integer a binary64 is equal to, if there is one. *)
Definition float_to_Z (bits : Z) : option Z :=
  let e := float_exponent bits in
  let f := float_fraction bits in
  if e =? 2047 then None
  else
    let m := if e =? 0 then f else f + 2 ^ 52 in
    let p := if e =? 0 then -1074 else e - 1075 in
    let sign := if Z.testbit bits 63 then -1 else 1 in
    if 0 <=? p then Some (sign * (m * 2 ^ p))
    else if m mod 2 ^ (- p) =? 0 then Some (sign * (m / 2 ^ (- p)))
    else None.

(** A number: an [int] (a [bool] is one) or a [float]. *)
Definition json_number (x : json) : option (Z + Z) :=
  match x with
  | JBool b => Some (inl (if b then 1 else 0))
  | JInt n => Some (inl n)
  | JFloat bits => Some (inr bits)
  | _ => None
  end.

(** Numbers are compared by value, an [int] with a [float] exactly. The
    decoder has one object for every [NaN] of a payload, and [in] and the
    comparison of containers take an object to equal itself. *)
Definition number_eq (a b : Z + Z) : bool :=
  match a, b with
  | inl n, inl m => n =? m
  | inl n, inr f | inr f, inl n =>
      match float_to_Z f with
      | Some m => n =? m
      | None => false
      end
  | inr f, inr g =>
      if float_is_nan f then float_is_nan g
      else (f =? g) || (float_is_zero f && float_is_zero g)
  end.

(** [a is b or a == b] on decoded values, as [in] tests it. *)
Fixpoint json_eq (x y : json) {struct x} : bool :=
  match x, y with
  | JNull, JNull => true
  | JStr s, JStr t => String.eqb s t
  | JList l, JList m =>
      (fix all2 (l m : list json) : bool :=
         match l, m with
         | [], [] => true
         | a :: l', b :: m' => json_eq a b && all2 l' m'
         | _, _ => false
         end) l m
  | JDict d, JDict e =>
      (length d =? length e)%nat
      && (fix all (d : list (string * json)) : bool :=
            match d with
            | [] => true
            | (k, a) :: d' =>
                match dict_get e k with
                | Some b => json_eq a b
                | None => false
                end && all d'
            end) d
  | JBool _, _ | JInt _, _ | JFloat _, _ =>
      match json_number x, json_number y with
      | Some a, Some b => number_eq a b
      | _, _ => false
      end
  | _, _ => false
  end.

(** [not x] is [negb (json_truth x)]. *)
Definition json_truth (x : json) : bool :=
  match x with
  | JNull => false
  | JBool b => b
  | JInt n => negb (n =? 0)
  | JFloat bits => negb (float_is_zero bits)
  | JStr s => negb (String.eqb s "")
  | JList l => match l with [] => false | _ => true end
  | JDict d => match d with [] => false | _ => true end
  end.

(** ["List" in str(x)]. The text of a list or a dict is made of the [repr]
    of its parts, and a [repr] has the letters [List] in a row only where a
    string or a key has them. *)
Fixpoint json_str_has_List (x : json) : bool :=
  match x with
  | JStr s => str_contains "List" s
  | JList l => existsb json_str_has_List l
  | JDict d =>
      (fix any (d : list (string * json)) : bool :=
         match d with
         | [] => false
         | (k, v) :: d' => str_contains "List" k || json_str_has_List v || any d'
         end) d
  | _ => false
  end.

(** [x] as an index: an [int], and a [bool] is one. *)
Definition json_index (x : json) : option Z :=
  match x with
  | JInt n => Some n
  | JBool b => Some (if b then 1 else 0)
  | _ => None
  end.

(** [l[i]]: a negative index counts from the end. *)
Definition list_item {A : Type} (l : list A) (i : Z) : result A :=
  let n := Z.of_nat (length l) in
  let i := if i <? 0 then i + n else i in
  if (0 <=? i) && (i <? n) then py_index l (Z.to_nat i) else Raise IndexError.

(** The characters of a [str] kept as bytes: a byte of the form 10xxxxxx
    continues the character that the bytes before it began. *)
Definition continuation_byte (c : ascii) : bool :=
  (128 <=? nat_of_ascii c)%nat && (nat_of_ascii c <? 192)%nat.

Fixpoint str_chars (s : string) : list string :=
  match s with
  | EmptyString => []
  | String c rest =>
      match str_chars rest with
      | String c' ch :: chars =>
          if continuation_byte c' then String c (String c' ch) :: chars
          else String c EmptyString :: String c' ch :: chars
      | chars => String c EmptyString :: chars
      end
  end.

(** [k in d] and [d[k]] on a dict whose keys are [str], for any decoded
    [k]: a list or a dict cannot be hashed; any other value that is not a
    [str] is equal to no key. *)
Definition dict_has_json {V : Type} (d : list (string * V)) (k : json)
  : result bool :=
  match k with
  | JStr s => Ok (dict_has d s)
  | JList _ | JDict _ => Raise TypeError
  | _ => Ok false
  end.

Definition dict_item_json {V : Type} (d : list (string * V)) (k : json)
  : result V :=
  match k with
  | JStr s => dict_item d s
  | JList _ | JDict _ => Raise TypeError
  | _ => Raise KeyError
  end.

(** [k in t] *)
Definition json_has (t k : json) : result bool :=
  match t with
  | JDict d => dict_has_json d k
  | JList l => Ok (existsb (json_eq k) l)
  | JStr s =>
      match k with
      | JStr x => Ok (str_contains x s)
      | _ => Raise TypeError
      end
  | _ => Raise TypeError
  end.

(** [t[k]] *)
Definition json_item (t k : json) : result json :=
  match t with
  | JDict d => dict_item_json d k
  | JList l =>
      match json_index k with
      | Some i => list_item l i
      | None => Raise TypeError
      end
  | JStr s =>
      match json_index k with
      | Some i => let* ch := list_item (str_chars s) i in Ok (JStr ch)
      | None => Raise TypeError
      end
  | _ => Raise TypeError
  end.

(** What [self.<name>] finds for the name of a class table: the table of
    the class, or the value the instance holds under that name. The run is
    followed when that value is a decoded one, which is what a payload can
    put there; no class of [definitions.py] declares a field of such a
    name. *)
Inductive table (V : Type) : Type :=
  | OfClass (t : list (string * V))
  | OfInstance (v : json).
Arguments OfClass {V} t.
Arguments OfInstance {V} v.

Definition self_table {V : Type} (self : gmap string pyval) (name : string)
    (class_table : list (string * V)) : result (table V) :=
  match self !! name with
  | None => Ok (OfClass class_table)
  | Some (VRaw v) => Ok (OfInstance v)
  | Some _ => Raise NotEmbedded
  end.

Definition table_has {V : Type} (t : table V) (k : json) : result bool :=
  match t with
  | OfClass d => dict_has_json d k
  | OfInstance v => json_has v k
  end.

(** [t[k]]: an entry of the class table, or a decoded value. *)
Definition table_item {V : Type} (t : table V) (k : json) : result (V + json) :=
  match t with
  | OfClass d => let* x := dict_item_json d k in Ok (inl x)
  | OfInstance v => let* x := json_item v k in Ok (inr x)
  end.

(** The [dict] a decoded object is, taken as an attribute bag. *)
Definition bag_of (items : list (string * json)) : gmap string pyval :=
  fold_left (fun bag kv => <[fst kv := VRaw (snd kv)]> bag) items ∅.

(** [self.__setattr__(name, value)], line 67. The instance's own
    [__setattr__], if it has one, is found first, and no value of the
    embedding can be called. Otherwise this is [object.__setattr__]: the name
    must be a [str]; [__class__], [__dict__] and [__weakref__] are the data
    descriptors of an entity ([__class__] takes a class only, [__dict__] a
    dict, which then is the attribute bag, [__weakref__] nothing); every
    other name is stored in the attribute bag. *)
Definition py_setattr (self : gmap string pyval) (name : json) (value : pyval)
  : result (gmap string pyval) :=
  match self !! "__setattr__" with
  | Some _ => Raise TypeError
  | None =>
      match name with
      | JStr name =>
          if String.eqb name "__class__" then Raise TypeError
          else if String.eqb name "__weakref__" then Raise AttributeError
          else if String.eqb name "__dict__" then
            match value with
            | VRaw (JDict items) => Ok (bag_of items)
            | VDict bag => Ok bag
            | _ => Raise TypeError
            end
          else Ok (<[name := value]> self)
      | _ => Raise TypeError
      end
  end.

Section Unmarshal.
(** [int(x)], [float(x)], [str(x)], [bool(x)] and dateutil's [isoparse(x)]. *)
Variable builtin_call : builtin -> json -> result pyval.

(** [models.name_to_class]: the registry of entity classes. *)
Variable name_to_class : list (string * class_desc).

Section Layers.
(** The methods call each other on one and the same payload before they
    descend into it; [hydrate] stands for [_unmarshal_json_object], which
    closes the knot below. *)
Variable hydrate : class_desc -> gmap string pyval -> json -> result (gmap string pyval).

(** [Definition._unmarshal_json_list], lines 42 to 48. *)
Definition unmarshal_json_list_with (known_type : string)
  : list json -> result (list pyval) :=
  fix loop (input_json : list json) : result (list pyval) :=
    match input_json with
    | [] => Ok []
    | item :: rest =>
        let* new_item := dict_item name_to_class known_type in
        let* self := hydrate new_item ∅ item in
        let* items := loop rest in
        Ok (VObj (cls_name new_item) self :: items)
    end.

(** [Definition.unmarshal_json], lines 24 to 39: the value returned and
    [self] afterwards. Both callers (unmarshal.py line 23, and line 61 in
    [hydrate_item] below) call it on an entity they have just created, and
    line 33 stores under a field name of the class. *)
Definition Definition_unmarshal_json_with (c : class_desc)
    (self : gmap string pyval) (input_json : json)
  : result (pyval * gmap string pyval) :=
  match input_json with
  | JList l =>
      let* list_attribute_name := py_index (map snd (_api_name_to_python c)) 0 in
      let* list_items :=
        (if dict_has (_attributes_to_types c) list_attribute_name then
           let* list_type := dict_item (_attributes_to_types c) list_attribute_name in
           let* pieces := declared_type_split list_type in
           let* piece := py_index pieces 1 in
           let known_type := str_drop_last piece in
           let* items := unmarshal_json_list_with known_type l in
           Ok (VList items)
         else Ok (VRaw input_json)) in
      let self := <[list_attribute_name := list_items]> self in
      Ok (VObj (cls_name c) self, self)
  | JDict _ =>
      let* self := hydrate c self input_json in
      Ok (VObj (cls_name c) self, self)
  | JFloat _ | JInt _ | JBool _ => Ok (VRaw input_json, self) (* a bool is an int *)
  | JNull | JStr _ => Ok (VRaw JNull, self) (* falls off the end: None *)
  end.

(** [unmarshal_json] of [unmarshal.py]. *)
Definition unmarshal_json_with : string -> json -> result pyval :=
  fix unmarshal_json (response_type : string) (resp_json : json)
      {struct resp_json} : result pyval :=
    if dict_has scalar_name_to_class response_type then
      let* ctor := dict_item scalar_name_to_class response_type in
      builtin_call ctor resp_json
    else
      match resp_json with
      | JList l =>
          let* response_type :=
            (if str_contains "List[" response_type then
               let* piece := py_index (str_split "[" response_type) 1 in
               Ok (str_drop_last piece)
             else Ok response_type) in
          let* items := unmarshal_json_list_with response_type l in
          Ok (VList items)
      | _ =>
          if str_contains "Dict[" response_type then
            let* piece := py_index (str_split ", " response_type) 1 in
            let known_type := str_drop_last piece in
            match resp_json with
            | JDict items =>
                let* m :=
                  (fix comprehension (items : list (string * json))
                       (acc : gmap string pyval) : result (gmap string pyval) :=
                     match items with
                     | [] => Ok acc
                     | (k, v) :: rest =>
                         let* x := unmarshal_json known_type v in
                         comprehension rest (<[k := x]> acc)
                     end) items ∅ in
                Ok (VDict m)
            | _ => Raise AttributeError
            end
          else
            let* obj := dict_item name_to_class response_type in
            let* '(_, self) := Definition_unmarshal_json_with obj ∅ resp_json in
            Ok (VObj (cls_name obj) self)
      end.

(** Lines 51 to 66: the attribute name and the value for one item of the
    payload, on [self] as the items before it left it. A name read from the
    class table is a [str]; one read from a value of the instance is what
    that value holds. *)
Definition hydrate_item (c : class_desc) (self : gmap string pyval)
    (key : string) (value : json) : result (json * pyval) :=
  let* names := self_table self "_api_name_to_python" (_api_name_to_python c) in
  let* declared := table_has names (JStr key) in
  if declared then
    let* found := table_item names (JStr key) in
    let attribute_name :=
      match found with
      | inl name => JStr name
      | inr name => name
      end in
    let* primitives :=
      self_table self "_attribute_is_primitive" (_attribute_is_primitive c) in
    let* found := table_item primitives attribute_name in
    let primitive :=
      match found with
      | inl b => b
      | inr x => json_truth x
      end in
    if negb primitive then
      let* types :=
        self_table self "_attributes_to_types" (_attributes_to_types c) in
      let* typed := table_has types attribute_name in
      if typed then
        let* model := table_item types attribute_name in
        match model with
        | inl (TListOf element_name) =>
            let response_type :=
              String.append "List[" (String.append element_name "]") in
            let* value := unmarshal_json_with response_type value in
            Ok (attribute_name, value)
        | inl (TClass model_class) =>
            if str_contains "List" (cls_name model_class)
            then Raise AttributeError (* model.__args__ *)
            else
              let* '(value, _) := Definition_unmarshal_json_with model_class ∅ value in
              Ok (attribute_name, value)
        | inl (TBuiltin B_isoparse) => Raise TypeError (* isoparse() *)
        | inl (TBuiltin _) => Raise AttributeError (* float().unmarshal_json *)
        | inr model =>
            if json_str_has_List model
            then Raise AttributeError (* model.__args__ *)
            else Raise TypeError (* model() *)
        end
      else Ok (attribute_name, VRaw value)
    else
      let* types :=
        self_table self "_attributes_to_types" (_attributes_to_types c) in
      let* ctor := table_item types attribute_name in
      match ctor with
      | inl (TBuiltin b) =>
          let* value := builtin_call b value in
          Ok (attribute_name, value)
      | inl (TListOf _) | inl (TClass _) | inr _ => Raise TypeError
      end
  else
    Ok (JStr (String.append key (if iskeyword key then "_" else "")), VRaw value).
End Layers.

(** The loop of [_unmarshal_json_object] (lines 51 to 68) over the items
    of the payload: [item] computes the name and the value on the instance
    as it is, [__setattr__] stores it. *)
Definition setattr_loop
    (item : gmap string pyval -> string -> json -> result (json * pyval))
  : list (string * json) -> gmap string pyval -> result (gmap string pyval) :=
  fix loop (items : list (string * json)) (self : gmap string pyval)
      : result (gmap string pyval) :=
    match items with
    | [] => Ok self
    | (key, value) :: rest =>
        let* '(attribute_name, value) := item self key value in
        let* self := py_setattr self attribute_name value in
        loop rest self
    end.

(** [Definition._unmarshal_json_object]: [self] afterwards. A payload
    that is not an object has no [items]. *)
Fixpoint _unmarshal_json_object (c : class_desc) (self : gmap string pyval)
    (input_json : json) {struct input_json} : result (gmap string pyval) :=
  match input_json with
  | JDict items =>
      setattr_loop
        (fun self key value => hydrate_item _unmarshal_json_object c self key value)
        items self
  | _ => Raise AttributeError
  end.

Definition _unmarshal_json_list (input_json : list json) (known_type : string)
  : result (list pyval) :=
  unmarshal_json_list_with _unmarshal_json_object known_type input_json.

Definition Definition_unmarshal_json :=
  Definition_unmarshal_json_with _unmarshal_json_object.

Definition unmarshal_json : string -> json -> result pyval :=
  unmarshal_json_with _unmarshal_json_object.
End Unmarshal.

(** ** Entity classes of [definitions.py] *)

Definition PoolBalance : class_desc :=
  Class "PoolBalance"
    [ ("balance", "balance"); ("pending_reward", "pending_reward");
      ("pending_reward_price", "pending_reward_price"); ("price", "price");
      ("reward_token", "reward_token"); ("token", "token");
      ("token_address", "token_address") ]
    [ ("balance", true); ("pending_reward", true);
      ("pending_reward_price", true); ("price", true);
      ("reward_token", true); ("token", true); ("token_address", true) ]
    [ ("balance", TBuiltin B_float); ("pending_reward", TBuiltin B_float);
      ("pending_reward_price", TBuiltin B_float); ("price", TBuiltin B_float);
      ("reward_token", TBuiltin B_str); ("token", TBuiltin B_str);
      ("token_address", TBuiltin B_str) ].

Definition WhitelistedAddress : class_desc :=
  Class "WhitelistedAddress"
    [ ("address", "address"); ("id", "id") ]
    [ ("address", true); ("id", true) ]
    [ ("address", TBuiltin B_str); ("id", TBuiltin B_int) ].

Definition FarmPortfolio : class_desc :=
  Class "FarmPortfolio"
    [ ("farm_icon", "farm_icon"); ("farm_name", "farm_name");
      ("farm_true_name", "farm_true_name"); ("pools_balance", "pools_balance") ]
    [ ("farm_icon", true); ("farm_name", true);
      ("farm_true_name", true); ("pools_balance", false) ]
    [ ("farm_icon", TBuiltin B_str); ("farm_name", TBuiltin B_str);
      ("farm_true_name", TBuiltin B_str); ("pools_balance", TListOf "PoolBalance") ].

Definition Balance : class_desc :=
  Class "Balance"
    [ ("createdAt", "createdAt"); ("portfolio", "portfolio");
      ("wallet", "wallet"); ("walletID", "walletID") ]
    [ ("createdAt", true); ("portfolio", true);
      ("wallet", false); ("walletID", true) ]
    [ ("createdAt", TBuiltin B_str); ("portfolio", TBuiltin B_str);
      ("wallet", TClass WhitelistedAddress); ("walletID", TBuiltin B_int) ].

Definition FarmsPortfolioResponse : class_desc :=
  Class "FarmsPortfolioResponse"
    [ ("lp_pools", "lp_pools"); ("optimizer_lp_pools", "optimizer_lp_pools");
      ("optimizer_single_asset_pools", "optimizer_single_asset_pools");
      ("single_asset_pools", "single_asset_pools") ]
    [ ("lp_pools", false); ("optimizer_lp_pools", false);
      ("optimizer_single_asset_pools", false); ("single_asset_pools", false) ]
    [ ("lp_pools", TListOf "FarmPortfolio");
      ("optimizer_lp_pools", TListOf "FarmPortfolio");
      ("optimizer_single_asset_pools", TListOf "FarmPortfolio");
      ("single_asset_pools", TListOf "FarmPortfolio") ].

(** The entries of [models.name_to_class] for the classes above. *)
Definition name_to_class_excerpt : list (string * class_desc) :=
  [ ("WhitelistedAddress", WhitelistedAddress);
    ("PoolBalance", PoolBalance);
    ("FarmPortfolio", FarmPortfolio);
    ("FarmsPortfolioResponse", FarmsPortfolioResponse);
    ("Balance", Balance) ].

(** Constructors for the examples: a value that already has the target type
    is returned as it is; everything else is left to the real constructors
    and raises here, so an example that evaluates to [Ok] does not depend on
    them. *)
Definition builtin_call_same_type (b : builtin) (x : json) : result pyval :=
  match b, x with
  | B_int, JInt _ | B_float, JFloat _ | B_str, JStr _ | B_bool, JBool _ => Ok (VRaw x)
  | _, _ => Raise BuiltinError
  end.

(** No text date is parsed in the examples. *)
Definition isoparse_unused (s : string) : result Z := Raise BuiltinError.


(** ** The other validators of [HelixirApi] *)

(** The [raise] sites of the validators below, next to those of [exn]. *)
Inductive failure : Type :=
  | Earlier (e : exn)
  | Exception_unknown_symbol       (* line 218 *)
  | Exception_multiple_contracts   (* line 229 *)
  | Exception_chain_needed         (* line 232 *)
  | Exception_contract_format      (* line 238 *)
  | ValueError_symbol_or_contract  (* line 244 *)
  | ValueError_against             (* line 256 *)
  | ValueError_resolution          (* line 283 *)
  | ValueError_unpack              (* line 309: col, order = sort.split(".") *)
  | ValueError_sort.               (* line 316 *)

Inductive checked (A : Type) : Type :=
  | Pass (a : A)
  | Fail (f : failure).
Arguments Pass {A} a.
Arguments Fail {A} f.

Definition check_bind {A B : Type} (r : checked A) (k : A -> checked B) : checked B :=
  match r with
  | Pass a => k a
  | Fail f => Fail f
  end.

Definition lift {A : Type} (r : result A) : checked A :=
  match r with
  | Ok a => Pass a
  | Raise e => Fail (Earlier e)
  end.

Notation "'let+' x ':=' r 'in' k" := (check_bind r (fun x => k))
  (at level 10, x name, r at level 100, k at level 200, only parsing).
Notation "'let+' ' pat ':=' r 'in' k" :=
  (check_bind r (fun x => match x with pat => k end))
  (at level 10, pat pattern, r at level 100, k at level 200, only parsing).

(** [x in l] on a list of [str]. *)
Definition str_in (x : string) (l : list string) : bool := existsb (String.eqb x) l.

(** A [str] is kept by its characters as bytes. For an ASCII string this is
    the string itself. *)
Definition is_ascii (s : string) : bool :=
  forallb (fun c => (nat_of_ascii c <? 128)%nat) (list_ascii_of_string s).

(** [str.lower] on the ASCII letters, which is [str.lower] on an ASCII
    string. (Outside ASCII the Kelvin sign has the ASCII letter [k] as its
    lower case; the properties of [_validate_sort] are stated for ASCII
    strings.) *)
Definition ascii_lower (c : ascii) : ascii :=
  let n := nat_of_ascii c in
  if (andb (65 <=? n)%nat (n <=? 90)%nat) then ascii_of_nat (n + 32) else c.

Fixpoint str_lower (s : string) : string :=
  match s with
  | EmptyString => EmptyString
  | String c rest => String (ascii_lower c) (str_lower rest)
  end.

(** [s[:n]] *)
Fixpoint str_take (n : nat) (s : string) : string :=
  match n, s with
  | S n', String c rest => String c (str_take n' rest)
  | _, _ => EmptyString
  end.

Definition AGAINSTS : list (option string) := [None; Some "USD"; Some "PEG"].

Definition SORT_SUPPORTED_COLUMNS : list string :=
  [ "market_cap"; "liquidity_usd"; "name"; "symbol"; "total_supply";
    "circulating_supply"; "price_stable"; "price_peg"; "time"; "created_at" ].

(** The literal of line 282. *)
Definition RESOLUTIONS : list string :=
  ["M1"; "M5"; "M10"; "M15"; "M30"; "H1"; "H4"; "H12"; "D1"; "W1"; "MN1"].

Definition _validate_contract (contract : string) : checked unit :=
  if (String.length contract <? 3)%nat
     || negb (String.eqb (str_take 2 contract) "0x")
     || str_contains " " contract
  then Fail Exception_contract_format
  else Pass tt.

Definition _validate_against (against : option string) : checked unit :=
  if negb (existsb (fun a => match a, against with
                             | None, None => true
                             | Some x, Some y => String.eqb x y
                             | _, _ => false
                             end) AGAINSTS)
  then Fail ValueError_against
  else Pass tt.

Definition _validate_resolution (resolution : string) : checked unit :=
  if negb (str_in resolution RESOLUTIONS) then Fail ValueError_resolution
  else Pass tt.

(** [sort] is [None] or a [str]; [not sort] holds for [None] and [""]. *)
Definition _validate_sort (sort : option string) (columns : list string)
  : checked unit :=
  match sort with
  | None => Pass tt
  | Some EmptyString => Pass tt
  | Some sort =>
      let sort := str_lower sort in
      let+ '(col, order) :=
        (if str_contains "." sort then
           match str_split "." sort with
           | [col; order] => Pass (col, order)
           | _ => Fail ValueError_unpack
           end
         else
           match sort with
           | String c rest => Pass (rest, String c EmptyString)
           | EmptyString => Fail (Earlier IndexError)
           end) in
      if str_in col SORT_SUPPORTED_COLUMNS && str_in col columns
      then if str_in order ["+"; "-"; "asc"; "desc"] then Pass tt
           else Fail ValueError_sort
      else Fail ValueError_sort
  end.

(** A row of the asset table ([self.assets_list], a [DataFrame] built from
    the [assets] endpoint), with the columns the code reads. *)
Record asset : Type := Asset {
  asset_chain : Z;
  asset_contract : string;
  asset_symbol : string
}.

(** [tmp["chain"].unique()]: the values in order of first appearance. *)
Fixpoint unique (l : list Z) : list Z :=
  match l with
  | [] => []
  | x :: rest => x :: List.filter (fun y => negb (Z.eqb y x)) (unique rest)
  end.

Section Assets.
(** The asset table after [_fill_assets]. A table without rows has no
    columns, and reading its [symbol] column raises [KeyError]. *)
Variable assets_list : list asset.

Definition _symbol_to_contract (symbol : string) (chain : option chain_value)
  : checked string :=
  match assets_list with
  | [] => Fail (Earlier KeyError)
  | _ =>
      if negb (existsb (fun a => String.eqb symbol (asset_symbol a)) assets_list)
      then Fail Exception_unknown_symbol
      else
        let tmp := List.filter (fun a => String.eqb symbol (asset_symbol a)) assets_list in
        match tmp with
        | [row] => Pass (asset_contract row)
        | _ =>
            let chains := unique (map asset_chain tmp) in
            match chain with
            | Some chain =>
                if existsb (fun c => chain_eqb (ChainId c) chain) chains then
                  let tmp := List.filter (fun a => chain_eqb chain (ChainId (asset_chain a)))
                                    assets_list in
                  match tmp with
                  | [row] => Pass (asset_contract row)
                  | _ => Fail Exception_multiple_contracts
                  end
                else Fail Exception_chain_needed
            | None => Fail Exception_chain_needed
            end
        end
  end.

Definition _validate_symbol_contract_chain (symbol contract : option string)
    (chain : option chain_value) : checked string :=
  match contract with
  | None =>
      match symbol with
      | None => Fail ValueError_symbol_or_contract
      | Some symbol =>
          let+ chain :=
            match chain with
            | Some c => let+ c := lift (_validate_chain c) in Pass (Some c)
            | None => Pass None
            end in
          _symbol_to_contract symbol chain
      end
  | Some contract =>
      let+ _ := _validate_contract contract in
      Pass contract
  end.

(** [isoparse_timestamp] as in [_validate_date]. A [chain] of [None] is not
    in the allow-list. The warnings of the date validation come with the
    result. *)
Definition _validate_symbol_contract_against_from__to_resolution_chain
    (isoparse_timestamp : string -> result Z)
    (symbol contract against : option string) (from_ to : option date_arg)
    (resolution : string) (chain : option chain_value)
  : checked ((string * option Z * option Z) * list warning) :=
  let+ chain := match chain with
                | Some c => lift (_validate_chain c)
                | None => Fail (Earlier ValueError_chain)
                end in
  let+ contract := _validate_symbol_contract_chain symbol contract (Some chain) in
  let+ _ := _validate_against against in
  let+ '((from_, to), warnings) := lift (_validate_from__to isoparse_timestamp from_ to) in
  let+ _ := _validate_resolution resolution in
  Pass ((contract, from_, to), warnings).
End Assets.

(** ** Notions the properties are stated with *)

(** The endpoint tag of high-cardinality endpoints: the path mentions
    [active_addresses] or [moves]. *)
Definition high_cardinality (endpoint : string) : Prop :=
  (exists pre post, endpoint = String.append pre (String.append "active_addresses" post))
  \/ (exists pre post, endpoint = String.append pre (String.append "moves" post)).

(** The nine codes the three tables are keyed by. *)
Definition table_codes : list string :=
  ["M1"; "M5"; "M10"; "M15"; "M30"; "H1"; "H4"; "H12"; "D1"].

(** [tiles step a b ws]: the windows [ws] are consecutive, start at [a], end
    at [b], each but the last is [step] wide and the last is not empty and at
    most [step] wide. *)
Inductive tiles (step : Z) : Z -> Z -> list (Z * Z) -> Prop :=
  | tiles_last (a b : Z) :
      a < b -> b - a <= step -> tiles step a b [(a, b)]
  | tiles_more (a b : Z) (ws : list (Z * Z)) :
      a + step < b -> tiles step (a + step) b ws ->
      tiles step a b ((a, a + step) :: ws).

(** The instant [x] falls into the half-open window [w]. *)
Definition in_window (x : Z) (w : Z * Z) : Prop := fst w <= x < snd w.

Section RunRequests.
Variables (Item World : Type).
Variable executor : Z -> Z -> World -> result (list Item * World).

(** One executor call per window, in the order of the list, each on the
    state the previous one left, the results concatenated. *)
Fixpoint run_requests (ws : list (Z * Z)) (w : World)
  : result (list Item * World) :=
  match ws with
  | [] => Ok ([], w)
  | (from_, to) :: rest =>
      let* '(items, w) := executor from_ to w in
      let* '(more, w) := run_requests rest w in
      Ok (items ++ more, w)
  end.
End RunRequests.

Arguments run_requests {Item World} executor ws w.

(** A payload for [Balance] with a nested entity and a key that is a Python
    keyword, and the attributes it hydrates to. *)
Definition balance_payload : list (string * json) :=
  [ ("wallet", JDict [("id", JInt 4)]); ("class", JInt 3) ].

Definition balance_hydrated : gmap string pyval :=
  <["class_" := VRaw (JInt 3)]>
    (<["wallet" := VObj "WhitelistedAddress" (<["id" := VRaw (JInt 4)]> ∅)]> ∅).

(** The names [_unmarshal_json_object] looks up on [self] while it runs,
    and the data descriptors of an entity, which [__setattr__] does not
    store in the attribute bag. *)
Definition reads_through_self : list string :=
  ["__setattr__"; "_api_name_to_python"; "_attribute_is_primitive";
   "_attributes_to_types"].

Definition data_descriptors : list string :=
  ["__class__"; "__dict__"; "__weakref__"].

(** A name that [__setattr__] stores in the attribute bag and that the loop
    does not look up. *)
Definition plain_name (name : string) : bool :=
  negb (str_in name data_descriptors || str_in name reads_through_self).

(** The attribute names of the keys of a payload are plain. *)
Definition plain_keys (c : class_desc) (items : list (string * json)) : bool :=
  forallb (fun kv => plain_name (attribute_name_of c (fst kv))) items.

(** An instance that holds nothing under the names the loop looks up on it,
    as a newly created entity does. *)
Definition unshadowed (self : gmap string pyval) : bool :=
  forallb (fun name => match self !! name with
                       | None => true
                       | Some _ => false
                       end) reads_through_self.

(** The names of the class tables. *)
Definition class_tables : list string :=
  ["_api_name_to_python"; "_attribute_is_primitive"; "_attributes_to_types"].

(** An instance that holds nothing but decoded values under the names of
    the class tables. *)
Definition raw_tables (self : gmap string pyval) : bool :=
  forallb (fun name => match self !! name with
                       | None | Some (VRaw _) => true
                       | Some _ => false
                       end) class_tables.

(** A class whose field table and type table use plain attribute names
    only, as do the classes its type table names. *)
Fixpoint plain_class (c : class_desc) : bool :=
  match c with
  | Class _ names primitives types =>
      forallb (fun kv => plain_name (snd kv)) names
      && (fix all (types : list (string * declared_type)) : bool :=
            match types with
            | [] => true
            | (name, TClass model) :: rest =>
                plain_name name && plain_class model && all rest
            | (name, _) :: rest => plain_name name && all rest
            end) types
  end.

(** A run that the embedding follows to its end: a result or an exception
    of the code. *)
Definition followed {A : Type} (r : result A) : bool :=
  match r with
  | Raise NotEmbedded => false
  | _ => true
  end.

(** What [__setattr__] is handed when the instance stays in that state: a
    decoded value under any name, any value under a plain name. *)
Definition stores_raw (name : json) (v : pyval) : Prop :=
  (exists j, v = VRaw j) \/ (exists n, name = JStr n /\ plain_name n = true).

(** A payload on which every run is followed: the hydration of an object on
    such an instance of a plain class, the entry point on any response type,
    and [Definition.unmarshal_json] on a new entity of a plain class. *)
Definition follows (builtin_call : builtin -> json -> result pyval)
    (name_to_class : list (string * class_desc)) (j : json) : Prop :=
  (forall c self, plain_class c = true -> raw_tables self = true ->
                  followed (_unmarshal_json_object builtin_call name_to_class c self j)
                  = true)
  /\ (forall response_type,
        followed (unmarshal_json builtin_call name_to_class response_type j) = true)
  /\ (forall c, plain_class c = true ->
                followed (Definition_unmarshal_json builtin_call name_to_class c ∅ j)
                = true).

(** A class outside [definitions.py], whose only field has no entry in the
    type table. *)
Definition UntypedRows : class_desc :=
  Class "UntypedRows" [ ("rows", "rows") ] [ ("rows", false) ] [].

(** [sep.join(pieces)] *)
Fixpoint str_join (sep : string) (pieces : list string) : string :=
  match pieces with
  | [] => EmptyString
  | [x] => x
  | x :: rest => String.append x (String.append sep (str_join sep rest))
  end.

(** The dict comprehension of [unmarshal.py], line 20, over a decoder [f] of
    the values. *)
Definition comprehension_of (f : json -> result pyval)
  : list (string * json) -> gmap string pyval -> result (gmap string pyval) :=
  fix comprehension (items : list (string * json)) (acc : gmap string pyval)
      : result (gmap string pyval) :=
    match items with
    | [] => Ok acc
    | (k, v) :: rest =>
        let* x := f v in
        comprehension rest (<[k := x]> acc)
    end.

(** The [columns] argument of [_validate_sort] in [get_lps_swaps],
    [get_swaps] and [get_wallets_swaps] (lines 609, 958 and 1296). *)
Definition swaps_sort_columns : list string :=
  ["amount_0"; "amount_1"; "time"; "token_contract"; "token_symbol"].

(** The range the candle loop runs on (lines 152 to 156): a missing [from]
    is the data epoch, a missing or future [to] is the clock reading. *)
Definition effective_from (from_ : option Z) : Z :=
  match from_ with
  | None => DATA_EPOCH_timestamp
  | Some f => f
  end.

Definition effective_to (to : option Z) (now_cmp now_set : Z) : Z :=
  match to with
  | None => now_set
  | Some t => if t >? now_cmp then now_set else t
  end.

(** A small asset table for the examples: one symbol on two chains, and a
    second asset on one of them. *)
Definition assets_example : list asset :=
  [ Asset 56 "0xe9e7CEA3DedcA5984780Bafc599bD69ADd087D56" "BUSD";
    Asset 1 "0x4Fabb145d64652a948d72533023f6E7A623C7C53" "BUSD";
    Asset 56 "0x0E09FaBB73Bd3Ade0a17ECC321fD13a19e81cE82" "CAKE" ].

(* ================================================================== *)
(** * Part II. Properties *)
(* ================================================================== *)

(** ** Chain validation *)

Lemma chain_eqb_eq (a b : chain_value) : chain_eqb a b = true <-> a = b.
Proof.
  destruct a as [n|s], b as [m|t]; simpl; split; intros H;
    try discriminate; try congruence.
  - apply Z.eqb_eq in H. now subst.
  - injection H as ->. apply Z.eqb_refl.
  - apply String.eqb_eq in H. now subst.
  - injection H as ->. apply String.eqb_refl.
Qed.

Lemma chain_in_In (x : chain_value) (l : list chain_value) :
  chain_in x l = true <-> In x l.
Proof.
  unfold chain_in. rewrite existsb_exists. split.
  - intros (y & Hy & Heq). apply chain_eqb_eq in Heq. now subst.
  - intros H. exists x. split; [assumption | now apply chain_eqb_eq].
Qed.

Lemma validate_chain_rejects (chain : chain_value) :
  ~ In chain CHAIN_SUPPORTED_VALUES -> _validate_chain chain = Raise ValueError_chain.
Proof.
  intros Hnot. unfold _validate_chain.
  destruct (chain_in chain CHAIN_SUPPORTED_VALUES) eqn:Hin; [| reflexivity].
  exfalso. apply Hnot. now apply chain_in_In.
Qed.

(** Runs through the twenty entries of the allow-list. *)
Ltac each_supported_chain H :=
  unfold CHAIN_SUPPORTED_VALUES in H; simpl in H;
  repeat (destruct H as [H | H]; [subst | ]); [ .. | contradiction ].

(** C7. Every entry of the allow-list is normalised to the numeric identifier
    [CHAIN_SUPPORTED_VALUES[index mod CHAINS_NUMBER]]: ["56"], [56] and ["BSC"]
    all give 56; a value outside the allow-list, such as 999999, raises the
    chain error. *)
Theorem validate_chain_canonical :
  (_validate_chain (ChainName "56") = Ok (ChainId 56)
   /\ _validate_chain (ChainId 56) = Ok (ChainId 56)
   /\ _validate_chain (ChainName "BSC") = Ok (ChainId 56)
   /\ _validate_chain (ChainId 999999) = Raise ValueError_chain)
  /\ forall chain : chain_value,
      (In chain CHAIN_SUPPORTED_VALUES ->
       exists (i : nat) (id : Z),
         chain_index chain CHAIN_SUPPORTED_VALUES = Some i
         /\ nth_error CHAIN_SUPPORTED_VALUES
              (Z.to_nat (Z.of_nat i mod CHAINS_NUMBER)) = Some (ChainId id)
         /\ _validate_chain chain = Ok (ChainId id))
      /\ (~ In chain CHAIN_SUPPORTED_VALUES ->
          _validate_chain chain = Raise ValueError_chain).
Proof.
  split.
  - repeat split; reflexivity.
  - intros chain. split.
    + intros H. each_supported_chain H;
        eexists _, _; repeat split; reflexivity.
    + apply validate_chain_rejects.
Qed.

Lemma validate_chain_canonical_witness :
  exists (i : nat) (id : Z),
    chain_index (ChainName "polygon") CHAIN_SUPPORTED_VALUES = Some i
    /\ nth_error CHAIN_SUPPORTED_VALUES
         (Z.to_nat (Z.of_nat i mod CHAINS_NUMBER)) = Some (ChainId id)
    /\ _validate_chain (ChainName "polygon") = Ok (ChainId id).
Proof.
  apply (proj1 (proj2 validate_chain_canonical (ChainName "polygon"))).
  unfold CHAIN_SUPPORTED_VALUES. simpl. tauto.
Defined.

(** C9. On the allow-list chain validation is idempotent: the identifier it
    returns is on the allow-list and is validated to itself. *)
Theorem validate_chain_idempotent (c : chain_value) :
  In c CHAIN_SUPPORTED_VALUES ->
  exists v : chain_value,
    _validate_chain c = Ok v
    /\ In v CHAIN_SUPPORTED_VALUES
    /\ _validate_chain v = Ok v.
Proof.
  intros H. each_supported_chain H;
    eexists; (split; [reflexivity | split; [simpl; tauto | reflexivity]]).
Qed.

Lemma validate_chain_idempotent_witness :
  exists v : chain_value,
    _validate_chain (ChainName "avax") = Ok v
    /\ In v CHAIN_SUPPORTED_VALUES
    /\ _validate_chain v = Ok v.
Proof.
  apply (validate_chain_idempotent (ChainName "avax")).
  unfold CHAIN_SUPPORTED_VALUES. simpl. tauto.
Defined.

(** ** Limit and page validation *)

Lemma falsy_spec (x : option Z) : falsy x = true <-> x = None \/ x = Some 0.
Proof.
  destruct x as [n|]; simpl.
  - rewrite Z.eqb_eq. split.
    + intros ->. now right.
    + intros [H | H]; [discriminate | now injection H].
  - split; [now left | reflexivity].
Qed.

Lemma validate_limit_raises (limit : option Z) :
  (exists e, _validate_limit limit = Raise e) <->
  (exists l, limit = Some l /\ l <> 0 /\ (l < fst LIMIT_LIMITS \/ snd LIMIT_LIMITS < l)).
Proof.
  unfold _validate_limit. destruct limit as [l|]; simpl.
  - destruct (Z.eqb_spec l 0) as [-> | Hne].
    + split; [intros [e He]; discriminate | intros (l & Hl & Hne & _); congruence].
    + destruct (Z.ltb_spec l 1); simpl.
      * split; [intros _; exists l; repeat split; auto | intros _; eexists; reflexivity].
      * destruct (Z.gtb_spec l 500).
        -- split; [intros _; exists l; repeat split; auto; lia | intros _; eexists; reflexivity].
        -- split; [intros [e He]; discriminate |].
           intros (l' & Hl & _ & Hb). injection Hl as <-. simpl in Hb. lia.
  - split; [intros [e He]; discriminate | intros (l & Hl & _); discriminate].
Qed.

Lemma validate_page_raises (page : option Z) :
  (exists e, _validate_page page = Raise e) <->
  (exists p, page = Some p /\ p <> 0 /\ (p < fst PAGE_LIMITS \/ snd PAGE_LIMITS < p)).
Proof.
  unfold _validate_page. destruct page as [p|]; simpl.
  - destruct (Z.eqb_spec p 0) as [-> | Hne].
    + split; [intros [e He]; discriminate | intros (l & Hl & Hne & _); congruence].
    + destruct (Z.ltb_spec p 1); simpl.
      * split; [intros _; exists p; repeat split; auto | intros _; eexists; reflexivity].
      * destruct (Z.gtb_spec p 922337203685477581).
        -- split; [intros _; exists p; repeat split; auto; lia | intros _; eexists; reflexivity].
        -- split; [intros [e He]; discriminate |].
           intros (p' & Hp & _ & Hb). injection Hp as <-. simpl in Hb. lia.
  - split; [intros [e He]; discriminate | intros (l & Hl & _); discriminate].
Qed.

(** C8. The limit validator lets every falsy limit through, also 0, which is
    below the lower bound 1; so does the page validator with page 0. A
    validator raises exactly on a present, non-zero value outside its bounds. *)
Theorem validate_limit_page_falsy :
  (0 < fst LIMIT_LIMITS /\ 0 < fst PAGE_LIMITS)
  /\ (forall limit, falsy limit = true -> _validate_limit limit = Ok tt)
  /\ _validate_limit (Some 0) = Ok tt
  /\ (forall page, falsy page = true -> _validate_page page = Ok tt)
  /\ _validate_page (Some 0) = Ok tt
  /\ (forall limit,
        (exists e, _validate_limit limit = Raise e) <->
        (exists l, limit = Some l /\ l <> 0
                   /\ (l < fst LIMIT_LIMITS \/ snd LIMIT_LIMITS < l)))
  /\ (forall page,
        (exists e, _validate_page page = Raise e) <->
        (exists p, page = Some p /\ p <> 0
                   /\ (p < fst PAGE_LIMITS \/ snd PAGE_LIMITS < p))).
Proof.
  split; [simpl; lia |].
  split; [intros limit H; unfold _validate_limit; now rewrite H |].
  split; [reflexivity |].
  split; [intros page H; unfold _validate_page; now rewrite H |].
  split; [reflexivity |].
  split; [apply validate_limit_raises | apply validate_page_raises].
Qed.

Lemma validate_limit_page_falsy_witness :
  _validate_limit None = Ok tt /\ _validate_page (Some 0) = Ok tt.
Proof.
  split.
  - apply (proj1 (proj2 validate_limit_page_falsy) None). reflexivity.
  - apply (proj1 (proj2 (proj2 (proj2 validate_limit_page_falsy))) (Some 0)).
    reflexivity.
Defined.

(** ** From/to validation *)

Lemma validate_from_to_unfold (isoparse : string -> result Z)
    (from_ to : option date_arg) (f t : option Z) (w1 w2 : list warning) :
  _validate_date isoparse from_ = Ok (f, w1) ->
  _validate_date isoparse to = Ok (t, w2) ->
  _validate_from__to isoparse from_ to =
    if falsy t then Ok ((f, t), w1 ++ w2)
    else match t with
         | None => Ok ((f, t), w1 ++ w2)
         | Some tv =>
             if tv <? DATA_EPOCH_timestamp then Raise ValueError_too_early
             else if falsy f then Ok ((f, t), w1 ++ w2)
             else match f with
                  | None => Ok ((f, t), w1 ++ w2)
                  | Some fv =>
                      if tv <=? fv then Raise ValueError_to_not_after_from
                      else Ok ((f, t), w1 ++ w2)
                  end
         end.
Proof.
  intros Hf Ht. unfold _validate_from__to. rewrite Hf. simpl. rewrite Ht. reflexivity.
Qed.

(** C3, as the code has it. With both dates coerced: a present, non-zero [to]
    before the data epoch raises the too-early error; a [to] at or after the
    epoch with a present [from] and [to <= from] raises the range error; a
    missing [to], or a [to] at or after the epoch with [from] missing or
    before [to], returns the coerced pair. The timestamps 50 and 100 both
    precede the epoch 1618227900, so both orders of them raise the too-early
    error; shifted by the epoch they raise the range error and succeed. *)
Theorem validate_from_to_cases (isoparse : string -> result Z)
    (from_ to : option date_arg) (f t : option Z) (w1 w2 : list warning) :
  _validate_date isoparse from_ = Ok (f, w1) ->
  _validate_date isoparse to = Ok (t, w2) ->
  (forall tv, t = Some tv -> tv <> 0 -> tv < DATA_EPOCH_timestamp ->
     _validate_from__to isoparse from_ to = Raise ValueError_too_early)
  /\ (forall tv fv, t = Some tv -> DATA_EPOCH_timestamp <= tv ->
        f = Some fv -> tv <= fv ->
        _validate_from__to isoparse from_ to = Raise ValueError_to_not_after_from)
  /\ (t = None
      \/ (exists tv, t = Some tv /\ DATA_EPOCH_timestamp <= tv
                     /\ (f = None \/ exists fv, f = Some fv /\ fv < tv)) ->
      _validate_from__to isoparse from_ to = Ok ((f, t), w1 ++ w2))
  /\ (_validate_from__to isoparse None (Some (DateInt (DATA_EPOCH_timestamp - 1)))
        = Raise ValueError_too_early
      /\ _validate_from__to isoparse (Some (DateInt 100)) (Some (DateInt 50))
        = Raise ValueError_too_early
      /\ _validate_from__to isoparse (Some (DateInt 50)) (Some (DateInt 100))
        = Raise ValueError_too_early
      /\ _validate_from__to isoparse
           (Some (DateInt (DATA_EPOCH_timestamp + 100)))
           (Some (DateInt (DATA_EPOCH_timestamp + 50)))
        = Raise ValueError_to_not_after_from
      /\ _validate_from__to isoparse
           (Some (DateInt (DATA_EPOCH_timestamp + 50)))
           (Some (DateInt (DATA_EPOCH_timestamp + 100)))
        = Ok ((Some (DATA_EPOCH_timestamp + 50), Some (DATA_EPOCH_timestamp + 100)), [])).
Proof.
  intros Hf Ht.
  rewrite (validate_from_to_unfold isoparse from_ to f t w1 w2 Hf Ht).
  repeat split.
  - intros tv -> Hnz Hlt. simpl.
    destruct (Z.eqb_spec tv 0); [contradiction |].
    destruct (Z.ltb_spec tv DATA_EPOCH_timestamp); [reflexivity | lia].
  - intros tv fv -> Hge -> Hle. simpl.
    assert (0 < DATA_EPOCH_timestamp) by (unfold DATA_EPOCH_timestamp; lia).
    destruct (Z.eqb_spec tv 0); [lia |].
    destruct (Z.ltb_spec tv DATA_EPOCH_timestamp); [lia |].
    destruct (Z.eqb_spec fv 0); [lia |].
    destruct (Z.leb_spec tv fv); [reflexivity | lia].
  - assert (0 < DATA_EPOCH_timestamp) by (unfold DATA_EPOCH_timestamp; lia).
    intros [-> | (tv & -> & Hge & Hfrom)]; [reflexivity |].
    simpl.
    destruct (Z.eqb_spec tv 0); [lia |].
    destruct (Z.ltb_spec tv DATA_EPOCH_timestamp); [lia |].
    destruct Hfrom as [-> | (fv & -> & Hlt)]; [reflexivity |].
    simpl. destruct (Z.eqb_spec fv 0); [reflexivity |].
    destruct (Z.leb_spec tv fv); [lia | reflexivity].
Qed.

Lemma validate_from_to_cases_witness :
  _validate_from__to isoparse_unused
    (Some (DateInt 1618227950)) (Some (DateInt 1618228000))
  = Ok ((Some 1618227950, Some 1618228000), [] ++ []).
Proof.
  apply (proj1 (proj2 (proj2
           (validate_from_to_cases isoparse_unused
              (Some (DateInt 1618227950)) (Some (DateInt 1618228000))
              (Some 1618227950) (Some 1618228000) [] [] eq_refl eq_refl)))).
  right. exists 1618228000. split; [reflexivity |].
  split; [unfold DATA_EPOCH_timestamp; lia |].
  right. exists 1618227950. split; [reflexivity | lia].
Defined.

(** C3, as the specification words it, fails on its own examples: [from =
    50, to = 100] does not succeed and [from = 100, to = 50] raises the
    too-early error, not the range error, because [to] precedes the data
    epoch in both. *)
Lemma validate_from_to_examples_too_early :
  _validate_from__to isoparse_unused (Some (DateInt 50)) (Some (DateInt 100))
    = Raise ValueError_too_early
  /\ _validate_from__to isoparse_unused (Some (DateInt 100)) (Some (DateInt 50))
    = Raise ValueError_too_early.
Proof. split; reflexivity. Qed.

(** A [to] of zero is falsy and passes both tests. *)
Example validate_from_to_zero :
  _validate_from__to isoparse_unused None (Some (DateInt 0))
  = Ok ((None, Some 0), [Warn_before_data_epoch]).
Proof. reflexivity. Qed.

(** ** Strings *)

Lemma append_cons (c : ascii) (a b : string) :
  String.append (String c a) b = String c (String.append a b).
Proof. reflexivity. Qed.

Lemma prefix_append (a b : string) :
  String.prefix a b = true <-> exists post, b = String.append a post.
Proof.
  revert b. induction a as [| c a IH]; intros b.
  - split; [intros _; now exists b | intros _; now destruct b].
  - destruct b as [| d b]; cbn [String.prefix].
    + split; [discriminate | intros [post H]; discriminate].
    + destruct (ascii_dec c d) as [-> | Hne].
      * rewrite IH. split; intros [post H]; exists post;
          rewrite append_cons in *; congruence.
      * split; [discriminate |].
        intros [post H]. rewrite append_cons in H. congruence.
Qed.

(** [str_contains] is Python's substring test. *)
Lemma str_contains_spec (needle hay : string) :
  str_contains needle hay = true <->
  exists pre post, hay = String.append pre (String.append needle post).
Proof.
  induction hay as [| c hay IH]; cbn [str_contains].
  - rewrite orb_false_r, prefix_append. split.
    + intros [post H]. now exists EmptyString, post.
    + intros (pre & post & H). destruct pre; [now exists post | discriminate].
  - rewrite orb_true_iff, IH, prefix_append. split.
    + intros [[post H] | (pre & post & H)].
      * now exists EmptyString, post.
      * exists (String c pre), post. rewrite append_cons. now rewrite H.
    + intros (pre & post & H). destruct pre as [| d pre].
      * left. now exists post.
      * right. exists pre, post. rewrite append_cons in H. congruence.
Qed.

Lemma dict_get_In {V : Type} (d : list (string * V)) (k : string) (v : V) :
  dict_get d k = Some v -> In (k, v) d.
Proof.
  induction d as [| [k' v'] d IH]; simpl; [discriminate |].
  destruct (String.eqb_spec k' k) as [-> | Hne].
  - intros [= ->]. now left.
  - intros H. right. now apply IH.
Qed.

(** ** The step of the candle loop *)

Lemma high_cardinality_test (endpoint : string) :
  str_contains "active_addresses" endpoint || str_contains "moves" endpoint = true
  <-> high_cardinality endpoint.
Proof.
  unfold high_cardinality.
  now rewrite orb_true_iff, !str_contains_spec.
Qed.

Lemma candle_step_lookup (endpoint resolution : string) (window secs : Z) :
  dict_get candle_seconds (str_upper resolution) = Some secs ->
  (high_cardinality endpoint
   /\ dict_get strict_candle_limits (str_upper resolution) = Some window)
  \/ (~ high_cardinality endpoint
      /\ dict_get candle_limits (str_upper resolution) = Some window) ->
  candle_step endpoint resolution = Ok (Z.min window (secs * CANDLE_LIMIT), secs).
Proof.
  intros Hsecs Hwindow.
  unfold candle_step, dict_item.
  destruct (str_contains "active_addresses" endpoint || str_contains "moves" endpoint)
    eqn:Htag.
  - apply high_cardinality_test in Htag.
    destruct Hwindow as [[_ Hw] | [Hnot _]]; [| contradiction].
    rewrite Hw. cbn [bind]. now rewrite Hsecs.
  - destruct Hwindow as [[Htagged _] | [_ Hw]].
    + apply high_cardinality_test in Htagged. congruence.
    + rewrite Hw. cbn [bind]. now rewrite Hsecs.
Qed.

(** C6. For each resolution code of the tables (in either letter case) and
    every endpoint, the step of the chunker is the smaller of the configured
    window of the resolution and its candle duration times [CANDLE_LIMIT],
    which is 5000; the window is read from the strict table, whose windows
    are never longer, exactly when the endpoint is tagged high-cardinality,
    and from the relaxed table otherwise. *)
Theorem candle_step_min (endpoint resolution : string) :
  In (str_upper resolution) table_codes ->
  exists relaxed strict secs : Z,
    dict_get candle_limits (str_upper resolution) = Some relaxed
    /\ dict_get strict_candle_limits (str_upper resolution) = Some strict
    /\ dict_get candle_seconds (str_upper resolution) = Some secs
    /\ strict <= relaxed
    /\ CANDLE_LIMIT = 5000
    /\ (high_cardinality endpoint ->
        candle_step endpoint resolution
        = Ok (Z.min strict (secs * CANDLE_LIMIT), secs))
    /\ (~ high_cardinality endpoint ->
        candle_step endpoint resolution
        = Ok (Z.min relaxed (secs * CANDLE_LIMIT), secs)).
Proof.
  intros Hcode.
  assert (Htables : exists relaxed strict secs : Z,
             dict_get candle_limits (str_upper resolution) = Some relaxed
             /\ dict_get strict_candle_limits (str_upper resolution) = Some strict
             /\ dict_get candle_seconds (str_upper resolution) = Some secs
             /\ strict <= relaxed).
  { simpl in Hcode.
    repeat (destruct Hcode as [Hcode | Hcode];
            [rewrite <- Hcode; eexists _, _, _; repeat split; try reflexivity; cbn; lia |]).
    contradiction. }
  destruct Htables as (relaxed & strict & secs & Hr & Hs & Hsec & Hle).
  exists relaxed, strict, secs. repeat split; try assumption.
  - intros Htag. apply candle_step_lookup; auto.
  - intros Hnot. apply candle_step_lookup; auto.
Qed.

Lemma candle_step_min_witness :
  exists relaxed strict secs : Z,
    dict_get candle_limits (str_upper "h1") = Some relaxed
    /\ dict_get strict_candle_limits (str_upper "h1") = Some strict
    /\ dict_get candle_seconds (str_upper "h1") = Some secs
    /\ strict <= relaxed
    /\ CANDLE_LIMIT = 5000
    /\ (high_cardinality "token/moves" ->
        candle_step "token/moves" "h1"
        = Ok (Z.min strict (secs * CANDLE_LIMIT), secs))
    /\ (~ high_cardinality "token/moves" ->
        candle_step "token/moves" "h1"
        = Ok (Z.min relaxed (secs * CANDLE_LIMIT), secs)).
Proof.
  apply (candle_step_min "token/moves" "h1").
  simpl. tauto.
Defined.

(** C6, as it is worded for every resolution code, fails for [W1] and
    [MN1]: the resolution validator accepts both, but neither the table of
    candle durations nor the two tables of windows have an entry for them,
    so no span is computed: the lookup raises [KeyError], on a tagged
    endpoint as on any other. *)
Lemma candle_step_missing_codes :
  _validate_resolution "W1" = Pass tt
  /\ _validate_resolution "MN1" = Pass tt
  /\ candle_step "price/candles" "W1" = Raise KeyError
  /\ candle_step "price/candles" "MN1" = Raise KeyError
  /\ candle_step "token/moves" "W1" = Raise KeyError
  /\ candle_step "token/moves" "MN1" = Raise KeyError
  /\ dict_get candle_seconds "W1" = None
  /\ dict_get candle_seconds "MN1" = None.
Proof. repeat split; reflexivity. Qed.

(** Every code of the tables has a step, whatever the endpoint. *)
Lemma candle_step_defined (endpoint resolution : string) :
  In (str_upper resolution) table_codes ->
  exists step secs, candle_step endpoint resolution = Ok (step, secs).
Proof.
  intros H. unfold candle_step.
  destruct (str_contains "active_addresses" endpoint || str_contains "moves" endpoint);
    simpl in H;
    repeat (destruct H as [H | H]; [rewrite <- H; eexists _, _; reflexivity |]);
    contradiction.
Qed.

(** A step is positive and spans at most [CANDLE_LIMIT] candles. *)
Lemma candle_step_bounds (endpoint resolution : string) (step secs : Z) :
  candle_step endpoint resolution = Ok (step, secs) ->
  0 < secs /\ 0 < step /\ step <= secs * CANDLE_LIMIT.
Proof.
  unfold candle_step, dict_item. intros H.
  destruct (dict_get candle_seconds (str_upper resolution)) as [s |] eqn:Hs.
  2: { destruct (if str_contains "active_addresses" endpoint || str_contains "moves" endpoint
                 then _ else _); simpl in H; discriminate. }
  assert (Hspos : 0 < s).
  { apply dict_get_In in Hs. simpl in Hs.
    repeat (destruct Hs as [Hs | Hs]; [injection Hs as _ <-; lia |]). contradiction. }
  assert (Hwin : forall tbl win,
             tbl = strict_candle_limits \/ tbl = candle_limits ->
             dict_get tbl (str_upper resolution) = Some win -> 0 < win).
  { intros tbl win [-> | ->] Hw; apply dict_get_In in Hw; simpl in Hw;
      repeat (destruct Hw as [Hw | Hw]; [injection Hw as _ <-; lia |]); contradiction. }
  destruct (str_contains "active_addresses" endpoint || str_contains "moves" endpoint).
  - destruct (dict_get strict_candle_limits (str_upper resolution)) as [win |] eqn:Hw;
      simpl in H; [| discriminate].
    injection H as <- <-. specialize (Hwin _ _ (or_introl eq_refl) Hw).
    unfold CANDLE_LIMIT. lia.
  - destruct (dict_get candle_limits (str_upper resolution)) as [win |] eqn:Hw;
      simpl in H; [| discriminate].
    injection H as <- <-. specialize (Hwin _ _ (or_intror eq_refl) Hw).
    unfold CANDLE_LIMIT. lia.
Qed.

(** ** The candle loop tiles the requested range *)

Section RunRequestsFacts.
Variables (Item World : Type).
Variable executor : Z -> Z -> World -> result (list Item * World).

Lemma candle_loop_run_requests (step original_to : Z) (starts : list Z) :
  forall (result_ : list Item) (w : World),
    candle_loop executor step original_to starts result_ w
    = let* '(items, w) :=
        run_requests executor
        (map (fun i => (i, Z.min (i + step) original_to)) starts) w in
      Ok (result_ ++ items, w).
Proof.
  induction starts as [| i starts IH]; intros result_ w; simpl.
  - now rewrite app_nil_r.
  - destruct (executor i (Z.min (i + step) original_to) w) as [[items w'] | e];
      simpl; [| reflexivity].
    rewrite IH.
    destruct (run_requests executor _ w') as [[more w''] | e]; simpl; [| reflexivity].
    now rewrite app_assoc.
Qed.
End RunRequestsFacts.

Lemma range_length_step (lo hi step : Z) :
  0 < step -> lo + step < hi ->
  range_length lo hi step = range_length (lo + step) hi step + 1.
Proof.
  intros Hstep Hlt. unfold range_length.
  destruct (Z.ltb_spec 0 step); [| lia].
  destruct (Z.ltb_spec lo hi); [| lia].
  destruct (Z.ltb_spec (lo + step) hi); [| lia].
  replace (hi - lo - 1) with ((hi - (lo + step) - 1) + 1 * step) by lia.
  rewrite Z.div_add by lia. lia.
Qed.

Lemma range_length_one (lo hi step : Z) :
  0 < step -> lo < hi -> hi <= lo + step -> range_length lo hi step = 1.
Proof.
  intros Hstep Hlt Hle. unfold range_length.
  destruct (Z.ltb_spec 0 step); [| lia].
  destruct (Z.ltb_spec lo hi); [| lia].
  rewrite Z.div_small by lia. reflexivity.
Qed.

Lemma range_length_nonneg (lo hi step : Z) :
  0 < step -> 0 <= range_length lo hi step.
Proof.
  intros Hstep. unfold range_length.
  destruct (Z.ltb_spec 0 step); [| lia].
  destruct (Z.ltb_spec lo hi); [| lia].
  assert (0 <= (hi - lo - 1) / step) by (apply Z.div_pos; lia). lia.
Qed.

(** The windows the loop requests tile the range it is run on. *)
Lemma range_windows_tile (step hi : Z) :
  0 < step ->
  forall (n : nat) (lo : Z),
    lo < hi ->
    Z.of_nat n = range_length lo hi step ->
    tiles step lo hi
      (map (fun i => (i, Z.min (i + step) hi)) (range_from lo step n)).
Proof.
  intros Hstep. induction n as [| n IH]; intros lo Hlt Hn.
  - exfalso. destruct (Z_lt_le_dec (lo + step) hi).
    + rewrite range_length_step in Hn by assumption.
      pose proof (range_length_nonneg (lo + step) hi step Hstep). lia.
    + rewrite range_length_one in Hn by lia. lia.
  - simpl. destruct (Z_lt_le_dec (lo + step) hi) as [Hmore | Hlast].
    + rewrite Z.min_l by lia. apply tiles_more; [assumption |].
      apply IH; [lia |].
      rewrite range_length_step in Hn by assumption. lia.
    + rewrite range_length_one in Hn by lia.
      assert (n = 0%nat) as -> by lia. simpl.
      rewrite Z.min_r by lia. apply tiles_last; lia.
Qed.

(** Tiling windows lie inside the range, in ascending order. *)
Lemma tiles_bounds (step a b : Z) (ws : list (Z * Z)) :
  0 < step -> tiles step a b ws ->
  forall w, In w ws -> a <= fst w /\ fst w < snd w /\ snd w <= b /\ snd w - fst w <= step.
Proof.
  intros Hstep Ht. induction Ht as [a b Hlt Hle | a b ws Hlt Ht IH]; intros w Hin.
  - destruct Hin as [<- | []]. simpl. lia.
  - destruct Hin as [<- | Hin]; [simpl; lia |].
    specialize (IH w Hin). lia.
Qed.

(** No gap: every instant of the range falls into a window. *)
Lemma tiles_cover (step a b : Z) (ws : list (Z * Z)) :
  0 < step -> tiles step a b ws ->
  forall x, a <= x < b -> exists w, In w ws /\ in_window x w.
Proof.
  intros Hstep Ht. induction Ht as [a b Hlt Hle | a b ws Hlt Ht IH]; intros x Hx.
  - exists (a, b). split; [now left | unfold in_window; simpl; lia].
  - destruct (Z_lt_le_dec x (a + step)) as [Hfirst | Hlater].
    + exists (a, a + step). split; [now left | unfold in_window; simpl; lia].
    + destruct (IH x ltac:(lia)) as (w & Hin & Hw).
      exists w. split; [now right | assumption].
Qed.

(** No overlap: an instant falls into one window only. *)
Lemma tiles_disjoint (step a b : Z) (ws : list (Z * Z)) :
  0 < step -> tiles step a b ws ->
  forall (x : Z) (i j : nat) (wi wj : Z * Z),
    nth_error ws i = Some wi -> nth_error ws j = Some wj ->
    in_window x wi -> in_window x wj -> i = j.
Proof.
  intros Hstep Ht. induction Ht as [a b Hlt Hle | a b ws Hlt Ht IH];
    intros x i j wi wj Hi Hj Hxi Hxj.
  - destruct i as [| i]; [| destruct i; discriminate].
    destruct j as [| j]; [reflexivity | destruct j; discriminate].
  - pose proof (tiles_bounds step (a + step) b ws Hstep Ht) as Hb.
    unfold in_window in *.
    destruct i as [| i], j as [| j]; simpl in Hi, Hj.
    + reflexivity.
    + injection Hi as <-. apply nth_error_In in Hj. specialize (Hb wj Hj).
      simpl in Hxi. lia.
    + injection Hj as <-. apply nth_error_In in Hi. specialize (Hb wi Hi).
      simpl in Hxj. lia.
    + f_equal. eapply IH; eauto.
Qed.

Lemma tiles_ends (step a b : Z) (ws : list (Z * Z)) :
  tiles step a b ws ->
  (exists w rest, ws = w :: rest /\ fst w = a)
  /\ (exists front w, ws = front ++ [w] /\ snd w = b).
Proof.
  intros Ht. induction Ht as [a b Hlt Hle | a b ws Hlt Ht IH].
  - split; [now exists (a, b), [] | now exists [], (a, b)].
  - split; [now exists (a, a + step), ws |].
    destruct IH as [_ (front & w & -> & Hw)].
    now exists ((a, a + step) :: front), w.
Qed.

(** With a step from the tables, [from < to] and [to] not in the future,
    [_handle_candle_response] is the run of the executor over the windows of
    [range(from, to, step)], whether or not requests may be split. *)
Lemma handle_candle_response_runs (Item World : Type)
    (executor : Z -> Z -> World -> result (list Item * World))
    (split_request : bool) (endpoint resolution : string)
    (step secs f t now_cmp now_set : Z) (w : World) :
  candle_step endpoint resolution = Ok (step, secs) ->
  f < t -> t <= now_cmp ->
  _handle_candle_response executor split_request endpoint resolution
    (Some f) (Some t) now_cmp now_set w
  = run_requests executor
      (map (fun i => (i, Z.min (i + step) t))
           (range_from f step (Z.to_nat (range_length f t step)))) w.
Proof.
  intros Hstep Hlt Hnow.
  destruct (candle_step_bounds _ _ _ _ Hstep) as (Hsecs & Hpos & _).
  unfold _handle_candle_response. rewrite Hstep. cbn [bind].
  assert (Hcheck : (if negb split_request
                    then if true_div_gt (f - t) secs CANDLE_LIMIT || (f - t >? step)
                         then Raise Exception_interval_too_long else Ok tt
                    else Ok tt) = Ok tt).
  { destruct split_request; [reflexivity |]. simpl. unfold true_div_gt, CANDLE_LIMIT.
    destruct (Z.gtb_spec (f - t) (5000 * secs)); [lia |].
    destruct (Z.gtb_spec (f - t) step); [lia | reflexivity]. }
  rewrite Hcheck. cbn [bind].
  destruct (Z.gtb_spec t now_cmp); [lia |].
  unfold py_range. destruct (Z.eqb_spec step 0); [lia |]. cbn [bind].
  rewrite candle_loop_run_requests.
  destruct (run_requests executor _ w) as [[items w'] | e]; reflexivity.
Qed.

(** C1, as the code has it. For each resolution code of the tables, every
    [from < to] with [to] not later than the current time, and every
    executor, the loop splits [from, to) into consecutive windows of width
    [step], the last one clipped to [to]; it calls the executor once per
    window, in ascending order, and concatenates the results. The windows
    leave no gap, do not overlap and stay inside the range. For [H1] on an
    endpoint without the high-cardinality tag and a span of 1728000 seconds
    there are exactly two windows, [from, from+1209600) and
    [from+1209600, to). *)
Theorem candle_loop_partitions (endpoint resolution : string) (f t now_cmp : Z) :
  In (str_upper resolution) table_codes ->
  f < t -> t <= now_cmp ->
  exists (step secs : Z) (ws : list (Z * Z)),
    candle_step endpoint resolution = Ok (step, secs)
    /\ tiles step f t ws
    /\ (forall x, f <= x < t -> exists w, In w ws /\ in_window x w)
    /\ (forall x i j wi wj,
          nth_error ws i = Some wi -> nth_error ws j = Some wj ->
          in_window x wi -> in_window x wj -> i = j)
    /\ (forall w, In w ws ->
          f <= fst w /\ fst w < snd w /\ snd w <= t /\ snd w - fst w <= step)
    /\ (forall (Item World : Type)
               (executor : Z -> Z -> World -> result (list Item * World))
               (split_request : bool) (now_set : Z) (w : World),
          _handle_candle_response executor split_request endpoint resolution
            (Some f) (Some t) now_cmp now_set w
          = run_requests executor ws w)
    /\ (str_upper resolution = "H1" -> ~ high_cardinality endpoint ->
        t - f = 1728000 ->
        step = 1209600 /\ ws = [(f, f + 1209600); (f + 1209600, t)]).
Proof.
  intros Hcode Hlt Hnow.
  destruct (candle_step_defined endpoint resolution Hcode) as (step & secs & Hstep).
  destruct (candle_step_bounds _ _ _ _ Hstep) as (_ & Hpos & _).
  set (ws := map (fun i => (i, Z.min (i + step) t))
                 (range_from f step (Z.to_nat (range_length f t step)))).
  assert (Htiles : tiles step f t ws).
  { apply range_windows_tile; [assumption | assumption |].
    rewrite Z2Nat.id; [reflexivity | now apply range_length_nonneg]. }
  exists step, secs, ws.
  split; [assumption |].
  split; [assumption |].
  split; [now apply (tiles_cover step f t ws) |].
  split; [now apply (tiles_disjoint step f t ws) |].
  split; [now apply (tiles_bounds step f t ws) |].
  split.
  - intros Item World executor split_request now_set w.
    now apply handle_candle_response_runs with (secs := secs).
  - intros Hh1 Hnot Hspan.
    assert (Hs : step = 1209600).
    { pose proof (candle_step_lookup endpoint resolution (60*60 * 24 * 14) (60*60)) as Hl.
      rewrite Hh1 in Hl. specialize (Hl eq_refl (or_intror (conj Hnot eq_refl))).
      rewrite Hstep in Hl. injection Hl as -> _. reflexivity. }
    split; [assumption |]. subst step.
    inversion Htiles as [a b Ha Hb | a b ws' Ha Hrest]; subst; [lia |].
    inversion Hrest as [a b Ha' Hb' | a b ws'' Ha' Hrest']; subst; [reflexivity | lia].
Qed.

Lemma candle_loop_partitions_witness :
  exists (step secs : Z) (ws : list (Z * Z)),
    candle_step "price/candles" "H1" = Ok (step, secs)
    /\ tiles step 1600000000 1601728000 ws
    /\ (forall x, 1600000000 <= x < 1601728000 -> exists w, In w ws /\ in_window x w)
    /\ (forall x i j wi wj,
          nth_error ws i = Some wi -> nth_error ws j = Some wj ->
          in_window x wi -> in_window x wj -> i = j)
    /\ (forall w, In w ws ->
          1600000000 <= fst w /\ fst w < snd w /\ snd w <= 1601728000
          /\ snd w - fst w <= step)
    /\ (forall (Item World : Type)
               (executor : Z -> Z -> World -> result (list Item * World))
               (split_request : bool) (now_set : Z) (w : World),
          _handle_candle_response executor split_request "price/candles" "H1"
            (Some 1600000000) (Some 1601728000) 1700000000 now_set w
          = run_requests executor ws w)
    /\ (str_upper "H1" = "H1" -> ~ high_cardinality "price/candles" ->
        1601728000 - 1600000000 = 1728000 ->
        step = 1209600
        /\ ws = [(1600000000, 1600000000 + 1209600);
                 (1600000000 + 1209600, 1601728000)]).
Proof.
  apply (candle_loop_partitions "price/candles" "H1" 1600000000 1601728000 1700000000).
  - simpl. tauto.
  - lia.
  - lia.
Defined.

(** C1, as the specification words it, fails for a [to] in the future: with
    the clock at 1700000000, [H1] and the span 1728000 from 1699000000, the
    loop issues one request, for [from, now), not two. It also fails for the
    resolution codes [W1] and [MN1], which [_validate_resolution] accepts and
    the tables do not have. *)
Lemma candle_loop_clips_future_to :
  _handle_candle_response recording_executor true "price/candles" "H1"
    (Some 1699000000) (Some (1699000000 + 1728000)) 1700000000 1700000000 []
  = Ok ([(1699000000, 1700000000)], [(1699000000, 1700000000)])
  /\ _handle_candle_response recording_executor true "price/candles" "W1"
       (Some 1600000000) (Some 1601728000) 1700000000 1700000000 []
     = Raise KeyError.
Proof. split; reflexivity. Qed.

(** A sub-request that raises ends the loop with its exception; what the
    earlier sub-requests returned is dropped. *)
Lemma run_requests_abort (Item World : Type)
    (executor : Z -> Z -> World -> result (list Item * World))
    (a b : Z) (e : exn) (rest : list (Z * Z)) :
  forall (front : list (Z * Z)) (w w' : World) (items : list Item),
    run_requests executor front w = Ok (items, w') ->
    executor a b w' = Raise e ->
    run_requests executor (front ++ (a, b) :: rest) w = Raise e.
Proof.
  induction front as [| [x y] front IH]; intros w w' items Hfront Hfail; simpl in *.
  - injection Hfront as _ <-. now rewrite Hfail.
  - destruct (executor x y w) as [[got w1] | e1]; simpl in *; [| discriminate].
    destruct (run_requests executor front w1) as [[more w2] | e2] eqn:Hrun;
      simpl in *; [| discriminate].
    injection Hfront as _ <-.
    now rewrite (IH w1 w2 more Hrun Hfail).
Qed.

(** C2: what the code does with splitting disabled on a range longer than
    the step. [delta] is [from - to], negative for [from < to], so the test
    of line 148 does not fire, and the loop splits the request in two. *)
Theorem split_disabled_long_range_is_split :
  candle_step "price/candles" "H1" = Ok (1209600, 3600)
  /\ 1601728000 - 1600000000 > 1209600
  /\ _handle_candle_response recording_executor false "price/candles" "H1"
       (Some 1600000000) (Some 1601728000) 1700000000 1700000000 []
     = Ok ([(1600000000, 1601209600); (1601209600, 1601728000)],
           [(1600000000, 1601209600); (1601209600, 1601728000)]).
Proof. repeat split. Qed.

(** With splitting disabled the error of line 149 is raised exactly when
    [from] exceeds [to] by more than the step. *)
Lemma split_disabled_raises_iff (Item World : Type)
    (executor : Z -> Z -> World -> result (list Item * World))
    (endpoint resolution : string) (step secs f t now_cmp now_set : Z) (w : World) :
  candle_step endpoint resolution = Ok (step, secs) ->
  (_handle_candle_response executor false endpoint resolution
     (Some f) (Some t) now_cmp now_set w = Raise Exception_interval_too_long
   -> f - t > step \/ exists a b w', executor a b w' = Raise Exception_interval_too_long)
  /\ (f - t > step ->
      _handle_candle_response executor false endpoint resolution
        (Some f) (Some t) now_cmp now_set w = Raise Exception_interval_too_long).
Proof.
  intros Hstep.
  destruct (candle_step_bounds _ _ _ _ Hstep) as (Hsecs & Hpos & Hle).
  unfold _handle_candle_response. rewrite Hstep. cbn [bind negb].
  unfold true_div_gt, CANDLE_LIMIT in *.
  destruct (Z.gtb_spec (f - t) (5000 * secs)); simpl.
  - split; [intros _; left; lia | reflexivity].
  - destruct (Z.gtb_spec (f - t) step); simpl.
    + split; [intros _; left; lia | reflexivity].
    + split; [| lia]. intros Hraise. right.
      unfold py_range in Hraise.
      destruct (Z.eqb_spec step 0); [lia |]. cbn [bind] in Hraise.
      rewrite candle_loop_run_requests in Hraise.
      remember (map _ (range_from _ _ _)) as ws eqn:Hws. clear Hws.
      revert w Hraise. induction ws as [| [a b] ws IH]; intros w Hraise;
        simpl in Hraise; [discriminate |].
      destruct (executor a b w) as [[items w'] | e] eqn:He; simpl in Hraise.
      * destruct (run_requests executor ws w') as [[more w''] | e] eqn:Hr;
          simpl in Hraise; [discriminate |].
        apply (IH w'). rewrite Hr. simpl. exact Hraise.
      * injection Hraise as ->. now exists a, b, w.
Qed.

(** ** Unmarshalling *)

(** One step through the lookups of [hydrate_item] on the class tables. *)
Ltac item_step :=
  cbn [bind negb table_has table_item dict_has_json dict_item_json];
  unfold dict_has, dict_item;
  cbn [bind negb].

Section UnmarshalFacts.
Variable builtin_call : builtin -> json -> result pyval.
Variable name_to_class : list (string * class_desc).

Local Abbreviation hydrate := (_unmarshal_json_object builtin_call name_to_class).

(** [_unmarshal_json_object] on an object is the loop over its items. *)
Lemma unmarshal_json_object_items (c : class_desc) (self : gmap string pyval)
    (items : list (string * json)) :
  hydrate c self (JDict items)
  = setattr_loop (hydrate_item builtin_call name_to_class hydrate c) items self.
Proof. reflexivity. Qed.

Lemma plain_name_eqb (name : string) :
  plain_name name = true ->
  String.eqb name "__class__" = false
  /\ String.eqb name "__dict__" = false
  /\ String.eqb name "__weakref__" = false
  /\ name <> "__setattr__"
  /\ name <> "_api_name_to_python"
  /\ name <> "_attribute_is_primitive"
  /\ name <> "_attributes_to_types".
Proof.
  unfold plain_name, str_in, data_descriptors, reads_through_self.
  cbn [existsb]. intros H. apply negb_true_iff in H.
  repeat (apply orb_false_iff in H; destruct H as [? H]).
  repeat match goal with
         | Hx : _ || _ = false |- _ => apply orb_false_iff in Hx; destruct Hx
         end.
  repeat split; try assumption;
    intros ->; match goal with Hx : String.eqb _ _ = false |- _ =>
                                 now rewrite String.eqb_refl in Hx end.
Qed.

Lemma unshadowed_lookup (self : gmap string pyval) :
  unshadowed self = true ->
  self !! "__setattr__" = None
  /\ self !! "_api_name_to_python" = None
  /\ self !! "_attribute_is_primitive" = None
  /\ self !! "_attributes_to_types" = None.
Proof.
  unfold unshadowed, reads_through_self. cbn [forallb]. intros H.
  repeat (apply andb_true_iff in H; destruct H as [? H]).
  repeat split;
    match goal with
    | |- ?l = None => destruct l; [discriminate | reflexivity]
    end.
Qed.

Lemma unshadowed_intro (self : gmap string pyval) :
  self !! "__setattr__" = None ->
  self !! "_api_name_to_python" = None ->
  self !! "_attribute_is_primitive" = None ->
  self !! "_attributes_to_types" = None ->
  unshadowed self = true.
Proof.
  intros H1 H2 H3 H4. unfold unshadowed, reads_through_self. cbn [forallb].
  now rewrite H1, H2, H3, H4.
Qed.

(** Storing under a plain name leaves the instance unshadowed. *)
Lemma unshadowed_insert (self : gmap string pyval) (name : string) (v : pyval) :
  unshadowed self = true -> plain_name name = true ->
  unshadowed (<[name := v]> self) = true.
Proof.
  intros Hself Hname.
  destruct (unshadowed_lookup self Hself) as (H1 & H2 & H3 & H4).
  destruct (plain_name_eqb name Hname) as (_ & _ & _ & N1 & N2 & N3 & N4).
  apply unshadowed_intro; rewrite lookup_insert_ne by assumption; assumption.
Qed.

(** On an unshadowed instance [__setattr__] with a plain name stores. *)
Lemma py_setattr_plain (self : gmap string pyval) (name : string) (v : pyval) :
  unshadowed self = true -> plain_name name = true ->
  py_setattr self (JStr name) v = Ok (<[name := v]> self).
Proof.
  intros Hself Hname.
  destruct (unshadowed_lookup self Hself) as (H1 & _).
  destruct (plain_name_eqb name Hname) as (E1 & E2 & E3 & _).
  unfold py_setattr. now rewrite H1, E1, E2, E3.
Qed.

(** On an unshadowed instance the tables are those of the class: an item
    gets the name and the value it gets on a new entity. *)
Lemma hydrate_item_unshadowed (c : class_desc) (self : gmap string pyval)
    (key : string) (value : json) :
  unshadowed self = true ->
  hydrate_item builtin_call name_to_class hydrate c self key value
  = hydrate_item builtin_call name_to_class hydrate c ∅ key value.
Proof.
  intros Hself.
  destruct (unshadowed_lookup self Hself) as (_ & H2 & H3 & H4).
  unfold hydrate_item, self_table. rewrite H2, H3, H4, !lookup_empty. reflexivity.
Qed.

(** Whatever value an item gets there, it is stored under
    [attribute_name_of]. *)
Lemma hydrate_item_name (c : class_desc) (key : string) (value : json)
    (attribute_name : json) (v : pyval) :
  hydrate_item builtin_call name_to_class hydrate c ∅ key value = Ok (attribute_name, v) ->
  attribute_name = JStr (attribute_name_of c key).
Proof.
  unfold hydrate_item, self_table, attribute_name_of. rewrite !lookup_empty.
  item_step.
  destruct (dict_get (_api_name_to_python c) key) as [a |]; item_step.
  2: { now intros [= <- _]. }
  destruct (dict_get (_attribute_is_primitive c) a) as [[|] |]; item_step;
    [| | discriminate].
  - destruct (dict_get (_attributes_to_types c) a) as [[b | e | m] |]; item_step;
      try discriminate.
    destruct (builtin_call b value); cbn [bind]; [| discriminate].
    now intros [= <- _].
  - destruct (dict_get (_attributes_to_types c) a) as [[b | e | m] |]; item_step.
    + destruct b; discriminate.
    + destruct (unmarshal_json_with _ _ _ _ _); cbn [bind]; [| discriminate].
      now intros [= <- _].
    + destruct (str_contains "List" (cls_name m)); [discriminate |].
      destruct (Definition_unmarshal_json_with _ _ _ _ _) as [[ret self'] |];
        cbn [bind]; [| discriminate].
      now intros [= <- _].
    + now intros [= <- _].
Qed.

(** The frame of the loop: the attributes named by the keys are set, all
    others keep what they had. *)
Lemma setattr_loop_frame (c : class_desc) (items : list (string * json)) :
  forall self self' : gmap string pyval,
    unshadowed self = true ->
    plain_keys c items = true ->
    setattr_loop (hydrate_item builtin_call name_to_class hydrate c) items self = Ok self' ->
    dom self' = dom self ∪ list_to_set (map (fun kv => attribute_name_of c (fst kv)) items)
    /\ (forall a : string,
          ~ In a (map (fun kv => attribute_name_of c (fst kv)) items) ->
          self' !! a = self !! a)
    /\ unshadowed self' = true.
Proof.
  induction items as [| [key value] items IH]; intros self self' Hself Hkeys Hrun;
    cbn [setattr_loop] in Hrun.
  - injection Hrun as <-. split; [| split; [reflexivity | assumption]].
    simpl. now rewrite (right_id_L ∅ (∪)).
  - cbn [plain_keys forallb fst] in Hkeys. apply andb_true_iff in Hkeys as [Hkey Hkeys].
    rewrite (hydrate_item_unshadowed c self key value Hself) in Hrun.
    destruct (hydrate_item _ _ _ c ∅ key value) as [[n v] |] eqn:Hitem;
      cbn [bind] in Hrun; [| discriminate].
    apply hydrate_item_name in Hitem. subst n.
    rewrite (py_setattr_plain self _ v Hself Hkey) in Hrun. cbn [bind] in Hrun.
    destruct (IH _ _ (unshadowed_insert self _ v Hself Hkey) Hkeys Hrun)
      as (Hdom & Hframe & Hafter).
    split; [| split; [| assumption]].
    + rewrite Hdom, dom_insert_L. simpl.
      now rewrite (comm_L (∪) {[_]} (dom self)), (assoc_L (∪)).
    + intros a Hnot. simpl in Hnot.
      rewrite Hframe by tauto.
      apply lookup_insert_ne. tauto.
Qed.

(** Hydration returns when every item of the payload can be given a value
    and is stored under a plain name. *)
Lemma unmarshal_object_returns (c : class_desc) (items : list (string * json)) :
  Forall (fun kv => exists r,
            hydrate_item builtin_call name_to_class hydrate c ∅ (fst kv) (snd kv) = Ok r)
         items ->
  plain_keys c items = true ->
  forall self, unshadowed self = true ->
               exists self', hydrate c self (JDict items) = Ok self'.
Proof.
  intros Hall Hkeys self Hself. rewrite unmarshal_json_object_items.
  revert Hkeys self Hself.
  induction Hall as [| [key value] items [[n v] Hitem] _ IH];
    intros Hkeys self Hself; cbn [setattr_loop].
  - now exists self.
  - cbn [plain_keys forallb fst] in Hkeys. apply andb_true_iff in Hkeys as [Hkey Hkeys].
    cbn [fst snd] in Hitem.
    rewrite (hydrate_item_unshadowed c self key value Hself), Hitem. cbn [bind].
    pose proof (hydrate_item_name _ _ _ _ _ Hitem) as ->.
    rewrite (py_setattr_plain self _ v Hself Hkey). cbn [bind].
    apply (IH Hkeys). now apply unshadowed_insert.
Qed.

(** A key outside the field table always has a value: the raw one. *)
Lemma hydrate_item_unknown_key (c : class_desc) (key : string) (value : json) :
  dict_get (_api_name_to_python c) key = None ->
  hydrate_item builtin_call name_to_class hydrate c ∅ key value
  = Ok (JStr (String.append key (if iskeyword key then "_" else "")), VRaw value).
Proof.
  intros H. unfold hydrate_item, self_table. rewrite lookup_empty.
  item_step. now rewrite H.
Qed.

(** C10, for a payload whose keys name plain attributes. Hydrating an object
    on an unshadowed instance sets exactly the attributes its keys name (the
    field-table entry of the key, or the key itself, with an underscore
    appended when it is a keyword): afterwards the attributes are those held
    before together with the named ones, and every other attribute, a
    declared field that the payload lacks included, is as it was, which for a
    new entity means unset. *)
Theorem unmarshal_object_frame (c : class_desc) (self self' : gmap string pyval)
    (items : list (string * json)) :
  unshadowed self = true ->
  plain_keys c items = true ->
  hydrate c self (JDict items) = Ok self' ->
  dom self' = dom self ∪ list_to_set (map (fun kv => attribute_name_of c (fst kv)) items)
  /\ (forall a : string,
        ~ In a (map (fun kv => attribute_name_of c (fst kv)) items) ->
        self' !! a = self !! a)
  /\ (self = ∅ ->
      forall api_name a : string,
        dict_get (_api_name_to_python c) api_name = Some a ->
        ~ In a (map (fun kv => attribute_name_of c (fst kv)) items) ->
        self' !! a = None).
Proof.
  rewrite unmarshal_json_object_items. intros Hself Hkeys Hrun.
  destruct (setattr_loop_frame c items self self' Hself Hkeys Hrun) as (Hdom & Hframe & _).
  split; [assumption |]. split; [assumption |].
  intros -> api_name a _ Hnot. rewrite Hframe by assumption. apply lookup_empty.
Qed.

(** The list method hydrates the elements one by one, in order, as the
    class registered under [known_type]. *)
Lemma unmarshal_json_list_elements (known_type : string) (c : class_desc)
    (l : list json) :
  dict_get name_to_class known_type = Some c ->
  forall objs : list pyval,
    _unmarshal_json_list builtin_call name_to_class l known_type = Ok objs
    <-> Forall2 (fun item obj =>
                   exists attrs, hydrate c ∅ item = Ok attrs
                                 /\ obj = VObj (cls_name c) attrs) l objs.
Proof.
  intros Hreg. unfold _unmarshal_json_list.
  induction l as [| item l IH]; intros objs; cbn [unmarshal_json_list_with].
  - split.
    + intros [= <-]. constructor.
    + intros H. inversion H. reflexivity.
  - unfold dict_item. rewrite Hreg. cbn [bind].
    destruct (hydrate c ∅ item) as [attrs | e] eqn:Hitem; cbn [bind].
    + destruct (unmarshal_json_list_with _ _ _ l) as [rest | e] eqn:Hrest; cbn [bind].
      * split.
        -- intros [= <-]. constructor; [now exists attrs | now apply IH].
        -- intros H. inversion H as [| ? obj ? objs' (attrs' & Hh & ->) Htl]; subst.
           apply IH in Htl. congruence.
      * split; [discriminate |].
        intros H. inversion H as [| ? obj ? objs' _ Htl]; subst.
        apply IH in Htl. discriminate.
    + split; [discriminate |].
      intros H. inversion H as [| ? obj ? objs' (attrs' & Hh & _) _]; subst. congruence.
Qed.


(** C4: what the code does. For a registered entity type and a payload that
    is a bare number, [Definition.unmarshal_json] returns the number, but
    the entry point drops what the method returns and hands back the entity
    it created, which has no attribute. *)
Theorem unmarshal_json_number (T : string) (c : class_desc) (payload : json) :
  dict_get name_to_class T = Some c ->
  dict_has scalar_name_to_class T = false ->
  str_contains "Dict[" T = false ->
  (exists n, payload = JInt n) \/ (exists bits, payload = JFloat bits) ->
  Definition_unmarshal_json builtin_call name_to_class c ∅ payload = Ok (VRaw payload, ∅)
  /\ unmarshal_json builtin_call name_to_class T payload = Ok (VObj (cls_name c) ∅).
Proof.
  intros Hreg Hscalar Hdict Hnum.
  unfold unmarshal_json, Definition_unmarshal_json.
  destruct Hnum as [[n ->] | [bits ->]]; cbn [unmarshal_json_with];
    rewrite Hscalar, Hdict; unfold dict_item; rewrite Hreg; split; reflexivity.
Qed.
End UnmarshalFacts.

(** ** Unmarshalling: examples on the classes of [definitions.py] *)

Lemma unmarshal_object_frame_witness :
  dom balance_hydrated
  = dom (∅ : gmap string pyval)
    ∪ list_to_set (map (fun kv => attribute_name_of Balance (fst kv)) balance_payload)
  /\ (forall a : string,
        ~ In a (map (fun kv => attribute_name_of Balance (fst kv)) balance_payload) ->
        balance_hydrated !! a = (∅ : gmap string pyval) !! a)
  /\ ((∅ : gmap string pyval) = ∅ ->
      forall api_name a : string,
        dict_get (_api_name_to_python Balance) api_name = Some a ->
        ~ In a (map (fun kv => attribute_name_of Balance (fst kv)) balance_payload) ->
        balance_hydrated !! a = None).
Proof.
  apply (unmarshal_object_frame builtin_call_same_type name_to_class_excerpt
           Balance ∅ balance_hydrated balance_payload).
  - vm_compute. reflexivity.
  - vm_compute. reflexivity.
  - vm_compute. reflexivity.
Defined.

(** C10, as it is worded for every payload, fails on a key [__dict__]: its
    value, a decoded object, becomes the attribute bag of the entity. After
    hydrating a [PoolBalance] from the keys [apy] and [__dict__] the entity
    has the attribute [x], which no key names, and has neither [apy] nor
    [__dict__], which the keys name. *)
Lemma dict_key_replaces_attributes :
  _unmarshal_json_object builtin_call_same_type name_to_class_excerpt PoolBalance ∅
    (JDict [("apy", JInt 7); ("__dict__", JDict [("x", JInt 2)])])
  = Ok (<["x" := VRaw (JInt 2)]> ∅)
  /\ (<["x" := VRaw (JInt 2)]> ∅ : gmap string pyval) !! "x" = Some (VRaw (JInt 2))
  /\ (<["x" := VRaw (JInt 2)]> ∅ : gmap string pyval) !! "apy" = None
  /\ map (fun kv => attribute_name_of PoolBalance (fst kv))
         [("apy", JInt 7); ("__dict__", JDict [("x", JInt 2)])]
     = ["apy"; "__dict__"].
Proof. repeat split; vm_compute; reflexivity. Qed.



Lemma unmarshal_json_number_witness :
  Definition_unmarshal_json builtin_call_same_type name_to_class_excerpt
    PoolBalance ∅ (JInt 3) = Ok (VRaw (JInt 3), ∅)
  /\ unmarshal_json builtin_call_same_type name_to_class_excerpt
       "PoolBalance" (JInt 3) = Ok (VObj (cls_name PoolBalance) ∅).
Proof.
  apply (unmarshal_json_number builtin_call_same_type name_to_class_excerpt
           "PoolBalance" PoolBalance (JInt 3)); try reflexivity.
  left. now exists 3.
Defined.

(** The branch of [Definition.unmarshal_json] for a first field without a
    declared type, on such a class. *)
Example untyped_first_field_gets_raw_array :
  Definition_unmarshal_json builtin_call_same_type name_to_class_excerpt
    UntypedRows ∅ (JList [JInt 1; JInt 2])
  = Ok (VObj "UntypedRows" (<["rows" := VRaw (JList [JInt 1; JInt 2])]> ∅),
        <["rows" := VRaw (JList [JInt 1; JInt 2])]> ∅).
Proof. reflexivity. Qed.

(* ================================================================== *)
(** * Part III. Further properties of the embedded code *)
(* ================================================================== *)

(** ** Splitting strings *)

Lemma append_assoc (a b c : string) :
  String.append (String.append a b) c = String.append a (String.append b c).
Proof. induction a as [| x a IH]; [reflexivity |]. rewrite !append_cons. now rewrite IH. Qed.

Lemma append_empty_r (a : string) : String.append a EmptyString = a.
Proof. induction a as [| x a IH]; [reflexivity |]. rewrite append_cons. now rewrite IH. Qed.

Lemma contains_char_cons (c d : ascii) (rest : string) :
  str_contains (String c EmptyString) (String d rest)
  = if ascii_dec c d then true else str_contains (String c EmptyString) rest.
Proof.
  cbn [str_contains String.prefix].
  destruct (ascii_dec c d); [now destruct rest | reflexivity].
Qed.

Lemma prefix_other_head (c d : ascii) (sep' rest : string) :
  c <> d -> String.prefix (String c sep') (String d rest) = false.
Proof. intros Hne. cbn [String.prefix]. now destruct (ascii_dec c d). Qed.

(** A string without the first character of the separator is one piece. *)
Lemma split_go_no_sep (c : ascii) (sep' : string) (s : string) :
  str_contains (String c EmptyString) s = false ->
  forall cur, split_go (String c sep') O cur s = [String.append cur s].
Proof.
  induction s as [| d s IH]; intros Hno cur.
  - cbn. now rewrite append_empty_r.
  - rewrite contains_char_cons in Hno.
    destruct (ascii_dec c d) as [| Hne]; [discriminate |].
    cbn [split_go]. rewrite (prefix_other_head c d sep' s Hne).
    rewrite (IH Hno). now rewrite append_assoc.
Qed.

Lemma split_go_skip (sep sep' rest cur : string) :
  split_go sep (String.length sep') cur (String.append sep' rest)
  = split_go sep O cur rest.
Proof.
  induction sep' as [| d sep' IH]; [reflexivity |].
  rewrite append_cons. cbn [String.length split_go]. exact IH.
Qed.

(** The first piece ends at the first separator. *)
Lemma split_go_first (c : ascii) (sep' rest : string) (a : string) :
  str_contains (String c EmptyString) a = false ->
  forall cur,
    split_go (String c sep') O cur
      (String.append a (String.append (String c sep') rest))
    = String.append cur a :: split_go (String c sep') O EmptyString rest.
Proof.
  induction a as [| d a IH]; intros Hno cur.
  - change (String.append EmptyString (String.append (String c sep') rest))
      with (String c (String.append sep' rest)).
    cbn [split_go].
    assert (Hp : String.prefix (String c sep') (String c (String.append sep' rest)) = true).
    { apply prefix_append. now exists rest. }
    rewrite Hp. rewrite append_empty_r. f_equal.
    replace (String.length (String c sep') - 1)%nat with (String.length sep')
      by (cbn [String.length]; lia).
    apply split_go_skip.
  - rewrite contains_char_cons in Hno.
    destruct (ascii_dec c d) as [| Hne]; [discriminate |].
    rewrite append_cons. cbn [split_go].
    rewrite (prefix_other_head c d sep' _ Hne).
    rewrite (IH Hno). now rewrite append_assoc.
Qed.

Lemma split_go_nonempty (sep : string) (s : string) :
  forall skip cur, exists x xs, split_go sep skip cur s = x :: xs.
Proof.
  induction s as [| d s IH]; intros skip cur; cbn [split_go].
  - now exists cur, [].
  - destruct skip as [| n]; [| apply IH].
    destruct (String.prefix sep (String d s)); [| apply IH].
    now exists cur, (split_go sep (String.length sep - 1) EmptyString s).
Qed.

Lemma first_occurrence (c : ascii) (s : string) :
  str_contains (String c EmptyString) s = true ->
  exists a rest,
    s = String.append a (String.append (String c EmptyString) rest)
    /\ str_contains (String c EmptyString) a = false.
Proof.
  induction s as [| d s IH]; intros H.
  - cbn in H. discriminate.
  - rewrite contains_char_cons in H. destruct (ascii_dec c d) as [<- | Hne].
    + now exists EmptyString, s.
    + destruct (IH H) as (a & rest & -> & Ha).
      exists (String d a), rest. split; [reflexivity |].
      rewrite contains_char_cons. now destruct (ascii_dec c d).
Qed.

(** A string with the separator character in it has at least two pieces. *)
Lemma split_char_two_pieces (c : ascii) (s : string) :
  str_contains (String c EmptyString) s = true ->
  exists a b rest, str_split (String c EmptyString) s = a :: b :: rest.
Proof.
  intros H. destruct (first_occurrence c s H) as (a & rest & -> & Ha).
  unfold str_split. rewrite (split_go_first c EmptyString rest a Ha).
  destruct (split_go_nonempty (String c EmptyString) rest O EmptyString) as (x & xs & ->).
  now exists a, x, xs.
Qed.

Lemma str_drop_last_append (t : string) (c : ascii) :
  str_drop_last (String.append t (String c EmptyString)) = t.
Proof.
  induction t as [| d t IH]; [reflexivity |].
  rewrite append_cons. cbn [str_drop_last]. rewrite IH.
  now destruct t.
Qed.

Lemma str_join_cons (sep a b : string) (l : list string) :
  str_join sep (a :: b :: l)
  = String.append a (String.append sep (str_join sep (b :: l))).
Proof. reflexivity. Qed.

(** Splitting at one character and joining with it gives the string back. *)
Lemma split_char_join (c : ascii) (s : string) :
  forall cur,
    str_join (String c EmptyString) (split_go (String c EmptyString) O cur s)
    = String.append cur s.
Proof.
  induction s as [| d s IH]; intros cur.
  - cbn. now rewrite append_empty_r.
  - cbn [split_go String.prefix].
    destruct (ascii_dec c d) as [<- | Hne].
    + assert (Hp : String.prefix EmptyString s = true) by now destruct s.
      rewrite Hp. cbn [String.length Nat.sub].
      destruct (split_go_nonempty (String c EmptyString) s O EmptyString)
        as (x & xs & Hsplit).
      pose proof (IH EmptyString) as Hjoin. rewrite Hsplit in *.
      rewrite str_join_cons, Hjoin. reflexivity.
    + rewrite IH. now rewrite append_assoc.
Qed.

Lemma contains_char_append (c : ascii) (a b : string) :
  str_contains (String c EmptyString) (String.append a b)
  = str_contains (String c EmptyString) a || str_contains (String c EmptyString) b.
Proof.
  induction a as [| d a IH].
  - change (String.append EmptyString b) with b.
    assert (H : str_contains (String c EmptyString) EmptyString = false) by reflexivity.
    now rewrite H.
  - rewrite append_cons, !contains_char_cons.
    destruct (ascii_dec c d); [reflexivity | exact IH].
Qed.

(** ["List[T]".split("[")[1][:-1]] is [T] when [T] has no bracket. *)
Lemma list_type_element (T : string) :
  str_contains "[" T = false ->
  str_split "[" (String.append "List[" (String.append T "]")) = ["List"; String.append T "]"]
  /\ str_drop_last (String.append T "]") = T.
Proof.
  intros Hno. split; [| apply str_drop_last_append].
  unfold str_split.
  change (String.append "List[" (String.append T "]"))
    with (String.append "List" (String.append "[" (String.append T "]"))).
  rewrite (split_go_first "[" EmptyString (String.append T "]") "List" eq_refl).
  rewrite split_go_no_sep; [reflexivity |].
  rewrite contains_char_append, Hno. reflexivity.
Qed.

(** ["Dict[str, T]".split(", ")[1][:-1]] is [T] when [T] has no comma. *)
Lemma dict_type_value (T : string) :
  str_contains "," T = false ->
  str_split ", " (String.append "Dict[str, " (String.append T "]"))
  = ["Dict[str"; String.append T "]"].
Proof.
  intros Hno. unfold str_split.
  change (String.append "Dict[str, " (String.append T "]"))
    with (String.append "Dict[str" (String.append ", " (String.append T "]"))).
  rewrite (split_go_first "," " " (String.append T "]") "Dict[str" eq_refl).
  rewrite split_go_no_sep; [reflexivity |].
  rewrite contains_char_append, Hno. reflexivity.
Qed.

(** ** Unmarshalling by response type *)

Section UnmarshalByType.
Variable builtin_call : builtin -> json -> result pyval.
Variable name_to_class : list (string * class_desc).

Local Abbreviation hydrate := (_unmarshal_json_object builtin_call name_to_class).
Local Abbreviation decode := (unmarshal_json builtin_call name_to_class).

(** Requested as [List[T]], an array goes to the list method with [T]. *)
Lemma unmarshal_json_list_type_eq (T : string) (l : list json) :
  str_contains "[" T = false ->
  decode (String.append "List[" (String.append T "]")) (JList l)
  = let* items := _unmarshal_json_list builtin_call name_to_class l T in
    Ok (VList items).
Proof.
  intros Hno. destruct (list_type_element T Hno) as [Hsplit Hdrop].
  unfold unmarshal_json, _unmarshal_json_list. cbn [unmarshal_json_with].
  assert (Hscalar : dict_has scalar_name_to_class
                      (String.append "List[" (String.append T "]")) = false)
    by reflexivity.
  assert (Hlist : str_contains "List[" (String.append "List[" (String.append T "]")) = true).
  { apply str_contains_spec. now exists EmptyString, (String.append T "]"). }
  rewrite Hscalar, Hlist, Hsplit. cbn [py_index nth_error bind]. now rewrite Hdrop.
Qed.

Lemma list_type_elements (T : string) (c : class_desc) (l : list json) :
  dict_get name_to_class T = Some c ->
  str_contains "[" T = false ->
  forall v : pyval,
    decode (String.append "List[" (String.append T "]")) (JList l) = Ok v
    <-> exists objs, v = VList objs
        /\ Forall2 (fun item obj =>
                      exists attrs, hydrate c ∅ item = Ok attrs
                                    /\ obj = VObj (cls_name c) attrs) l objs.
Proof.
  intros Hreg Hno v. rewrite (unmarshal_json_list_type_eq T l Hno).
  pose proof (unmarshal_json_list_elements builtin_call name_to_class T c l Hreg) as Hel.
  destruct (_unmarshal_json_list builtin_call name_to_class l T) as [objs | e]; cbn [bind].
  - split.
    + intros [= <-]. exists objs. split; [reflexivity | now apply Hel].
    + intros (objs' & -> & Hall). apply Hel in Hall. congruence.
  - split; [discriminate |].
    intros (objs' & -> & Hall). apply Hel in Hall. discriminate.
Qed.

(** Requested as [List[T]] with a registered [T], an array is hydrated
    element by element as [T], in order; the result is [Ok] exactly when
    every element hydrates. *)
Theorem unmarshal_json_list_type (T : string) (c : class_desc) (l : list json) :
  dict_get name_to_class T = Some c ->
  str_contains "[" T = false ->
  forall v : pyval,
    decode (String.append "List[" (String.append T "]")) (JList l) = Ok v
    <-> exists objs, v = VList objs
        /\ Forall2 (fun item obj =>
                      exists attrs, hydrate c ∅ item = Ok attrs
                                    /\ obj = VObj (cls_name c) attrs) l objs.
Proof. apply list_type_elements. Qed.

Lemma list_bracket_in (rt : string) :
  str_contains "List[" rt = true -> str_contains "[" rt = true.
Proof.
  intros H. apply str_contains_spec in H. destruct H as (pre & post & ->).
  rewrite contains_char_append. apply orb_true_iff. right.
  rewrite contains_char_append. reflexivity.
Qed.

(** An empty array decodes to an empty list for every response type that
    is not a scalar name, registered or not. *)
Theorem unmarshal_json_empty_array (response_type : string) :
  dict_has scalar_name_to_class response_type = false ->
  decode response_type (JList []) = Ok (VList []).
Proof.
  intros Hscalar. unfold unmarshal_json. cbn [unmarshal_json_with].
  rewrite Hscalar.
  destruct (str_contains "List[" response_type) eqn:Hlist; [| reflexivity].
  destruct (split_char_two_pieces "[" response_type (list_bracket_in _ Hlist))
    as (a & b & rest & Hsplit).
  rewrite Hsplit. reflexivity.
Qed.

Lemma hydrate_needs_object (c : class_desc) (self attrs : gmap string pyval) (j : json) :
  hydrate c self j = Ok attrs -> exists items, j = JDict items.
Proof. destruct j; try discriminate. intros _. now eexists. Qed.

Lemma unmarshal_json_list_objects (T : string) (l : list json) (objs : list pyval) :
  _unmarshal_json_list builtin_call name_to_class l T = Ok objs ->
  Forall (fun j => exists items, j = JDict items) l.
Proof.
  unfold _unmarshal_json_list. revert objs.
  induction l as [| item l IH]; intros objs H; [constructor |].
  cbn [unmarshal_json_list_with] in H.
  destruct (dict_item name_to_class T) as [c | e]; cbn [bind] in H; [| discriminate].
  destruct (hydrate c ∅ item) as [attrs | e] eqn:Hitem; cbn [bind] in H; [| discriminate].
  destruct (unmarshal_json_list_with _ _ T l) as [rest | e] eqn:Hrest;
    cbn [bind] in H; [| discriminate].
  constructor; [now apply hydrate_needs_object in Hitem | now apply (IH rest)].
Qed.

(** Array elements must be JSON objects: a result means every element was
    one; a first element that is not raises [AttributeError] (it has no
    [items]), and a type name that is not registered raises [KeyError] as
    soon as there is an element to hydrate. *)
Theorem unmarshal_json_list_needs_objects (T : string) (l : list json) :
  str_contains "[" T = false ->
  (forall v, decode (String.append "List[" (String.append T "]")) (JList l) = Ok v ->
             Forall (fun j => exists items, j = JDict items) l)
  /\ (forall c x rest,
        dict_get name_to_class T = Some c -> l = x :: rest ->
        (forall items, x <> JDict items) ->
        decode (String.append "List[" (String.append T "]")) (JList l)
        = Raise AttributeError)
  /\ (forall x rest,
        dict_get name_to_class T = None -> l = x :: rest ->
        decode (String.append "List[" (String.append T "]")) (JList l)
        = Raise KeyError).
Proof.
  intros Hno. rewrite (unmarshal_json_list_type_eq T l Hno). repeat split.
  - intros v H.
    destruct (_unmarshal_json_list builtin_call name_to_class l T) as [objs |] eqn:Hl;
      cbn [bind] in H; [| discriminate].
    now apply (unmarshal_json_list_objects T l objs).
  - intros c x rest Hreg -> Hx. unfold _unmarshal_json_list.
    cbn [unmarshal_json_list_with]. unfold dict_item. rewrite Hreg. cbn [bind].
    destruct x; try reflexivity. now destruct (Hx items).
  - intros x rest Hreg ->. unfold _unmarshal_json_list.
    cbn [unmarshal_json_list_with]. unfold dict_item. now rewrite Hreg.
Qed.

(** A null, boolean or string payload requested as a registered entity type
    is not rejected: the entry point returns an entity without attributes. *)
Theorem unmarshal_json_scalar_payload (T : string) (c : class_desc) (payload : json) :
  dict_get name_to_class T = Some c ->
  dict_has scalar_name_to_class T = false ->
  str_contains "Dict[" T = false ->
  payload = JNull \/ (exists b, payload = JBool b) \/ (exists s, payload = JStr s) ->
  decode T payload = Ok (VObj (cls_name c) ∅).
Proof.
  intros Hreg Hscalar Hdict Hshape. unfold unmarshal_json.
  destruct Hshape as [-> | [[b ->] | [s ->]]]; cbn [unmarshal_json_with];
    rewrite Hscalar, Hdict; unfold dict_item; rewrite Hreg; reflexivity.
Qed.
End UnmarshalByType.

(** ** Dictionaries and objects *)

Lemma comprehension_frame (f : json -> result pyval) (items : list (string * json)) :
  forall acc m : gmap string pyval,
    comprehension_of f items acc = Ok m ->
    dom m = dom acc ∪ list_to_set (map fst items)
    /\ (forall k, ~ In k (map fst items) -> m !! k = acc !! k)
    /\ (NoDup (map fst items) ->
        forall k j, In (k, j) items -> exists x, f j = Ok x /\ m !! k = Some x).
Proof.
  induction items as [| [k j] items IH]; intros acc m Hrun; cbn [comprehension_of] in Hrun.
  - injection Hrun as <-. repeat split.
    + simpl. now rewrite (right_id_L ∅ (∪)).
    + intros _ k j [].
  - destruct (f j) as [x |] eqn:Hj; cbn [bind] in Hrun; [| discriminate].
    destruct (IH _ _ Hrun) as (Hdom & Hframe & Hread). repeat split.
    + rewrite Hdom, dom_insert_L. simpl.
      now rewrite (comm_L (∪) {[_]} (dom acc)), (assoc_L (∪)).
    + intros k' Hnot. simpl in Hnot. rewrite Hframe by tauto.
      apply lookup_insert_ne. tauto.
    + intros Hnodup k' j' [[= <- <-] | Hin].
      * exists x. split; [assumption |].
        apply NoDup_cons in Hnodup as [Hfresh _].
        rewrite Hframe by (intros Hin; apply Hfresh; now apply list_elem_of_In).
        apply lookup_insert_eq.
      * apply NoDup_cons in Hnodup as [_ Hnodup]. now apply Hread.
Qed.

Lemma comprehension_returns (f : json -> result pyval) (items : list (string * json)) :
  Forall (fun kv => exists x, f (snd kv) = Ok x) items ->
  forall acc, exists m, comprehension_of f items acc = Ok m.
Proof.
  intros Hall. induction Hall as [| [k j] items [x Hx] _ IH]; intros acc.
  - now exists acc.
  - cbn [comprehension_of]. simpl in Hx. rewrite Hx. cbn [bind]. apply IH.
Qed.

Section UnmarshalObjects.
Variable builtin_call : builtin -> json -> result pyval.
Variable name_to_class : list (string * class_desc).

Local Abbreviation hydrate := (_unmarshal_json_object builtin_call name_to_class).
Local Abbreviation decode := (unmarshal_json builtin_call name_to_class).
Local Abbreviation item_of := (hydrate_item builtin_call name_to_class hydrate).

Lemma unmarshal_json_dict_type_eq (T : string) (items : list (string * json)) :
  str_contains "," T = false ->
  decode (String.append "Dict[str, " (String.append T "]")) (JDict items)
  = let* m := comprehension_of (decode T) items ∅ in Ok (VDict m).
Proof.
  intros Hno. unfold unmarshal_json. cbn [unmarshal_json_with].
  assert (Hscalar : dict_has scalar_name_to_class
                      (String.append "Dict[str, " (String.append T "]")) = false)
    by reflexivity.
  assert (Hdict : str_contains "Dict["
                    (String.append "Dict[str, " (String.append T "]")) = true).
  { apply str_contains_spec.
    now exists EmptyString, (String.append "str, " (String.append T "]")). }
  rewrite Hscalar, Hdict, (dict_type_value T Hno).
  cbn [py_index nth_error bind]. rewrite str_drop_last_append. reflexivity.
Qed.

(** Requested as [Dict[str, T]], an object decodes to a dict with the same
    keys, each value decoded as [T]; it decodes whenever every value does. *)
Theorem unmarshal_json_dict_type (T : string) (items : list (string * json)) :
  str_contains "," T = false ->
  (forall v,
     decode (String.append "Dict[str, " (String.append T "]")) (JDict items) = Ok v ->
     exists m, v = VDict m
       /\ dom m = list_to_set (map fst items)
       /\ (NoDup (map fst items) ->
           forall k j, In (k, j) items ->
                       exists x, decode T j = Ok x /\ m !! k = Some x))
  /\ (Forall (fun kv => exists x, decode T (snd kv) = Ok x) items ->
      exists v,
        decode (String.append "Dict[str, " (String.append T "]")) (JDict items) = Ok v).
Proof.
  intros Hno. rewrite (unmarshal_json_dict_type_eq T items Hno). split.
  - intros v H.
    destruct (comprehension_of (decode T) items ∅) as [m |] eqn:Hm;
      cbn [bind] in H; [| discriminate].
    injection H as <-. exists m. split; [reflexivity |].
    destruct (comprehension_frame _ _ _ _ Hm) as (Hdom & _ & Hread).
    split; [| exact Hread].
    rewrite Hdom, dom_empty_L. now rewrite (left_id_L ∅ (∪)).
  - intros Hall. destruct (comprehension_returns _ _ Hall ∅) as [m Hm].
    rewrite Hm. now eexists.
Qed.

Lemma setattr_loop_app
    (f : gmap string pyval -> string -> json -> result (json * pyval))
    (front rest : list (string * json)) :
  forall self,
    setattr_loop f (front ++ rest) self
    = let* mid := setattr_loop f front self in setattr_loop f rest mid.
Proof.
  induction front as [| [k v] front IH]; intros self; [reflexivity |].
  cbn [app setattr_loop].
  destruct (f self k v) as [[n x] | e]; cbn [bind]; [| reflexivity].
  destruct (py_setattr self n x) as [self1 | e]; cbn [bind]; [apply IH | reflexivity].
Qed.

Lemma object_read_back (c : class_desc) (items : list (string * json)) :
  forall self self' : gmap string pyval,
    unshadowed self = true ->
    plain_keys c items = true ->
    hydrate c self (JDict items) = Ok self' ->
    NoDup (map (fun kv => attribute_name_of c (fst kv)) items) ->
    forall key value,
      In (key, value) items ->
      exists x, item_of c ∅ key value = Ok (JStr (attribute_name_of c key), x)
                /\ self' !! attribute_name_of c key = Some x.
Proof.
  induction items as [| [k v] items IH];
    intros self self' Hself Hkeys Hrun Hnodup key value Hin; [destruct Hin |].
  rewrite unmarshal_json_object_items in Hrun. cbn [setattr_loop] in Hrun.
  cbn [plain_keys forallb fst] in Hkeys. apply andb_true_iff in Hkeys as [Hkey Hkeys].
  rewrite (hydrate_item_unshadowed _ _ c self k v Hself) in Hrun.
  destruct (item_of c ∅ k v) as [[n x] |] eqn:Hitem; cbn [bind] in Hrun; [| discriminate].
  pose proof (hydrate_item_name _ _ _ _ _ _ _ Hitem) as ->.
  rewrite (py_setattr_plain self _ x Hself Hkey) in Hrun. cbn [bind] in Hrun.
  pose proof (unshadowed_insert self _ x Hself Hkey) as Hnext.
  cbn [map fst] in Hnodup. apply NoDup_cons in Hnodup as [Hfresh Hnodup].
  destruct Hin as [[= <- <-] | Hin].
  - exists x. split; [assumption |].
    destruct (setattr_loop_frame _ _ c items _ _ Hnext Hkeys Hrun) as (_ & Hframe & _).
    rewrite Hframe by (intros Hin; apply Hfresh; now apply list_elem_of_In).
    apply lookup_insert_eq.
  - now apply (IH (<[attribute_name_of c k := x]> self) self').
Qed.

(** Every item of the payload can be read back: when the keys name plain
    attributes, no two of them the same, the attribute of each key holds the
    value computed for that key. *)
Theorem unmarshal_object_read_back (c : class_desc) (items : list (string * json))
    (self self' : gmap string pyval) (key : string) (value : json) :
  unshadowed self = true ->
  plain_keys c items = true ->
  hydrate c self (JDict items) = Ok self' ->
  NoDup (map (fun kv => attribute_name_of c (fst kv)) items) ->
  In (key, value) items ->
  exists x, item_of c ∅ key value = Ok (JStr (attribute_name_of c key), x)
            /\ self' !! attribute_name_of c key = Some x.
Proof.
  intros Hself Hkeys Hrun Hnodup Hin.
  now apply (object_read_back c items self self').
Qed.

(** Keys that the field table does not declare and that name plain
    attributes are never rejected and need no constructor: hydration
    returns, and each such key holds the decoded value as it was, under the
    key itself or, for a Python keyword, under the key with an underscore
    appended. *)
Theorem unmarshal_object_unknown_keys (c : class_desc) (items : list (string * json))
    (self : gmap string pyval) :
  unshadowed self = true ->
  (forall key value,
     In (key, value) items ->
     dict_get (_api_name_to_python c) key = None
     /\ plain_name (String.append key (if iskeyword key then "_" else "")) = true) ->
  exists self',
    hydrate c self (JDict items) = Ok self'
    /\ (NoDup (map (fun kv => attribute_name_of c (fst kv)) items) ->
        forall key value,
          In (key, value) items ->
          self' !! String.append key (if iskeyword key then "_" else "")
          = Some (VRaw value)).
Proof.
  intros Hself Hunknown.
  assert (Hname : forall key value, In (key, value) items ->
                    attribute_name_of c key
                    = String.append key (if iskeyword key then "_" else "")).
  { intros key value Hin. unfold attribute_name_of.
    now rewrite (proj1 (Hunknown _ _ Hin)). }
  assert (Hall : Forall (fun kv => exists r, item_of c ∅ (fst kv) (snd kv) = Ok r) items).
  { apply List.Forall_forall. intros [key value] Hin.
    rewrite (hydrate_item_unknown_key _ _ c key value (proj1 (Hunknown _ _ Hin))).
    now eexists. }
  assert (Hkeys : plain_keys c items = true).
  { apply forallb_forall. intros [key value] Hin. cbn [fst].
    rewrite (Hname _ _ Hin). apply (Hunknown _ _ Hin). }
  destruct (unmarshal_object_returns _ _ c items Hall Hkeys self Hself) as [self' Hrun].
  exists self'. split; [assumption |].
  intros Hnodup key value Hin.
  destruct (object_read_back c items self self' Hself Hkeys Hrun Hnodup key value Hin)
    as (x & Hitem & Hlook).
  rewrite (hydrate_item_unknown_key _ _ c key value (proj1 (Hunknown _ _ Hin))) in Hitem.
  injection Hitem as Hn <-.
  now rewrite <- (Hname _ _ Hin).
Qed.

(** The first item that fails, when its value is computed on the entity as
    the items before it left it or when that value is stored, ends the
    hydration with its exception: the entry point returns no partly filled
    entity. *)
Theorem unmarshal_object_aborts (T : string) (c : class_desc)
    (front rest : list (string * json)) (key : string) (value : json) (e : exn)
    (mid : gmap string pyval) :
  dict_get name_to_class T = Some c ->
  dict_has scalar_name_to_class T = false ->
  str_contains "Dict[" T = false ->
  e <> NotEmbedded ->
  hydrate c ∅ (JDict front) = Ok mid ->
  (item_of c mid key value = Raise e
   \/ exists name x, item_of c mid key value = Ok (name, x)
                     /\ py_setattr mid name x = Raise e) ->
  hydrate c ∅ (JDict (front ++ (key, value) :: rest)) = Raise e
  /\ decode T (JDict (front ++ (key, value) :: rest)) = Raise e.
Proof.
  intros Hreg Hscalar Hdict _ Hfront Hitem.
  assert (Hobj : hydrate c ∅ (JDict (front ++ (key, value) :: rest)) = Raise e).
  { rewrite unmarshal_json_object_items in *. rewrite setattr_loop_app, Hfront.
    cbn [bind setattr_loop].
    destruct Hitem as [Hitem | (name & x & Hitem & Hset)]; rewrite Hitem; cbn [bind];
      [reflexivity | now rewrite Hset]. }
  split; [assumption |].
  unfold unmarshal_json. cbn [unmarshal_json_with].
  rewrite Hscalar, Hdict. unfold dict_item. rewrite Hreg. cbn [bind].
  unfold Definition_unmarshal_json_with. now rewrite Hobj.
Qed.

(** A field declared as a list of entities, under a plain name: the array
    under its key is hydrated element by element as the element class, and
    the list becomes the value of the field. *)
Theorem unmarshal_object_list_field (c element : class_desc)
    (key attribute_name element_name : string) (l : list json)
    (self : gmap string pyval) :
  unshadowed self = true ->
  plain_name attribute_name = true ->
  dict_get (_api_name_to_python c) key = Some attribute_name ->
  dict_get (_attribute_is_primitive c) attribute_name = Some false ->
  dict_get (_attributes_to_types c) attribute_name = Some (TListOf element_name) ->
  str_contains "[" element_name = false ->
  dict_get name_to_class element_name = Some element ->
  forall self' : gmap string pyval,
    hydrate c self (JDict [(key, JList l)]) = Ok self'
    <-> exists objs,
          self' = <[attribute_name := VList objs]> self
          /\ Forall2 (fun item obj =>
                        exists attrs, hydrate element ∅ item = Ok attrs
                                      /\ obj = VObj (cls_name element) attrs) l objs.
Proof.
  intros Hself Hplain Hkey Hprim Htype Hno Hreg self'.
  rewrite unmarshal_json_object_items. cbn [setattr_loop].
  rewrite (hydrate_item_unshadowed _ _ c self key (JList l) Hself).
  unfold hydrate_item, self_table. rewrite !lookup_empty. item_step.
  rewrite Hkey. item_step. rewrite Hprim. item_step. rewrite Htype. item_step.
  change (unmarshal_json_with builtin_call name_to_class hydrate
            (String.append "List[" (String.append element_name "]")) (JList l))
    with (decode (String.append "List[" (String.append element_name "]")) (JList l)).
  pose proof (list_type_elements builtin_call name_to_class
                element_name element l Hreg Hno) as Hlist.
  destruct (decode _ (JList l)) as [v | e]; cbn [bind].
  - rewrite (py_setattr_plain self attribute_name v Hself Hplain). split.
    + intros [= <-]. destruct (proj1 (Hlist v) eq_refl) as (objs & -> & Hall).
      now exists objs.
    + intros (objs & -> & Hall).
      assert (Hv : Ok v = Ok (VList objs)) by (apply Hlist; now exists objs).
      now injection Hv as ->.
  - split; [discriminate |].
    intros (objs & _ & Hall).
    assert (Hv : @Raise pyval e = Ok (VList objs)) by (apply Hlist; now exists objs).
    discriminate.
Qed.

(** Keys that name a data descriptor or [__setattr__]. On an unshadowed
    instance of a class that does not declare these keys: a key [__class__]
    raises [TypeError] and a key [__weakref__] raises [AttributeError],
    whatever their values; a key [__dict__] raises [TypeError] unless its
    value is an object, and then that object replaces the attribute bag and
    the rest of the payload is hydrated on it, nothing of what the entity
    held before being kept; a key [__setattr__] is stored, and the next item
    raises [TypeError] when it is stored. *)
Theorem unmarshal_object_descriptor_keys (c : class_desc)
    (self : gmap string pyval) (value : json) (rest : list (string * json)) :
  unshadowed self = true ->
  dict_get (_api_name_to_python c) "__class__" = None ->
  dict_get (_api_name_to_python c) "__weakref__" = None ->
  dict_get (_api_name_to_python c) "__dict__" = None ->
  dict_get (_api_name_to_python c) "__setattr__" = None ->
  hydrate c self (JDict (("__class__", value) :: rest)) = Raise TypeError
  /\ hydrate c self (JDict (("__weakref__", value) :: rest)) = Raise AttributeError
  /\ ((forall d, value <> JDict d) ->
      hydrate c self (JDict (("__dict__", value) :: rest)) = Raise TypeError)
  /\ (forall d, value = JDict d ->
        hydrate c self (JDict (("__dict__", value) :: rest))
        = hydrate c (bag_of d) (JDict rest))
  /\ (forall key x tail,
        rest = (key, x) :: tail ->
        dict_get (_api_name_to_python c) key = None ->
        hydrate c self (JDict (("__setattr__", value) :: rest)) = Raise TypeError).
Proof.
  intros Hself Hclass Hweak Hdict Hset.
  destruct (unshadowed_lookup self Hself) as (H1 & H2 & H3 & H4).
  rewrite !unmarshal_json_object_items. cbn [setattr_loop].
  rewrite !(hydrate_item_unshadowed _ _ c self _ value Hself).
  rewrite (hydrate_item_unknown_key _ _ c _ value Hclass),
          (hydrate_item_unknown_key _ _ c _ value Hweak),
          (hydrate_item_unknown_key _ _ c _ value Hdict),
          (hydrate_item_unknown_key _ _ c _ value Hset).
  change (String.append "__class__" (if iskeyword "__class__" then "_" else ""))
    with "__class__".
  change (String.append "__weakref__" (if iskeyword "__weakref__" then "_" else ""))
    with "__weakref__".
  change (String.append "__dict__" (if iskeyword "__dict__" then "_" else ""))
    with "__dict__".
  change (String.append "__setattr__" (if iskeyword "__setattr__" then "_" else ""))
    with "__setattr__".
  cbn [bind]. unfold py_setattr. rewrite H1.
  change (String.eqb "__class__" "__class__") with true.
  change (String.eqb "__weakref__" "__class__") with false.
  change (String.eqb "__weakref__" "__weakref__") with true.
  change (String.eqb "__dict__" "__class__") with false.
  change (String.eqb "__dict__" "__weakref__") with false.
  change (String.eqb "__dict__" "__dict__") with true.
  change (String.eqb "__setattr__" "__class__") with false.
  change (String.eqb "__setattr__" "__weakref__") with false.
  change (String.eqb "__setattr__" "__dict__") with false.
  cbn [bind].
  split; [reflexivity |]. split; [reflexivity |]. split; [| split].
  - intros Hnot. destruct value; try reflexivity. now destruct (Hnot items).
  - intros d ->. reflexivity.
  - intros key x tail -> Hkey. cbn [setattr_loop].
    unfold hydrate_item at 1, self_table.
    rewrite lookup_insert_ne by discriminate. rewrite H2. item_step.
    rewrite Hkey. cbn [bind]. unfold py_setattr. now rewrite lookup_insert_eq.
Qed.
End UnmarshalObjects.

(** ** Runs that the embedding follows *)

Lemma json_nested_ind (P : json -> Prop) :
  P JNull -> (forall b, P (JBool b)) -> (forall n, P (JInt n)) ->
  (forall bits, P (JFloat bits)) -> (forall s, P (JStr s)) ->
  (forall l, Forall P l -> P (JList l)) ->
  (forall d, Forall (fun kv => P (snd kv)) d -> P (JDict d)) ->
  forall j, P j.
Proof.
  intros HNull HBool HInt HFloat HStr HList HDict.
  fix IH 1. intros [| b | n | bits | s | l | d].
  - exact HNull.
  - apply HBool.
  - apply HInt.
  - apply HFloat.
  - apply HStr.
  - apply HList. induction l as [| x l IHl]; constructor; [apply IH | exact IHl].
  - apply HDict. induction d as [| [k x] d IHd]; constructor; [apply IH | exact IHd].
Qed.

Lemma followed_bind {A B : Type} (r : result A) (k : A -> result B) :
  followed r = true ->
  (forall a, r = Ok a -> followed (k a) = true) ->
  followed (bind r k) = true.
Proof.
  destruct r as [a | e]; cbn [bind]; intros Hr Hk; [now apply Hk | exact Hr].
Qed.

Lemma py_index_followed {A : Type} (l : list A) (i : nat) :
  followed (py_index l i) = true.
Proof. unfold py_index. now destruct (nth_error l i). Qed.

Lemma dict_item_followed {V : Type} (d : list (string * V)) (k : string) :
  followed (dict_item d k) = true.
Proof. unfold dict_item. now destruct (dict_get d k). Qed.

Lemma list_item_followed {A : Type} (l : list A) (i : Z) :
  followed (list_item l i) = true.
Proof.
  unfold list_item.
  destruct ((0 <=? _) && _); [apply py_index_followed | reflexivity].
Qed.

Lemma table_has_followed {V : Type} (t : table V) (k : json) :
  followed (table_has t k) = true.
Proof.
  destruct t as [d | v]; cbn [table_has].
  - now destruct k.
  - destruct v; try reflexivity; cbn [json_has]; now destruct k.
Qed.

Lemma table_item_followed {V : Type} (t : table V) (k : json) :
  followed (table_item t k) = true.
Proof.
  destruct t as [d | v]; cbn [table_item].
  - apply followed_bind; [| reflexivity].
    destruct k; try reflexivity. apply dict_item_followed.
  - apply followed_bind; [| reflexivity].
    destruct v; try reflexivity; cbn [json_item].
    + destruct (json_index k); [| reflexivity].
      apply followed_bind; [apply list_item_followed | reflexivity].
    + destruct (json_index k); [apply list_item_followed | reflexivity].
    + destruct k; try reflexivity. apply dict_item_followed.
Qed.

Lemma raw_tables_lookup (self : gmap string pyval) (name : string) :
  raw_tables self = true -> In name class_tables ->
  self !! name = None \/ exists v, self !! name = Some (VRaw v).
Proof.
  unfold raw_tables. rewrite forallb_forall. intros H Hin.
  specialize (H name Hin).
  destruct (self !! name) as [[v | | | |] |]; try discriminate; eauto.
Qed.

Lemma self_table_followed {V : Type} (self : gmap string pyval) (name : string)
    (t : list (string * V)) :
  raw_tables self = true -> In name class_tables ->
  exists tb, self_table self name t = Ok tb
             /\ (tb = OfClass t \/ exists v, tb = OfInstance v).
Proof.
  intros Hraw Hin. unfold self_table.
  destruct (raw_tables_lookup self name Hraw Hin) as [-> | [v ->]]; eauto.
Qed.

Lemma raw_tables_intro (self : gmap string pyval) :
  (forall name v, In name class_tables -> self !! name = Some v -> exists j, v = VRaw j) ->
  raw_tables self = true.
Proof.
  intros H. unfold raw_tables. apply forallb_forall. intros name Hin.
  destruct (self !! name) as [v |] eqn:Hv; [| reflexivity].
  now destruct (H name v Hin Hv) as [j ->].
Qed.

Lemma bag_of_raw (items : list (string * json)) :
  forall name v, bag_of items !! name = Some v -> exists j, v = VRaw j.
Proof.
  unfold bag_of.
  assert (Hgen : forall acc : gmap string pyval,
             (forall name v, acc !! name = Some v -> exists j, v = VRaw j) ->
             forall name v,
               fold_left (fun bag kv => <[fst kv := VRaw (snd kv)]> bag) items acc !! name
               = Some v ->
               exists j, v = VRaw j).
  { induction items as [| [k x] items IH]; intros acc Hacc; [exact Hacc |].
    cbn [fold_left fst snd]. apply IH. intros name v.
    destruct (decide (k = name)) as [-> | Hne].
    - rewrite lookup_insert_eq. intros [= <-]. now eexists.
    - rewrite lookup_insert_ne by assumption. apply Hacc. }
  apply Hgen. intros name v. now rewrite lookup_empty.
Qed.

Lemma class_tables_not_plain (name : string) :
  In name class_tables -> plain_name name = false.
Proof.
  intros [<- | [<- | [<- | []]]]; reflexivity.
Qed.

(** [__setattr__] keeps the instance in that state. *)
Lemma py_setattr_raw_tables (self self' : gmap string pyval) (name : json) (v : pyval) :
  raw_tables self = true -> stores_raw name v ->
  py_setattr self name v = Ok self' ->
  raw_tables self' = true.
Proof.
  intros Hraw Hstore. unfold py_setattr.
  destruct (self !! "__setattr__"); [discriminate |].
  destruct name as [| | | | n | |]; try discriminate.
  destruct (String.eqb n "__class__"); [discriminate |].
  destruct (String.eqb n "__weakref__"); [discriminate |].
  destruct (String.eqb_spec n "__dict__") as [-> | Hne].
  - destruct Hstore as [[j ->] | (n & [= <-] & Hplain)]; [| discriminate].
    destruct j; try discriminate. intros [= <-].
    apply raw_tables_intro. intros name v _. apply bag_of_raw.
  - intros [= <-]. apply raw_tables_intro. intros name x Hin.
    destruct (decide (n = name)) as [-> | Hother].
    + rewrite lookup_insert_eq. intros [= <-].
      destruct Hstore as [Hj | (n & [= <-] & Hplain)]; [exact Hj |].
      rewrite (class_tables_not_plain _ Hin) in Hplain. discriminate.
    + rewrite lookup_insert_ne by assumption. intros Hx.
      destruct (raw_tables_lookup self name Hraw Hin) as [Hnone | [j Hj]];
        rewrite Hx in *; [discriminate |].
      injection Hj as ->. now eexists.
Qed.

Lemma py_setattr_followed (self : gmap string pyval) (name : json) (v : pyval) :
  followed (py_setattr self name v) = true.
Proof.
  unfold py_setattr.
  destruct (self !! "__setattr__"); [reflexivity |].
  destruct name as [| | | | n | |]; try reflexivity.
  destruct (String.eqb n "__class__"); [reflexivity |].
  destruct (String.eqb n "__weakref__"); [reflexivity |].
  destruct (String.eqb n "__dict__"); [| reflexivity].
  destruct v as [[] | | | |]; reflexivity.
Qed.

Lemma dict_has_get {V : Type} (d : list (string * V)) (k : string) :
  dict_has d k = true -> exists v, dict_get d k = Some v.
Proof. unfold dict_has. destruct (dict_get d k); [eauto | discriminate]. Qed.

(** The names and the classes of a plain class are plain. *)
Lemma plain_class_names (c : class_desc) (key a : string) :
  plain_class c = true ->
  dict_get (_api_name_to_python c) key = Some a -> plain_name a = true.
Proof.
  destruct c as [n names primitives types]. cbn [plain_class _api_name_to_python].
  intros H Hget. apply andb_true_iff in H as [H _].
  rewrite forallb_forall in H. apply dict_get_In in Hget. apply (H _ Hget).
Qed.

Lemma plain_class_types (c : class_desc) (a : string) (t : declared_type) :
  plain_class c = true ->
  dict_get (_attributes_to_types c) a = Some t ->
  plain_name a = true /\ (forall m, t = TClass m -> plain_class m = true).
Proof.
  destruct c as [n names primitives types]. cbn [plain_class _attributes_to_types].
  intros H. apply andb_true_iff in H as [_ H].
  induction types as [| [a' t'] types IH]; cbn [dict_get]; [discriminate |].
  destruct (String.eqb_spec a' a) as [-> | Hne].
  - intros [= ->]. destruct t as [b | e | m].
    + apply andb_true_iff in H as [H _]. split; [assumption | discriminate].
    + apply andb_true_iff in H as [H _]. split; [assumption | discriminate].
    + apply andb_true_iff in H as [H _]. apply andb_true_iff in H as [H Hm].
      split; [assumption |]. now intros m' [= <-].
  - apply IH. destruct t' as [b | e | m].
    + now apply andb_true_iff in H as [_ H].
    + now apply andb_true_iff in H as [_ H].
    + now apply andb_true_iff in H as [_ H].
Qed.

Section Followed.
Variable builtin_call : builtin -> json -> result pyval.
Variable name_to_class : list (string * class_desc).

(** The constructors raise exceptions of their own, and every registered
    class is plain. *)
Hypothesis builtin_call_followed : forall b x, followed (builtin_call b x) = true.
Hypothesis registry_plain :
  forallb (fun kc => plain_class (snd kc)) name_to_class = true.

Local Abbreviation hydrate := (_unmarshal_json_object builtin_call name_to_class).
Local Abbreviation decode := (unmarshal_json builtin_call name_to_class).
Local Abbreviation item_of := (hydrate_item builtin_call name_to_class hydrate).
Local Abbreviation follows := (follows builtin_call name_to_class).

Lemma registered_plain (T : string) (c : class_desc) :
  dict_get name_to_class T = Some c -> plain_class c = true.
Proof.
  intros H. apply dict_get_In in H.
  rewrite forallb_forall in registry_plain. apply (registry_plain _ H).
Qed.

Lemma raw_tables_empty : raw_tables ∅ = true.
Proof. reflexivity. Qed.

Lemma list_method_followed (l : list json) (T : string) :
  Forall follows l ->
  followed (unmarshal_json_list_with name_to_class hydrate T l) = true.
Proof.
  intros Hall. induction Hall as [| item l (Hitem & _ & _) _ IH];
    cbn [unmarshal_json_list_with]; [reflexivity |].
  apply followed_bind; [apply dict_item_followed |].
  intros c Hc. unfold dict_item in Hc.
  destruct (dict_get name_to_class T) as [c' |] eqn:Hreg; [| discriminate].
  injection Hc as ->.
  apply followed_bind; [apply Hitem; [now apply (registered_plain T) | reflexivity] |].
  intros self _. apply followed_bind; [exact IH | reflexivity].
Qed.

Lemma comprehension_followed (f : json -> result pyval) (items : list (string * json)) :
  Forall (fun kv => followed (f (snd kv)) = true) items ->
  forall acc, followed (comprehension_of f items acc) = true.
Proof.
  intros Hall. induction Hall as [| [k v] items Hv _ IH]; intros acc;
    cbn [comprehension_of]; [reflexivity |].
  apply followed_bind; [exact Hv |]. intros x _. apply IH.
Qed.

(** One item: the run is followed, and what it hands to [__setattr__] is a
    decoded value or goes under a plain name. *)
Lemma hydrate_item_followed (c : class_desc) (self : gmap string pyval)
    (key : string) (value : json) :
  plain_class c = true -> raw_tables self = true -> follows value ->
  followed (item_of c self key value) = true
  /\ (forall name v, item_of c self key value = Ok (name, v) -> stores_raw name v).
Proof.
  intros Hc Hraw (_ & Hdecode & Hentity).
  unfold hydrate_item.
  destruct (self_table_followed self "_api_name_to_python" (_api_name_to_python c) Hraw)
    as (names & -> & Hnames); [cbn; tauto |].
  destruct (self_table_followed self "_attribute_is_primitive"
              (_attribute_is_primitive c) Hraw)
    as (primitives & -> & Hprimitives); [cbn; tauto |].
  destruct (self_table_followed self "_attributes_to_types" (_attributes_to_types c) Hraw)
    as (types & -> & Htypes); [cbn; tauto |].
  cbn [bind].
  pose proof (table_has_followed names (JStr key)) as Hhas.
  destruct (table_has names (JStr key)) as [[|] | e] eqn:Hdeclared; cbn [bind].
  3: { split; [exact Hhas | discriminate]. }
  2: { split; [reflexivity |]. intros name v [= <- <-]. left. now eexists. }
  pose proof (table_item_followed names (JStr key)) as Hfound.
  destruct (table_item names (JStr key)) as [found | e] eqn:Hname; cbn [bind].
  2: { split; [exact Hfound | discriminate]. }
  set (attribute_name := match found with inl name => JStr name | inr name => name end).
  (* a name of the class table is plain *)
  assert (Hclass_name : forall a, found = inl a -> plain_name a = true).
  { intros a ->. destruct Hnames as [-> | [v ->]]; cbn [table_item] in Hname.
    - cbn [dict_item_json] in Hname. unfold dict_item in Hname.
      destruct (dict_get (_api_name_to_python c) key) as [a' |] eqn:Hget;
        cbn [bind] in Hname; [| discriminate].
      injection Hname as <-. now apply (plain_class_names c key).
    - destruct (json_item v (JStr key)); discriminate. }
  (* a name found in the type table of the class is plain *)
  assert (Htype_name : forall x,
             types = OfClass (_attributes_to_types c) ->
             table_item types attribute_name = Ok x ->
             exists a t, attribute_name = JStr a /\ x = inl t
                         /\ dict_get (_attributes_to_types c) a = Some t
                         /\ plain_name a = true).
  { intros x -> Hx. cbn [table_item] in Hx.
    destruct attribute_name as [| | | | a | |]; try discriminate.
    cbn [dict_item_json] in Hx. unfold dict_item in Hx.
    destruct (dict_get (_attributes_to_types c) a) as [t |] eqn:Hget;
      cbn [bind] in Hx; [| discriminate].
    injection Hx as <-. exists a, t. repeat split; try assumption.
    now apply (plain_class_types c a t). }
  assert (Hinstance : forall v x,
             types = OfInstance v ->
             table_item types attribute_name = Ok x -> exists y, x = inr y).
  { intros v x -> Hx. cbn [table_item] in Hx.
    destruct (json_item v attribute_name); cbn [bind] in Hx; [| discriminate].
    injection Hx as <-. now eexists. }
  pose proof (table_item_followed primitives attribute_name) as Hprim.
  destruct (table_item primitives attribute_name) as [prim | e]; cbn [bind].
  2: { split; [exact Hprim | discriminate]. }
  destruct (negb match prim with inl b => b | inr x => json_truth x end).
  - (* not primitive *)
    pose proof (table_has_followed types attribute_name) as Hty.
    destruct (table_has types attribute_name) as [[|] | e]; cbn [bind].
    3: { split; [exact Hty | discriminate]. }
    2: { split; [reflexivity |]. intros name v [= <- <-]. left. now eexists. }
    pose proof (table_item_followed types attribute_name) as Hmodel.
    destruct (table_item types attribute_name) as [model | e] eqn:Hm; cbn [bind].
    2: { split; [exact Hmodel | discriminate]. }
    destruct Htypes as [Hcls | [v Hins]].
    + destruct (Htype_name model Hcls eq_refl) as (a & t & Ha & -> & Hget & Hplain).
      assert (Hstore : forall v, stores_raw attribute_name v).
      { intros v. right. now exists a. }
      destruct t as [b | element_name | model_class].
      * split; [now destruct b | destruct b; discriminate].
      * split.
        -- apply followed_bind; [apply Hdecode | reflexivity].
        -- intros name v Hrun.
           destruct (unmarshal_json_with _ _ _ _ _); cbn [bind] in Hrun; [| discriminate].
           injection Hrun as <- <-. apply Hstore.
      * destruct (str_contains "List" (cls_name model_class)); [split; [reflexivity | discriminate] |].
        split.
        -- apply followed_bind; [| now intros [x y] _].
           apply Hentity. now apply (proj2 (plain_class_types c a _ Hc Hget)).
        -- intros name v Hrun.
           destruct (Definition_unmarshal_json_with _ _ _ _ _) as [[x y] |];
             cbn [bind] in Hrun; [| discriminate].
           injection Hrun as <- <-. apply Hstore.
    + destruct (Hinstance v model Hins eq_refl) as [y ->].
      destruct (json_str_has_List y); split; (reflexivity || discriminate).
  - (* primitive *)
    pose proof (table_item_followed types attribute_name) as Hctor.
    destruct (table_item types attribute_name) as [ctor | e] eqn:Hm; cbn [bind].
    2: { split; [exact Hctor | discriminate]. }
    destruct Htypes as [Hcls | [v Hins]].
    + destruct (Htype_name ctor Hcls eq_refl) as (a & t & Ha & -> & Hget & Hplain).
      destruct t as [b | element_name | model_class];
        try (split; [reflexivity | discriminate]).
      split.
      * apply followed_bind; [apply builtin_call_followed | reflexivity].
      * intros name v Hrun.
        destruct (builtin_call b value); cbn [bind] in Hrun; [| discriminate].
        injection Hrun as <- <-. right. now exists a.
    + destruct (Hinstance v ctor Hins eq_refl) as [y ->].
      split; [reflexivity | discriminate].
Qed.

Lemma setattr_loop_followed (c : class_desc) (items : list (string * json)) :
  plain_class c = true ->
  Forall (fun kv => follows (snd kv)) items ->
  forall self, raw_tables self = true ->
               followed (setattr_loop (item_of c) items self) = true
               /\ (forall self', setattr_loop (item_of c) items self = Ok self' ->
                                 raw_tables self' = true).
Proof.
  intros Hc Hall. induction Hall as [| [key value] items Hvalue _ IH];
    intros self Hraw; cbn [setattr_loop].
  { split; [reflexivity | now intros self' [= <-]]. }
  destruct (hydrate_item_followed c self key value Hc Hraw Hvalue) as [Hrun Hstore].
  destruct (item_of c self key value) as [[name v] | e]; cbn [bind].
  2: { split; [exact Hrun | discriminate]. }
  pose proof (py_setattr_followed self name v) as Hset.
  destruct (py_setattr self name v) as [self1 | e] eqn:Hself1; cbn [bind].
  2: { split; [exact Hset | discriminate]. }
  apply IH. apply (py_setattr_raw_tables self self1 name v Hraw); [| assumption].
  now apply Hstore.
Qed.

(** A payload that is neither an array nor an object. *)
Lemma scalar_follows (j : json) :
  (forall l, j <> JList l) -> (forall d, j <> JDict d) -> follows j.
Proof.
  intros Hl Hd. split; [| split].
  - intros c self _ _. destruct j; try reflexivity. now destruct (Hd items).
  - intros response_type. unfold unmarshal_json.
    destruct j; try (now destruct (Hl l)); try (now destruct (Hd items));
      cbn [unmarshal_json_with];
      (destruct (dict_has scalar_name_to_class response_type);
       [apply followed_bind; [apply dict_item_followed | intros; apply builtin_call_followed] |];
       destruct (str_contains "Dict[" response_type);
       [apply followed_bind; [apply py_index_followed | reflexivity] |];
       apply followed_bind; [apply dict_item_followed | reflexivity]).
  - intros c _. destruct j; try reflexivity;
      [now destruct (Hl l) | now destruct (Hd items)].
Qed.

Lemma array_follows (l : list json) : Forall follows l -> follows (JList l).
Proof.
  intros Hall. split; [| split].
  - reflexivity.
  - intros response_type. unfold unmarshal_json. cbn [unmarshal_json_with].
    destruct (dict_has scalar_name_to_class response_type).
    { apply followed_bind; [apply dict_item_followed | intros; apply builtin_call_followed]. }
    apply followed_bind.
    + destruct (str_contains "List[" response_type); [| reflexivity].
      apply followed_bind; [apply py_index_followed | reflexivity].
    + intros T _. apply followed_bind; [now apply list_method_followed | reflexivity].
  - intros c _. unfold Definition_unmarshal_json.
    cbn [Definition_unmarshal_json_with].
    apply followed_bind; [apply py_index_followed |]. intros first _.
    apply followed_bind; [| reflexivity].
    destruct (dict_has (_attributes_to_types c) first); [| reflexivity].
    apply followed_bind; [apply dict_item_followed |]. intros t _.
    apply followed_bind; [destruct t as [[] | |]; reflexivity |]. intros pieces _.
    apply followed_bind; [apply py_index_followed |]. intros piece _.
    apply followed_bind; [now apply list_method_followed | reflexivity].
Qed.

Lemma object_follows (items : list (string * json)) :
  Forall (fun kv => follows (snd kv)) items -> follows (JDict items).
Proof.
  intros Hall.
  assert (Hhydrate : forall c self, plain_class c = true -> raw_tables self = true ->
                                    followed (hydrate c self (JDict items)) = true).
  { intros c self Hc Hraw. rewrite unmarshal_json_object_items.
    now apply (setattr_loop_followed c items Hc Hall self Hraw). }
  split; [exact Hhydrate | split].
  - intros response_type. unfold unmarshal_json. cbn [unmarshal_json_with].
    destruct (dict_has scalar_name_to_class response_type).
    { apply followed_bind; [apply dict_item_followed | intros; apply builtin_call_followed]. }
    destruct (str_contains "Dict[" response_type).
    + apply followed_bind; [apply py_index_followed |]. intros piece _.
      apply followed_bind; [| reflexivity].
      apply (comprehension_followed
               (unmarshal_json_with builtin_call name_to_class hydrate (str_drop_last piece))).
      apply List.Forall_impl with (2 := Hall). intros [k v] (_ & Hv & _). apply Hv.
    + apply followed_bind; [apply dict_item_followed |]. intros c Hc.
      unfold dict_item in Hc.
      destruct (dict_get name_to_class response_type) as [c' |] eqn:Hreg; [| discriminate].
      injection Hc as ->.
      cbn [Definition_unmarshal_json_with].
      apply followed_bind; [| now intros [x y] _].
      apply followed_bind; [| reflexivity].
      apply Hhydrate; [now apply (registered_plain response_type) | reflexivity].
  - intros c Hc. unfold Definition_unmarshal_json.
    cbn [Definition_unmarshal_json_with].
    apply followed_bind; [| reflexivity].
    now apply Hhydrate.
Qed.

Lemma payload_follows (j : json) : follows j.
Proof.
  induction j using json_nested_ind;
    try (apply scalar_follows; discriminate).
  - now apply array_follows.
  - now apply object_follows.
Qed.

(** An invariant of hydration. On an entity that holds nothing but decoded
    values under the names of the class tables, as a new entity does, and
    for plain classes, hydrating any payload keeps it so: a payload can put
    decoded values only under the name of a class table. Every run from such
    an entity, and every run of the entry point, is therefore followed to a
    result or to an exception of the code. *)
Theorem hydration_keeps_raw_tables (c : class_desc) (self : gmap string pyval)
    (response_type : string) (payload : json) :
  plain_class c = true ->
  raw_tables self = true ->
  (forall self', hydrate c self payload = Ok self' -> raw_tables self' = true)
  /\ followed (hydrate c self payload) = true
  /\ followed (decode response_type payload) = true.
Proof.
  intros Hc Hraw. destruct (payload_follows payload) as (Hh & Hd & _).
  split; [| split; [now apply Hh | apply Hd]].
  intros self' Hrun. destruct payload; try discriminate.
  rewrite unmarshal_json_object_items in Hrun.
  apply (proj2 (setattr_loop_followed c items Hc
                  (proj2 (List.Forall_forall _ _) (fun kv _ => payload_follows (snd kv)))
                  self Hraw) self' Hrun).
Qed.
End Followed.

(** ** The candle loop on every input *)

Lemma range_from_bounds (step hi : Z) :
  0 < step ->
  forall (n : nat) (lo i : Z),
    Z.of_nat n <= range_length lo hi step ->
    In i (range_from lo step n) -> lo <= i < hi.
Proof.
  intros Hstep. induction n as [| n IH]; intros lo i Hn Hin; [destruct Hin |].
  assert (Hlt : lo < hi).
  { destruct (Z_lt_le_dec lo hi); [assumption |]. exfalso.
    unfold range_length in Hn.
    destruct (Z.ltb_spec 0 step); [| lia].
    destruct (Z.ltb_spec lo hi); lia. }
  destruct Hin as [<- | Hin]; [lia |].
  destruct (Z_lt_le_dec (lo + step) hi) as [Hmore | Hlast].
  - rewrite range_length_step in Hn by assumption.
    specialize (IH (lo + step) i ltac:(lia) Hin). lia.
  - rewrite range_length_one in Hn by lia.
    assert (n = 0%nat) as -> by lia. destruct Hin.
Qed.

Lemma run_requests_recording (ws : list (Z * Z)) :
  forall log, run_requests recording_executor ws log = Ok (ws, log ++ ws).
Proof.
  induction ws as [| [a b] ws IH]; intros log; cbn [run_requests].
  - now rewrite app_nil_r.
  - unfold recording_executor at 1. cbn [bind]. rewrite IH. cbn [bind].
    now rewrite <- app_assoc.
Qed.

(** With splitting enabled the call is the run over the windows of the
    effective range, whatever the arguments. *)
Lemma handle_candle_response_effective (Item World : Type)
    (executor : Z -> Z -> World -> result (list Item * World))
    (endpoint resolution : string) (step secs : Z) (from_ to : option Z)
    (now_cmp now_set : Z) (w : World) :
  candle_step endpoint resolution = Ok (step, secs) ->
  _handle_candle_response executor true endpoint resolution from_ to now_cmp now_set w
  = run_requests executor
      (map (fun i => (i, Z.min (i + step) (effective_to to now_cmp now_set)))
           (range_from (effective_from from_) step
              (Z.to_nat (range_length (effective_from from_)
                           (effective_to to now_cmp now_set) step)))) w.
Proof.
  intros Hstep.
  destruct (candle_step_bounds _ _ _ _ Hstep) as (_ & Hpos & _).
  unfold _handle_candle_response. rewrite Hstep. cbn [bind negb].
  fold (effective_from from_). fold (effective_to to now_cmp now_set).
  unfold py_range. destruct (Z.eqb_spec step 0); [lia |]. cbn [bind].
  rewrite candle_loop_run_requests.
  destruct (run_requests executor _ w) as [[items w'] | e]; reflexivity.
Qed.

(** The same holds with splitting disabled once the test of line 148 is
    passed. *)
Lemma handle_candle_response_checked (Item World : Type)
    (executor : Z -> Z -> World -> result (list Item * World))
    (endpoint resolution : string) (step secs f t : Z)
    (now_cmp now_set : Z) (w : World) :
  candle_step endpoint resolution = Ok (step, secs) ->
  f - t <= step ->
  _handle_candle_response executor false endpoint resolution
    (Some f) (Some t) now_cmp now_set w
  = _handle_candle_response executor true endpoint resolution
      (Some f) (Some t) now_cmp now_set w.
Proof.
  intros Hstep Hdelta.
  destruct (candle_step_bounds _ _ _ _ Hstep) as (Hsecs & Hpos & Hle).
  unfold _handle_candle_response. rewrite Hstep. cbn [bind negb].
  unfold true_div_gt, CANDLE_LIMIT in *.
  destruct (Z.gtb_spec (f - t) (5000 * secs)); [lia |].
  destruct (Z.gtb_spec (f - t) step); [lia |]. reflexivity.
Qed.

(** Every sub-request the loop issues, on any arguments and any clock, is a
    non-empty window inside the effective range, at most [step] wide and so
    at most [CANDLE_LIMIT] candles long; with splitting disabled the call may
    instead end before the loop, with [TypeError] or the interval error. *)
Theorem candle_requests_bounded (Item World : Type)
    (executor : Z -> Z -> World -> result (list Item * World))
    (split_request : bool) (endpoint resolution : string) (step secs : Z)
    (from_ to : option Z) (now_cmp now_set : Z) (w : World) :
  candle_step endpoint resolution = Ok (step, secs) ->
  exists ws : list (Z * Z),
    Forall (fun r => effective_from from_ <= fst r
                     /\ fst r < snd r
                     /\ snd r <= effective_to to now_cmp now_set
                     /\ snd r - fst r <= step
                     /\ snd r - fst r <= secs * CANDLE_LIMIT) ws
    /\ (_handle_candle_response executor split_request endpoint resolution
          from_ to now_cmp now_set w = run_requests executor ws w
        \/ (split_request = false
            /\ (_handle_candle_response executor split_request endpoint resolution
                  from_ to now_cmp now_set w = Raise TypeError
                \/ _handle_candle_response executor split_request endpoint resolution
                     from_ to now_cmp now_set w = Raise Exception_interval_too_long))).
Proof.
  intros Hstep.
  destruct (candle_step_bounds _ _ _ _ Hstep) as (Hsecs & Hpos & Hle).
  set (lo := effective_from from_). set (hi := effective_to to now_cmp now_set).
  exists (map (fun i => (i, Z.min (i + step) hi))
              (range_from lo step (Z.to_nat (range_length lo hi step)))).
  split.
  - apply List.Forall_forall. intros r Hin. apply in_map_iff in Hin.
    destruct Hin as (i & <- & Hi).
    apply (range_from_bounds step hi Hpos) in Hi.
    2: { rewrite Z2Nat.id; [lia | now apply range_length_nonneg]. }
    cbn [fst snd]. lia.
  - destruct split_request.
    + left. now apply handle_candle_response_effective with (secs := secs).
    + destruct from_ as [f |], to as [t |].
      * destruct (Z_le_gt_dec (f - t) step) as [Hok | Hlong].
        -- left. rewrite (handle_candle_response_checked _ _ _ _ _ step secs) by assumption.
           now apply handle_candle_response_effective with (secs := secs).
        -- right. split; [reflexivity |]. right.
           now apply (split_disabled_raises_iff Item World executor endpoint resolution
                        step secs f t now_cmp now_set w Hstep).
      * right. split; [reflexivity |]. left.
        unfold _handle_candle_response. now rewrite Hstep.
      * right. split; [reflexivity |]. left.
        unfold _handle_candle_response. now rewrite Hstep.
      * right. split; [reflexivity |]. left.
        unfold _handle_candle_response. now rewrite Hstep.
Qed.

Lemma range_length_ceil (lo hi step : Z) :
  0 < step -> lo < hi -> range_length lo hi step = (hi - lo + step - 1) / step.
Proof.
  intros Hstep Hlt. unfold range_length.
  destruct (Z.ltb_spec 0 step); [| lia].
  destruct (Z.ltb_spec lo hi); [| lia].
  replace (hi - lo + step - 1) with ((hi - lo - 1) + 1 * step) by lia.
  now rewrite Z.div_add by lia.
Qed.

(** The number of sub-requests is the length of the effective range divided
    by the step, rounded up; they are issued in the order returned. *)
Theorem candle_request_count (endpoint resolution : string) (step secs : Z)
    (from_ to : option Z) (now_cmp now_set : Z) :
  candle_step endpoint resolution = Ok (step, secs) ->
  effective_from from_ < effective_to to now_cmp now_set ->
  exists ws : list (Z * Z),
    _handle_candle_response recording_executor true endpoint resolution
      from_ to now_cmp now_set [] = Ok (ws, ws)
    /\ Z.of_nat (length ws)
       = (effective_to to now_cmp now_set - effective_from from_ + step - 1) / step.
Proof.
  intros Hstep Hlt.
  destruct (candle_step_bounds _ _ _ _ Hstep) as (_ & Hpos & _).
  rewrite (handle_candle_response_effective _ _ _ _ _ step secs) by assumption.
  eexists. split; [apply run_requests_recording |].
  rewrite length_map.
  assert (Hlen : forall n lo, length (range_from lo step n) = n).
  { induction n as [| n IH]; intros lo; [reflexivity |]. cbn. now rewrite IH. }
  rewrite Hlen, Z2Nat.id by now apply range_length_nonneg.
  now apply range_length_ceil.
Qed.

(** An empty or reversed effective range is not an error when requests may
    be split: no sub-request is issued and the result is the empty list. *)
Theorem candle_empty_range (Item World : Type)
    (executor : Z -> Z -> World -> result (list Item * World))
    (endpoint resolution : string) (step secs : Z)
    (from_ to : option Z) (now_cmp now_set : Z) (w : World) :
  candle_step endpoint resolution = Ok (step, secs) ->
  effective_to to now_cmp now_set <= effective_from from_ ->
  _handle_candle_response executor true endpoint resolution
    from_ to now_cmp now_set w = Ok ([], w).
Proof.
  intros Hstep Hle.
  destruct (candle_step_bounds _ _ _ _ Hstep) as (_ & Hpos & _).
  rewrite (handle_candle_response_effective _ _ _ _ _ step secs) by assumption.
  assert (Hlen : range_length (effective_from from_)
                   (effective_to to now_cmp now_set) step = 0).
  { unfold range_length. destruct (Z.ltb_spec 0 step); [| lia].
    destruct (Z.ltb_spec (effective_from from_) (effective_to to now_cmp now_set)); lia. }
  rewrite Hlen. reflexivity.
Qed.

Lemma handle_candle_response_tiles_effective (Item World : Type)
    (executor : Z -> Z -> World -> result (list Item * World))
    (endpoint resolution : string) (step secs : Z)
    (from_ to : option Z) (now_cmp now_set : Z) (w : World) :
  candle_step endpoint resolution = Ok (step, secs) ->
  effective_from from_ < effective_to to now_cmp now_set ->
  exists ws,
    tiles step (effective_from from_) (effective_to to now_cmp now_set) ws
    /\ _handle_candle_response executor true endpoint resolution
         from_ to now_cmp now_set w = run_requests executor ws w.
Proof.
  intros Hstep Hlt.
  destruct (candle_step_bounds _ _ _ _ Hstep) as (_ & Hpos & _).
  rewrite (handle_candle_response_effective _ _ _ _ _ step secs) by assumption.
  eexists. split; [| reflexivity].
  apply range_windows_tile; [assumption | assumption |].
  rewrite Z2Nat.id; [reflexivity | now apply range_length_nonneg].
Qed.

(** The defaults of the loop. Without [from] and [to] the windows tile the
    time from the data epoch to the clock reading; a [to] in the future is
    replaced by the clock reading, so the windows end there. *)
Theorem candle_defaults (Item World : Type)
    (executor : Z -> Z -> World -> result (list Item * World))
    (endpoint resolution : string) (step secs now_cmp now_set : Z) (w : World) :
  candle_step endpoint resolution = Ok (step, secs) ->
  (DATA_EPOCH_timestamp < now_set ->
   exists ws,
     tiles step DATA_EPOCH_timestamp now_set ws
     /\ _handle_candle_response executor true endpoint resolution
          None None now_cmp now_set w = run_requests executor ws w)
  /\ (forall f t,
        now_cmp < t -> f < now_set ->
        exists ws,
          tiles step f now_set ws
          /\ _handle_candle_response executor true endpoint resolution
               (Some f) (Some t) now_cmp now_set w = run_requests executor ws w).
Proof.
  intros Hstep. split.
  - intros Hlt.
    now apply (handle_candle_response_tiles_effective Item World executor
                 endpoint resolution step secs None None now_cmp now_set w).
  - intros f t Hfuture Hlt.
    pose proof (handle_candle_response_tiles_effective Item World executor
                  endpoint resolution step secs (Some f) (Some t) now_cmp now_set w
                  Hstep) as H.
    cbn [effective_from effective_to] in H.
    destruct (Z.gtb_spec t now_cmp); [| lia]. now apply H.
Qed.

(** With splitting disabled the defaults are never reached: a missing
    [from] or [to] raises [TypeError] at the subtraction of line 147, before
    any request. *)
Theorem split_disabled_needs_both_bounds (Item World : Type)
    (executor : Z -> Z -> World -> result (list Item * World))
    (endpoint resolution : string) (step secs : Z)
    (from_ to : option Z) (now_cmp now_set : Z) (w : World) :
  candle_step endpoint resolution = Ok (step, secs) ->
  from_ = None \/ to = None ->
  _handle_candle_response executor false endpoint resolution
    from_ to now_cmp now_set w = Raise TypeError.
Proof.
  intros Hstep Hnone. unfold _handle_candle_response. rewrite Hstep. cbn [bind negb].
  destruct Hnone as [-> | ->]; [reflexivity | now destruct from_].
Qed.

(** With splitting disabled and an executor that does not raise the
    interval error itself, that error is raised exactly when [from] exceeds
    [to] by more than the step: a range that is too long in the usual
    direction is never rejected. *)
Theorem split_disabled_rejects_reversed (Item World : Type)
    (executor : Z -> Z -> World -> result (list Item * World))
    (endpoint resolution : string) (step secs f t now_cmp now_set : Z) (w : World) :
  candle_step endpoint resolution = Ok (step, secs) ->
  (forall a b w' r, executor a b w' = r -> r <> Raise Exception_interval_too_long) ->
  _handle_candle_response executor false endpoint resolution
    (Some f) (Some t) now_cmp now_set w = Raise Exception_interval_too_long
  <-> f - t > step.
Proof.
  intros Hstep Hexec.
  destruct (split_disabled_raises_iff Item World executor endpoint resolution
              step secs f t now_cmp now_set w Hstep) as [Hto Hfrom].
  split; [| exact Hfrom].
  intros H. destruct (Hto H) as [Hlong | (a & b & w' & Hraise)]; [assumption |].
  now destruct (Hexec a b w' _ Hraise).
Qed.

(** ** Validated ranges *)

Lemma validate_date_int (isoparse : string -> result Z) (n : Z) :
  exists w, _validate_date isoparse (Some (DateInt n)) = Ok (Some n, w)
            /\ (w = [Warn_before_data_epoch] <-> n < DATA_EPOCH_timestamp)
            /\ (w = [] <-> DATA_EPOCH_timestamp <= n).
Proof.
  unfold _validate_date. cbn [bind].
  destruct (Z.ltb_spec n DATA_EPOCH_timestamp); eexists; (split; [reflexivity |]);
    split; split; intros H'; try reflexivity; try discriminate; lia.
Qed.

Lemma validate_date_presence (isoparse : string -> result Z)
    (date : option date_arg) (d : option Z) (w : list warning) :
  _validate_date isoparse date = Ok (d, w) ->
  (date = None <-> d = None)
  /\ (forall n, date = Some (DateInt n) -> d = Some n).
Proof.
  unfold _validate_date. destruct date as [[n | s] |]; cbn [bind].
  - destruct (n <? DATA_EPOCH_timestamp); intros [= <- _];
      (split; [split; discriminate | now intros m [= ->]]).
  - destruct (isoparse s) as [n |]; cbn [bind]; [| discriminate].
    destruct (n <? DATA_EPOCH_timestamp); intros [= <- _];
      (split; [split; discriminate | intros m; discriminate]).
  - intros [= <- _]. split; [split; reflexivity | intros n; discriminate].
Qed.

Lemma from_to_post (isoparse : string -> result Z)
    (from_ to : option date_arg) (f t : option Z) (w : list warning) :
  _validate_from__to isoparse from_ to = Ok ((f, t), w) ->
  (forall n, from_ = Some (DateInt n) -> f = Some n)
  /\ (forall n, to = Some (DateInt n) -> t = Some n)
  /\ (from_ = None <-> f = None)
  /\ (to = None <-> t = None)
  /\ (forall tv, t = Some tv -> tv <> 0 ->
        DATA_EPOCH_timestamp <= tv /\ forall fv, f = Some fv -> fv < tv).
Proof.
  intros H.
  destruct (_validate_date isoparse from_) as [[f0 w1] |] eqn:Hf.
  2: { unfold _validate_from__to in H. rewrite Hf in H. discriminate. }
  destruct (_validate_date isoparse to) as [[t0 w2] |] eqn:Ht.
  2: { unfold _validate_from__to in H. rewrite Hf in H. cbn [bind] in H.
       rewrite Ht in H. discriminate. }
  rewrite (validate_from_to_unfold isoparse from_ to f0 t0 w1 w2 Hf Ht) in H.
  destruct (validate_date_presence _ _ _ _ Hf) as [Hfn Hfi].
  destruct (validate_date_presence _ _ _ _ Ht) as [Htn Hti].
  assert (Hpos : 0 < DATA_EPOCH_timestamp) by (unfold DATA_EPOCH_timestamp; lia).
  assert (Heq : f = f0 /\ t = t0).
  { destruct (falsy t0); [now injection H as <- <- |].
    destruct t0 as [tv |]; [| now injection H as <- <-].
    destruct (tv <? DATA_EPOCH_timestamp); [discriminate |].
    destruct (falsy f0); [now injection H as <- <- |].
    destruct f0 as [fv |]; [| now injection H as <- <-].
    destruct (tv <=? fv); [discriminate | now injection H as <- <-]. }
  destruct Heq as [-> ->].
  split; [exact Hfi |]. split; [exact Hti |]. split; [exact Hfn |]. split; [exact Htn |].
  intros tv -> Hnz. cbn [falsy] in H.
  destruct (Z.eqb_spec tv 0); [contradiction |].
  destruct (Z.ltb_spec tv DATA_EPOCH_timestamp); [discriminate |].
  split; [assumption |]. intros fv ->. cbn [falsy] in H.
  destruct (Z.eqb_spec fv 0); [lia |].
  destruct (Z.leb_spec tv fv); [discriminate | lia].
Qed.

(** What a caller can rely on after [_validate_from__to] returns: integer
    timestamps come back unchanged, a missing bound stays missing, and a
    non-zero [to] is at or after the data epoch and later than [from]. *)
Theorem validate_from_to_postcondition (isoparse : string -> result Z)
    (from_ to : option date_arg) (f t : option Z) (w : list warning) :
  _validate_from__to isoparse from_ to = Ok ((f, t), w) ->
  (forall n, from_ = Some (DateInt n) -> f = Some n)
  /\ (forall n, to = Some (DateInt n) -> t = Some n)
  /\ (from_ = None <-> f = None)
  /\ (to = None <-> t = None)
  /\ (forall tv, t = Some tv -> tv <> 0 ->
        DATA_EPOCH_timestamp <= tv /\ forall fv, f = Some fv -> fv < tv).
Proof. apply from_to_post. Qed.

(** Validation and the loop compose, as in the endpoint methods: a range
    that [_validate_from__to] returned, with a non-zero [to] not in the
    future, is requested window by window from its [from] to its [to],
    whether or not requests may be split. *)
Theorem validated_range_is_requested (isoparse : string -> result Z)
    (from_ to : option date_arg) (f t : Z) (w : list warning)
    (endpoint resolution : string) (now_cmp : Z) :
  _validate_from__to isoparse from_ to = Ok ((Some f, Some t), w) ->
  t <> 0 -> t <= now_cmp ->
  In (str_upper resolution) table_codes ->
  exists (step secs : Z) (ws : list (Z * Z)),
    candle_step endpoint resolution = Ok (step, secs)
    /\ tiles step f t ws
    /\ (exists first rest, ws = first :: rest /\ fst first = f)
    /\ (exists front last, ws = front ++ [last] /\ snd last = t)
    /\ (forall (Item World : Type)
               (executor : Z -> Z -> World -> result (list Item * World))
               (split_request : bool) (now_set : Z) (world : World),
          _handle_candle_response executor split_request endpoint resolution
            (Some f) (Some t) now_cmp now_set world
          = run_requests executor ws world).
Proof.
  intros Hval Hnz Hnow Hcode.
  destruct (from_to_post _ _ _ _ _ _ Hval) as (_ & _ & _ & _ & Hpost).
  destruct (Hpost t eq_refl Hnz) as [_ Hlt]. specialize (Hlt f eq_refl).
  destruct (candle_step_defined endpoint resolution Hcode) as (step & secs & Hstep).
  destruct (candle_step_bounds _ _ _ _ Hstep) as (_ & Hpos & _).
  exists step, secs. eexists. split; [assumption |].
  assert (Htiles : tiles step f t
                     (map (fun i => (i, Z.min (i + step) t))
                          (range_from f step (Z.to_nat (range_length f t step))))).
  { apply range_windows_tile; [assumption | assumption |].
    rewrite Z2Nat.id; [reflexivity | now apply range_length_nonneg]. }
  split; [exact Htiles |].
  destruct (tiles_ends _ _ _ _ Htiles) as [Hfirst Hlast].
  split; [exact Hfirst |]. split; [exact Hlast |].
  intros Item World executor split_request now_set world.
  now apply handle_candle_response_runs with (secs := secs).
Qed.

(** ** Contract, sort and resolution validation *)

(** A contract passes exactly when it is ["0x"] followed by at least one
    character and has no space in it; nothing else is looked at, hexadecimal
    digits and length included. *)
Theorem validate_contract_accepts (contract : string) :
  _validate_contract contract = Pass tt
  <-> exists rest, contract = String.append "0x" rest
                   /\ rest <> EmptyString
                   /\ str_contains " " contract = false.
Proof.
  unfold _validate_contract. split.
  - intros H.
    destruct contract as [| a [| b [| c rest]]]; try discriminate.
    cbn [String.length str_take] in H.
    change (S (S (S (String.length rest))) <? 3)%nat with false in H.
    cbn [orb] in H.
    destruct (String.eqb_spec (String a (String b EmptyString)) "0x") as [Heq |];
      [| discriminate].
    injection Heq as -> ->. cbn [negb orb] in H.
    destruct (str_contains " " (String "0" (String "x" (String c rest)))) eqn:Hsp;
      [discriminate |].
    exists (String c rest). split; [reflexivity |]. split; [discriminate | reflexivity].
  - intros (rest & -> & Hne & Hsp).
    destruct rest as [| c rest]; [contradiction |].
    change (String.append "0x" (String c rest)) with (String "0" (String "x" (String c rest))) in *.
    cbn [String.length str_take].
    change (S (S (S (String.length rest))) <? 3)%nat with false.
    rewrite Hsp. reflexivity.
Qed.

Lemma ascii_lower_idempotent (c : ascii) : ascii_lower (ascii_lower c) = ascii_lower c.
Proof. destruct c as [[] [] [] [] [] [] [] []]; reflexivity. Qed.

Lemma str_lower_idempotent (s : string) : str_lower (str_lower s) = str_lower s.
Proof.
  induction s as [| c s IH]; [reflexivity |].
  cbn [str_lower]. now rewrite ascii_lower_idempotent, IH.
Qed.

(** Sort validation does not depend on the letter case of an ASCII [sort]. *)
Theorem validate_sort_case_insensitive (sort : string) (columns : list string) :
  is_ascii sort = true ->
  _validate_sort (Some (str_lower sort)) columns = _validate_sort (Some sort) columns.
Proof.
  intros _. destruct sort as [| c sort]; [reflexivity |].
  cbn [str_lower _validate_sort].
  now rewrite ascii_lower_idempotent, str_lower_idempotent.
Qed.

Lemma str_in_In (x : string) (l : list string) : str_in x l = true <-> In x l.
Proof.
  unfold str_in. rewrite existsb_exists. split.
  - intros (y & Hy & Heq). apply String.eqb_eq in Heq. now subst.
  - intros H. exists x. split; [assumption | apply String.eqb_refl].
Qed.

Lemma supported_column_no_dot (col : string) :
  In col SORT_SUPPORTED_COLUMNS -> str_contains "." col = false.
Proof.
  intros H. unfold SORT_SUPPORTED_COLUMNS in H. simpl in H.
  repeat (destruct H as [<- | H]; [reflexivity |]). contradiction.
Qed.

(** The sort strings that pass, for a non-empty [sort]. *)
Lemma validate_sort_forms (sort : string) (columns : list string) :
  sort <> EmptyString ->
  _validate_sort (Some sort) columns = Pass tt
  <-> exists col order,
        In col SORT_SUPPORTED_COLUMNS /\ In col columns
        /\ ((In order ["+"; "-"; "asc"; "desc"]
             /\ str_lower sort = String.append col (String.append "." order))
            \/ (In order ["+"; "-"]
                /\ str_lower sort = String.append order col)).
Proof.
  intros Hne. destruct sort as [| c0 sort0]; [contradiction |].
  cbn [_validate_sort]. remember (str_lower (String c0 sort0)) as ls eqn:Hls.
  assert (Hnonempty : ls <> EmptyString) by (subst ls; discriminate).
  clear Hls Hne. split.
  - intros H.
    destruct (str_contains "." ls) eqn:Hdot.
    + pose proof (split_char_join "." ls EmptyString) as Hjoin.
      fold (str_split "." ls) in Hjoin.
      destruct (str_split "." ls) as [| col [| order [| extra pieces]]];
        cbn [check_bind] in H; try discriminate.
      destruct (str_in col SORT_SUPPORTED_COLUMNS) eqn:Hsup; [| discriminate].
      destruct (str_in col columns) eqn:Hcol; [| discriminate].
      cbn [andb] in H.
      destruct (str_in order ["+"; "-"; "asc"; "desc"]) eqn:Hord; [| discriminate].
      exists col, order. apply str_in_In in Hsup, Hcol, Hord.
      repeat split; try assumption. left. split; [assumption |].
      rewrite str_join_cons in Hjoin. cbn [str_join] in Hjoin. now rewrite Hjoin.
    + destruct ls as [| c rest]; [contradiction |]. cbn [check_bind] in H.
      destruct (str_in rest SORT_SUPPORTED_COLUMNS) eqn:Hsup; [| discriminate].
      destruct (str_in rest columns) eqn:Hcol; [| discriminate].
      cbn [andb] in H.
      destruct (str_in (String c EmptyString) ["+"; "-"; "asc"; "desc"]) eqn:Hord;
        [| discriminate].
      exists rest, (String c EmptyString). apply str_in_In in Hsup, Hcol, Hord.
      repeat split; try assumption. right. split; [| reflexivity].
      simpl in Hord. destruct Hord as [Ho | [Ho | [Ho | [Ho | []]]]];
        try discriminate; rewrite <- Ho; simpl; tauto.
  - intros (col & order & Hsup & Hcol & Hform).
    pose proof (supported_column_no_dot col Hsup) as Hnodot.
    apply str_in_In in Hsup, Hcol.
    destruct Hform as [[Hord Heq] | [Hord Heq]].
    + assert (Hodot : str_contains "." order = false).
      { simpl in Hord. destruct Hord as [<- | [<- | [<- | [<- | []]]]]; reflexivity. }
      assert (Hdot : str_contains "." ls = true).
      { apply str_contains_spec. now exists col, order. }
      rewrite Hdot. unfold str_split. rewrite Heq.
      rewrite (split_go_first "." EmptyString order col Hnodot).
      rewrite (split_go_no_sep "." EmptyString order Hodot).
      change (String.append EmptyString col) with col.
      change (String.append EmptyString order) with order.
      cbn [check_bind]. rewrite Hsup, Hcol. cbn [andb].
      apply str_in_In in Hord. now rewrite Hord.
    + assert (Hshape : exists c, order = String c EmptyString
                                 /\ (if ascii_dec "." c then true else false) = false).
      { simpl in Hord. destruct Hord as [<- | [<- | []]]; eexists; split; reflexivity. }
      destruct Hshape as (c & -> & Hc).
      rewrite Heq. change (String.append (String c EmptyString) col) with (String c col).
      rewrite contains_char_cons.
      destruct (ascii_dec "." c); [discriminate |]. rewrite Hnodot.
      cbn [check_bind]. rewrite Hsup, Hcol. cbn [andb].
      assert (Ho : str_in (String c EmptyString) ["+"; "-"; "asc"; "desc"] = true).
      { apply str_in_In. simpl in Hord |- *. tauto. }
      now rewrite Ho.
Qed.

(** Which ASCII sort strings pass. An absent or empty [sort] does. Otherwise the
    lower-cased string must be [col.order], with [order] one of [+], [-],
    [asc], [desc], or a sign [+] or [-] followed by [col]; in both forms
    [col] must be a supported column and one of the endpoint's columns. *)
Theorem validate_sort_accepts (sort : string) (columns : list string) :
  is_ascii sort = true ->
  _validate_sort None columns = Pass tt
  /\ (_validate_sort (Some sort) columns = Pass tt
      <-> sort = EmptyString
          \/ exists col order,
               In col SORT_SUPPORTED_COLUMNS /\ In col columns
               /\ ((In order ["+"; "-"; "asc"; "desc"]
                    /\ str_lower sort = String.append col (String.append "." order))
                   \/ (In order ["+"; "-"]
                       /\ str_lower sort = String.append order col))).
Proof.
  intros _. split; [reflexivity |].
  destruct sort as [| c sort].
  - split; [now left | reflexivity].
  - rewrite (validate_sort_forms (String c sort) columns) by discriminate.
    split; [now right |]. intros [H | H]; [discriminate | assumption].
Qed.

(** On the swap endpoints, whose column list is [swaps_sort_columns], the
    only column a request can be sorted by is [time]: the other four are not
    among the supported columns. *)
Theorem swaps_sort_only_by_time (sort : string) :
  is_ascii sort = true ->
  sort <> EmptyString ->
  _validate_sort (Some sort) swaps_sort_columns = Pass tt
  <-> exists order,
        (In order ["+"; "-"; "asc"; "desc"]
         /\ str_lower sort = String.append "time" (String.append "." order))
        \/ (In order ["+"; "-"] /\ str_lower sort = String.append order "time").
Proof.
  intros _ Hne. rewrite (validate_sort_forms sort swaps_sort_columns Hne). split.
  - intros (col & order & Hsup & Hcol & Hform).
    assert (col = "time") as ->.
    { unfold swaps_sort_columns in Hcol. simpl in Hcol, Hsup.
      destruct Hcol as [<- | [<- | [<- | [<- | [<- | []]]]]]; try reflexivity;
        repeat (destruct Hsup as [Hsup | Hsup]; [discriminate |]); contradiction. }
    now exists order.
  - intros (order & Hform). exists "time", order.
    split; [simpl; tauto |]. split; [simpl; tauto | assumption].
Qed.

Lemma validate_chain_twice (c v : chain_value) :
  _validate_chain c = Ok v -> _validate_chain v = Ok v.
Proof.
  intros H. destruct (chain_in c CHAIN_SUPPORTED_VALUES) eqn:Hin.
  - apply chain_in_In in Hin. each_supported_chain Hin;
      vm_compute in H; injection H as <-; reflexivity.
  - unfold _validate_chain in H. rewrite Hin in H. discriminate.
Qed.

Lemma validate_chain_In_Ok (c : chain_value) :
  In c CHAIN_SUPPORTED_VALUES -> exists v, _validate_chain c = Ok v.
Proof. intros H. each_supported_chain H; eexists; reflexivity. Qed.

Lemma validate_chain_Ok_In (c v : chain_value) :
  _validate_chain c = Ok v -> In c CHAIN_SUPPORTED_VALUES.
Proof.
  intros H. destruct (chain_in c CHAIN_SUPPORTED_VALUES) eqn:Hin.
  - now apply chain_in_In.
  - unfold _validate_chain in H. rewrite Hin in H. discriminate.
Qed.

(** Validation accepts the eleven resolution codes in upper case only, and
    two of them have no entry in the tables of the candle loop: after a
    successful validation the loop has a step unless the code is [W1] or
    [MN1], for which every call of [_handle_candle_response] raises
    [KeyError] before any request. *)
Theorem validated_resolution_step (resolution endpoint : string) :
  _validate_resolution resolution = Pass tt ->
  str_upper resolution = resolution
  /\ (resolution <> "W1" /\ resolution <> "MN1" ->
      exists step secs, candle_step endpoint resolution = Ok (step, secs))
  /\ (resolution = "W1" \/ resolution = "MN1" ->
      forall (Item World : Type)
             (executor : Z -> Z -> World -> result (list Item * World))
             (split_request : bool) (from_ to : option Z)
             (now_cmp now_set : Z) (w : World),
        _handle_candle_response executor split_request endpoint resolution
          from_ to now_cmp now_set w = Raise KeyError).
Proof.
  unfold _validate_resolution. intros H.
  destruct (str_in resolution RESOLUTIONS) eqn:Hin; [| discriminate].
  apply str_in_In in Hin. unfold RESOLUTIONS in Hin. simpl in Hin.
  assert (Hstep : forall r, candle_step endpoint r
                   = (let* step :=
                        (if str_contains "active_addresses" endpoint
                            || str_contains "moves" endpoint
                         then dict_item strict_candle_limits (str_upper r)
                         else dict_item candle_limits (str_upper r)) in
                      let* secs := dict_item candle_seconds (str_upper r) in
                      Ok (Z.min step (secs * CANDLE_LIMIT), secs))) by reflexivity.
  repeat (destruct Hin as [<- | Hin];
          [split; [reflexivity |]; split;
           [intros [Hw Hm]; try (now destruct Hw); try (now destruct Hm);
            rewrite Hstep;
            destruct (str_contains "active_addresses" endpoint
                      || str_contains "moves" endpoint);
            eexists _, _; reflexivity
           | intros [Hw | Hm]; try discriminate;
             intros Item World executor split_request from_ to now_cmp now_set w;
             unfold _handle_candle_response; rewrite Hstep;
             destruct (str_contains "active_addresses" endpoint
                       || str_contains "moves" endpoint); reflexivity] |]).
  contradiction.
Qed.

(** ** Symbol resolution *)

Lemma unique_In (x : Z) (l : list Z) : In x (unique l) -> In x l.
Proof.
  induction l as [| y l IH]; [intros [] |].
  cbn [unique]. intros [<- | H]; [now left |].
  apply filter_In in H. right. now apply IH.
Qed.

Section SymbolFacts.
Variable assets_list : list asset.

Lemma symbol_rows (symbol : string) (row : asset) :
  In row (List.filter (fun a => String.eqb symbol (asset_symbol a)) assets_list)
  <-> In row assets_list /\ asset_symbol row = symbol.
Proof.
  rewrite filter_In. split; intros [Hin Heq]; (split; [assumption |]).
  - apply String.eqb_eq in Heq. now symmetry.
  - apply String.eqb_eq. now symmetry.
Qed.

Lemma chain_rows (chain : chain_value) (row : asset) :
  In row (List.filter (fun a => chain_eqb chain (ChainId (asset_chain a))) assets_list)
  <-> In row assets_list /\ chain = ChainId (asset_chain row).
Proof.
  rewrite filter_In. split; intros [Hin Heq]; (split; [assumption |]);
    now apply chain_eqb_eq.
Qed.

(** A contract that [_symbol_to_contract] returns is the contract of a row
    of the table that carries the symbol. *)
Theorem symbol_to_contract_sound (symbol contract : string)
    (chain : option chain_value) :
  _symbol_to_contract assets_list symbol chain = Pass contract ->
  exists row, In row assets_list
              /\ asset_symbol row = symbol
              /\ asset_contract row = contract.
Proof.
  unfold _symbol_to_contract. intros H.
  destruct assets_list as [| a0 rest0] eqn:Hassets; [discriminate |].
  rewrite <- Hassets in *.
  destruct (existsb (fun a => String.eqb symbol (asset_symbol a)) assets_list);
    cbn [negb] in H; [| discriminate].
  remember (List.filter (fun a => String.eqb symbol (asset_symbol a)) assets_list) as tmp eqn:Htmp.
  assert (Hrows : forall row, In row tmp -> In row assets_list /\ asset_symbol row = symbol).
  { intros row Hin. subst tmp. now apply symbol_rows. }
  assert (Hchain :
            match chain with
            | Some chain =>
                if existsb (fun c => chain_eqb (ChainId c) chain) (unique (map asset_chain tmp))
                then match List.filter (fun a => chain_eqb chain (ChainId (asset_chain a)))
                             assets_list with
                     | [row] => Pass (asset_contract row)
                     | _ => Fail Exception_multiple_contracts
                     end
                else Fail Exception_chain_needed
            | None => Fail Exception_chain_needed
            end = Pass contract ->
            exists row, In row assets_list /\ asset_symbol row = symbol
                        /\ asset_contract row = contract).
  { clear H. intros H. destruct chain as [ch |]; [| discriminate].
    destruct (existsb _ (unique (map asset_chain tmp))) eqn:Hex; [| discriminate].
    apply existsb_exists in Hex. destruct Hex as (n & Hn & Heq).
    apply unique_In, in_map_iff in Hn. destruct Hn as (mine & <- & Hmine).
    apply chain_eqb_eq in Heq. subst ch.
    destruct (Hrows mine Hmine) as [Hin Hsym].
    assert (Hthere : In mine (List.filter (fun a => chain_eqb (ChainId (asset_chain mine))
                                                 (ChainId (asset_chain a))) assets_list)).
    { apply chain_rows. now split. }
    destruct (List.filter (fun a => chain_eqb _ (ChainId (asset_chain a))) assets_list)
      as [| row [| row' more]]; try discriminate.
    injection H as <-. destruct Hthere as [-> | []]. now exists mine. }
  destruct tmp as [| row [| row' more]]; [now apply Hchain | | now apply Hchain].
  injection H as <-. exists row.
  destruct (Hrows row (or_introl eq_refl)) as [Hin Hsym]. now repeat split.
Qed.

(** A symbol that only one row carries resolves to that row's contract
    whatever chain is asked for, also a chain the row is not on. *)
Theorem symbol_to_contract_unique (symbol : string) (row : asset)
    (chain : option chain_value) :
  List.filter (fun a => String.eqb symbol (asset_symbol a)) assets_list = [row] ->
  _symbol_to_contract assets_list symbol chain = Pass (asset_contract row).
Proof.
  intros Hone. unfold _symbol_to_contract.
  destruct assets_list as [| a0 rest0] eqn:Hassets; [discriminate |].
  rewrite <- Hassets in *.
  assert (Hex : existsb (fun a => String.eqb symbol (asset_symbol a)) assets_list = true).
  { apply existsb_exists. exists row.
    assert (Hin : In row (List.filter (fun a => String.eqb symbol (asset_symbol a)) assets_list))
      by (rewrite Hone; now left).
    apply filter_In in Hin. exact Hin. }
  rewrite Hex, Hone. reflexivity.
Qed.

(** A symbol listed more than once resolves only through the chain, and the
    chain is looked up in the whole table, not among the rows of the symbol:
    when the chain asked for has two or more assets, the call raises the
    multiple-contracts error, also when the symbol has a single row on that
    chain. *)
Theorem symbol_to_contract_crowded_chain (symbol : string) (n : Z) (mine : asset) :
  (2 <= length (List.filter (fun a => String.eqb symbol (asset_symbol a)) assets_list))%nat ->
  In mine assets_list -> asset_symbol mine = symbol -> asset_chain mine = n ->
  (2 <= length (List.filter (fun a => chain_eqb (ChainId n) (ChainId (asset_chain a)))
                       assets_list))%nat ->
  _symbol_to_contract assets_list symbol (Some (ChainId n))
  = Fail Exception_multiple_contracts.
Proof.
  intros Hmany Hin Hsym Hchain Hcrowd. unfold _symbol_to_contract.
  destruct assets_list as [| a0 rest0] eqn:Hassets; [destruct Hin |].
  rewrite <- Hassets in *.
  assert (Hmine : In mine (List.filter (fun a => String.eqb symbol (asset_symbol a)) assets_list))
    by (apply symbol_rows; now split).
  assert (Hex : existsb (fun a => String.eqb symbol (asset_symbol a)) assets_list = true).
  { apply existsb_exists. exists mine. apply filter_In in Hmine. exact Hmine. }
  rewrite Hex. cbn [negb].
  remember (List.filter (fun a => String.eqb symbol (asset_symbol a)) assets_list) as tmp.
  assert (Hchains : existsb (fun c => chain_eqb (ChainId c) (ChainId n))
                      (unique (map asset_chain tmp)) = true).
  { apply existsb_exists. exists n. split; [| now apply chain_eqb_eq].
    assert (Hu : forall l x, In x l -> In x (unique l)).
    { induction l as [| y l IH]; intros x Hx; [destruct Hx |].
      cbn [unique]. destruct (Z.eq_dec x y) as [-> | Hne]; [now left |].
      right. apply filter_In. split.
      - apply IH. destruct Hx as [-> | Hx]; [contradiction | assumption].
      - apply negb_true_iff. now apply Z.eqb_neq. }
    apply Hu, in_map_iff. exists mine. now split. }
  destruct tmp as [| r1 [| r2 more]]; cbn [length] in Hmany; try lia.
  rewrite Hchains.
  destruct (List.filter (fun a => chain_eqb (ChainId n) (ChainId (asset_chain a))) assets_list)
    as [| c1 [| c2 cs]]; cbn [length] in Hcrowd; try lia; reflexivity.
Qed.

(** The combined validator passes exactly when the chain is on the
    allow-list and each of the other validators passes on the arguments as
    given; it returns what they return. Validating the chain a second time
    inside [_validate_symbol_contract_chain] changes nothing. *)
Theorem combined_validator_passes (isoparse : string -> result Z)
    (symbol contract against : option string) (from_ to : option date_arg)
    (resolution : string) (chain : option chain_value)
    (c : string) (f t : option Z) (w : list warning) :
  _validate_symbol_contract_against_from__to_resolution_chain assets_list isoparse
    symbol contract against from_ to resolution chain = Pass ((c, f, t), w)
  <-> (exists ch, chain = Some ch /\ In ch CHAIN_SUPPORTED_VALUES)
      /\ _validate_symbol_contract_chain assets_list symbol contract chain = Pass c
      /\ _validate_against against = Pass tt
      /\ _validate_from__to isoparse from_ to = Ok ((f, t), w)
      /\ _validate_resolution resolution = Pass tt.
Proof.
  unfold _validate_symbol_contract_against_from__to_resolution_chain.
  destruct chain as [ch |].
  2: { split; [discriminate | intros [(ch & Hch & _) _]; discriminate]. }
  destruct (_validate_chain ch) as [v | e] eqn:Hv; cbn [lift check_bind].
  2: { split; [discriminate |]. intros [(ch' & [= <-] & Hin) _].
       destruct (validate_chain_In_Ok ch Hin) as [v Hv']. congruence. }
  assert (Hsame : _validate_symbol_contract_chain assets_list symbol contract (Some v)
                  = _validate_symbol_contract_chain assets_list symbol contract (Some ch)).
  { unfold _validate_symbol_contract_chain.
    destruct contract; [reflexivity |]. destruct symbol; [| reflexivity].
    now rewrite (validate_chain_twice ch v Hv), Hv. }
  rewrite Hsame.
  pose proof (validate_chain_Ok_In ch v Hv) as Hin.
  destruct (_validate_symbol_contract_chain assets_list symbol contract (Some ch))
    as [c' | e]; cbn [check_bind].
  2: { split; [discriminate | intros (_ & H & _); discriminate]. }
  destruct (_validate_against against) as [[] | e]; cbn [check_bind].
  2: { split; [discriminate | intros (_ & _ & H & _); discriminate]. }
  destruct (_validate_from__to isoparse from_ to) as [[[f' t'] w'] | e];
    cbn [lift check_bind].
  2: { split; [discriminate | intros (_ & _ & _ & H & _); discriminate]. }
  destruct (_validate_resolution resolution) as [[] | e]; cbn [check_bind].
  2: { split; [discriminate | intros (_ & _ & _ & _ & H); discriminate]. }
  split.
  - intros [= <- <- <- <-]. repeat split; try reflexivity. now exists ch.
  - intros (_ & [= <-] & _ & [= <- <- <-] & _). reflexivity.
Qed.
End SymbolFacts.

(* ================================================================== *)
(** * Part IV. The further properties on concrete inputs *)
(* ================================================================== *)

Lemma candle_request_count_witness :
  exists ws : list (Z * Z),
    _handle_candle_response recording_executor true "56/tokens/0x0e09/candles" "H1"
      (Some 1600000000) (Some 1603000000) 1700000000 1700000000 [] = Ok (ws, ws)
    /\ Z.of_nat (length ws)
       = (effective_to (Some 1603000000) 1700000000 1700000000
          - effective_from (Some 1600000000) + 1209600 - 1) / 1209600.
Proof.
  apply (candle_request_count "56/tokens/0x0e09/candles" "H1" 1209600 3600
           (Some 1600000000) (Some 1603000000) 1700000000 1700000000).
  - reflexivity.
  - cbn. lia.
Defined.

Lemma candle_requests_bounded_witness :
  exists ws : list (Z * Z),
    Forall (fun r => effective_from None <= fst r
                     /\ fst r < snd r
                     /\ snd r <= effective_to (Some 1800000000) 1700000000 1700000001
                     /\ snd r - fst r <= 172800
                     /\ snd r - fst r <= 3600 * CANDLE_LIMIT) ws
    /\ (_handle_candle_response recording_executor true "56/wallets/0xabc/moves" "h1"
          None (Some 1800000000) 1700000000 1700000001 []
        = run_requests recording_executor ws []
        \/ (true = false
            /\ (_handle_candle_response recording_executor true "56/wallets/0xabc/moves"
                  "h1" None (Some 1800000000) 1700000000 1700000001 [] = Raise TypeError
                \/ _handle_candle_response recording_executor true
                     "56/wallets/0xabc/moves" "h1" None (Some 1800000000)
                     1700000000 1700000001 [] = Raise Exception_interval_too_long))).
Proof.
  apply (candle_requests_bounded _ _ recording_executor true "56/wallets/0xabc/moves" "h1"
           172800 3600 None (Some 1800000000) 1700000000 1700000001 []).
  reflexivity.
Defined.

Lemma candle_empty_range_witness :
  _handle_candle_response recording_executor true "56/tokens/0x0e09/candles" "D1"
    (Some 1650000000) (Some 1640000000) 1700000000 1700000000 [] = Ok ([], []).
Proof.
  apply (candle_empty_range _ _ recording_executor "56/tokens/0x0e09/candles" "D1"
           2592000 86400 (Some 1650000000) (Some 1640000000) 1700000000 1700000000 []).
  - reflexivity.
  - cbn. lia.
Defined.

Lemma candle_defaults_witness :
  (DATA_EPOCH_timestamp < 1700000000 ->
   exists ws,
     tiles 604800 DATA_EPOCH_timestamp 1700000000 ws
     /\ _handle_candle_response recording_executor true "56/tokens/0x0e09/volumes" "M5"
          None None 1699999999 1700000000 [] = run_requests recording_executor ws [])
  /\ (forall f t,
        1699999999 < t -> f < 1700000000 ->
        exists ws,
          tiles 604800 f 1700000000 ws
          /\ _handle_candle_response recording_executor true "56/tokens/0x0e09/volumes"
               "M5" (Some f) (Some t) 1699999999 1700000000 []
             = run_requests recording_executor ws []).
Proof.
  apply (candle_defaults _ _ recording_executor "56/tokens/0x0e09/volumes" "M5"
           604800 300 1699999999 1700000000 []).
  reflexivity.
Defined.

Lemma split_disabled_needs_both_bounds_witness :
  _handle_candle_response recording_executor false "56/tokens/0x0e09/candles" "H1"
    (Some 1600000000) None 1700000000 1700000000 [] = Raise TypeError.
Proof.
  apply (split_disabled_needs_both_bounds _ _ recording_executor
           "56/tokens/0x0e09/candles" "H1" 1209600 3600
           (Some 1600000000) None 1700000000 1700000000 []).
  - reflexivity.
  - now right.
Defined.

Lemma split_disabled_rejects_reversed_witness :
  _handle_candle_response recording_executor false "56/tokens/0x0e09/candles" "H1"
    (Some 1603000000) (Some 1600000000) 1700000000 1700000000 []
  = Raise Exception_interval_too_long
  <-> 1603000000 - 1600000000 > 1209600.
Proof.
  apply (split_disabled_rejects_reversed _ _ recording_executor
           "56/tokens/0x0e09/candles" "H1" 1209600 3600
           1603000000 1600000000 1700000000 1700000000 []).
  - reflexivity.
  - intros a b w' r <-. discriminate.
Defined.

Lemma validated_resolution_step_witness :
  str_upper "MN1" = "MN1"
  /\ ("MN1" <> "W1" /\ "MN1" <> "MN1" ->
      exists step secs, candle_step "56/tokens/0x0e09/candles" "MN1" = Ok (step, secs))
  /\ ("MN1" = "W1" \/ "MN1" = "MN1" ->
      forall (Item World : Type)
             (executor : Z -> Z -> World -> result (list Item * World))
             (split_request : bool) (from_ to : option Z)
             (now_cmp now_set : Z) (w : World),
        _handle_candle_response executor split_request "56/tokens/0x0e09/candles" "MN1"
          from_ to now_cmp now_set w = Raise KeyError).
Proof.
  apply (validated_resolution_step "MN1" "56/tokens/0x0e09/candles").
  reflexivity.
Defined.

Lemma validate_from_to_postcondition_witness :
  (forall n, Some (DateInt 1650000000) = Some (DateInt n) -> Some 1650000000 = Some n)
  /\ (forall n, Some (DateInt 1660000000) = Some (DateInt n) -> Some 1660000000 = Some n)
  /\ (Some (DateInt 1650000000) = None <-> Some 1650000000 = None)
  /\ (Some (DateInt 1660000000) = None <-> Some 1660000000 = None)
  /\ (forall tv, Some 1660000000 = Some tv -> tv <> 0 ->
        DATA_EPOCH_timestamp <= tv /\ forall fv, Some 1650000000 = Some fv -> fv < tv).
Proof.
  apply (validate_from_to_postcondition isoparse_unused
           (Some (DateInt 1650000000)) (Some (DateInt 1660000000))
           (Some 1650000000) (Some 1660000000) []).
  reflexivity.
Defined.

Lemma validated_range_is_requested_witness :
  exists (step secs : Z) (ws : list (Z * Z)),
    candle_step "56/tokens/0x0e09/candles" "H4" = Ok (step, secs)
    /\ tiles step 1650000000 1660000000 ws
    /\ (exists first rest, ws = first :: rest /\ fst first = 1650000000)
    /\ (exists front last, ws = front ++ [last] /\ snd last = 1660000000)
    /\ (forall (Item World : Type)
               (executor : Z -> Z -> World -> result (list Item * World))
               (split_request : bool) (now_set : Z) (world : World),
          _handle_candle_response executor split_request "56/tokens/0x0e09/candles" "H4"
            (Some 1650000000) (Some 1660000000) 1700000000 now_set world
          = run_requests executor ws world).
Proof.
  apply (validated_range_is_requested isoparse_unused
           (Some (DateInt 1650000000)) (Some (DateInt 1660000000))
           1650000000 1660000000 [] "56/tokens/0x0e09/candles" "H4" 1700000000).
  - reflexivity.
  - lia.
  - lia.
  - simpl. tauto.
Defined.

Lemma validate_sort_case_insensitive_witness :
  _validate_sort (Some (str_lower "Market_Cap.DESC")) ["market_cap"; "name"]
  = _validate_sort (Some "Market_Cap.DESC") ["market_cap"; "name"].
Proof.
  apply (validate_sort_case_insensitive "Market_Cap.DESC" ["market_cap"; "name"]).
  reflexivity.
Defined.

Lemma validate_sort_accepts_witness :
  _validate_sort None ["market_cap"; "name"] = Pass tt
  /\ (_validate_sort (Some "-Name") ["market_cap"; "name"] = Pass tt
      <-> "-Name" = EmptyString
          \/ exists col order,
               In col SORT_SUPPORTED_COLUMNS /\ In col ["market_cap"; "name"]
               /\ ((In order ["+"; "-"; "asc"; "desc"]
                    /\ str_lower "-Name" = String.append col (String.append "." order))
                   \/ (In order ["+"; "-"]
                       /\ str_lower "-Name" = String.append order col))).
Proof.
  apply (validate_sort_accepts "-Name" ["market_cap"; "name"]).
  reflexivity.
Defined.

Lemma swaps_sort_only_by_time_witness :
  _validate_sort (Some "amount_0.desc") swaps_sort_columns = Pass tt
  <-> exists order,
        (In order ["+"; "-"; "asc"; "desc"]
         /\ str_lower "amount_0.desc" = String.append "time" (String.append "." order))
        \/ (In order ["+"; "-"] /\ str_lower "amount_0.desc" = String.append order "time").
Proof.
  apply (swaps_sort_only_by_time "amount_0.desc").
  - reflexivity.
  - discriminate.
Defined.

Lemma symbol_to_contract_sound_witness :
  exists row, In row assets_example
              /\ asset_symbol row = "CAKE"
              /\ asset_contract row = "0x0E09FaBB73Bd3Ade0a17ECC321fD13a19e81cE82".
Proof.
  apply (symbol_to_contract_sound assets_example "CAKE"
           "0x0E09FaBB73Bd3Ade0a17ECC321fD13a19e81cE82" None).
  reflexivity.
Defined.

Lemma symbol_to_contract_unique_witness :
  _symbol_to_contract assets_example "CAKE" (Some (ChainId 1))
  = Pass (asset_contract (Asset 56 "0x0E09FaBB73Bd3Ade0a17ECC321fD13a19e81cE82" "CAKE")).
Proof.
  apply (symbol_to_contract_unique assets_example "CAKE"
           (Asset 56 "0x0E09FaBB73Bd3Ade0a17ECC321fD13a19e81cE82" "CAKE")
           (Some (ChainId 1))).
  reflexivity.
Defined.

Lemma symbol_to_contract_crowded_chain_witness :
  _symbol_to_contract assets_example "BUSD" (Some (ChainId 56))
  = Fail Exception_multiple_contracts.
Proof.
  apply (symbol_to_contract_crowded_chain assets_example "BUSD" 56
           (Asset 56 "0xe9e7CEA3DedcA5984780Bafc599bD69ADd087D56" "BUSD")).
  - cbn. lia.
  - now left.
  - reflexivity.
  - reflexivity.
  - cbn. lia.
Defined.

Lemma unmarshal_json_list_type_witness :
  unmarshal_json builtin_call_same_type name_to_class_excerpt
    (String.append "List[" (String.append "PoolBalance" "]"))
    (JList [JDict [("token", JStr "CAKE")]])
  = Ok (VList [VObj "PoolBalance" (<["token" := VRaw (JStr "CAKE")]> ∅)])
  <-> exists objs,
        VList [VObj "PoolBalance" (<["token" := VRaw (JStr "CAKE")]> ∅)] = VList objs
        /\ Forall2 (fun item obj =>
                      exists attrs,
                        _unmarshal_json_object builtin_call_same_type
                          name_to_class_excerpt PoolBalance ∅ item = Ok attrs
                        /\ obj = VObj (cls_name PoolBalance) attrs)
                   [JDict [("token", JStr "CAKE")]] objs.
Proof.
  apply (unmarshal_json_list_type builtin_call_same_type name_to_class_excerpt
           "PoolBalance" PoolBalance); reflexivity.
Defined.

Lemma unmarshal_json_empty_array_witness :
  unmarshal_json builtin_call_same_type name_to_class_excerpt
    "List[NotRegistered]" (JList []) = Ok (VList []).
Proof.
  apply (unmarshal_json_empty_array builtin_call_same_type name_to_class_excerpt
           "List[NotRegistered]").
  reflexivity.
Defined.

Lemma unmarshal_json_list_needs_objects_witness :
  (forall v,
     unmarshal_json builtin_call_same_type name_to_class_excerpt
       (String.append "List[" (String.append "PoolBalance" "]")) (JList [JInt 1]) = Ok v ->
     Forall (fun j => exists items, j = JDict items) [JInt 1])
  /\ (forall c x rest,
        dict_get name_to_class_excerpt "PoolBalance" = Some c -> [JInt 1] = x :: rest ->
        (forall items, x <> JDict items) ->
        unmarshal_json builtin_call_same_type name_to_class_excerpt
          (String.append "List[" (String.append "PoolBalance" "]")) (JList [JInt 1])
        = Raise AttributeError)
  /\ (forall x rest,
        dict_get name_to_class_excerpt "PoolBalance" = None -> [JInt 1] = x :: rest ->
        unmarshal_json builtin_call_same_type name_to_class_excerpt
          (String.append "List[" (String.append "PoolBalance" "]")) (JList [JInt 1])
        = Raise KeyError).
Proof.
  apply (unmarshal_json_list_needs_objects builtin_call_same_type name_to_class_excerpt
           "PoolBalance" [JInt 1]).
  reflexivity.
Defined.

Lemma unmarshal_json_dict_type_witness :
  (forall v,
     unmarshal_json builtin_call_same_type name_to_class_excerpt
       (String.append "Dict[str, " (String.append "WhitelistedAddress" "]"))
       (JDict [("w", JDict [("id", JInt 4)])]) = Ok v ->
     exists m, v = VDict m
       /\ dom m = list_to_set (map fst [("w", JDict [("id", JInt 4)])])
       /\ (NoDup (map fst [("w", JDict [("id", JInt 4)])]) ->
           forall k j, In (k, j) [("w", JDict [("id", JInt 4)])] ->
                       exists x,
                         unmarshal_json builtin_call_same_type name_to_class_excerpt
                           "WhitelistedAddress" j = Ok x
                         /\ m !! k = Some x))
  /\ (Forall (fun kv => exists x,
                unmarshal_json builtin_call_same_type name_to_class_excerpt
                  "WhitelistedAddress" (snd kv) = Ok x)
             [("w", JDict [("id", JInt 4)])] ->
      exists v,
        unmarshal_json builtin_call_same_type name_to_class_excerpt
          (String.append "Dict[str, " (String.append "WhitelistedAddress" "]"))
          (JDict [("w", JDict [("id", JInt 4)])]) = Ok v).
Proof.
  apply (unmarshal_json_dict_type builtin_call_same_type name_to_class_excerpt
           "WhitelistedAddress" [("w", JDict [("id", JInt 4)])]).
  reflexivity.
Defined.

Lemma unmarshal_json_scalar_payload_witness :
  unmarshal_json builtin_call_same_type name_to_class_excerpt "PoolBalance" JNull
  = Ok (VObj (cls_name PoolBalance) ∅).
Proof.
  apply (unmarshal_json_scalar_payload builtin_call_same_type name_to_class_excerpt
           "PoolBalance" PoolBalance JNull); try reflexivity.
  now left.
Defined.

Lemma unmarshal_object_read_back_witness :
  exists x,
    hydrate_item builtin_call_same_type name_to_class_excerpt
      (_unmarshal_json_object builtin_call_same_type name_to_class_excerpt)
      Balance ∅ "wallet" (JDict [("id", JInt 4)])
    = Ok (JStr (attribute_name_of Balance "wallet"), x)
    /\ balance_hydrated !! attribute_name_of Balance "wallet" = Some x.
Proof.
  apply (unmarshal_object_read_back builtin_call_same_type name_to_class_excerpt
           Balance balance_payload ∅ balance_hydrated "wallet" (JDict [("id", JInt 4)])).
  - vm_compute. reflexivity.
  - vm_compute. reflexivity.
  - vm_compute. reflexivity.
  - cbn. repeat constructor; cbn; intros H; inversion H; subst;
      match goal with Hx : _ ∈ _ |- _ => inversion Hx end.
  - now left.
Defined.

Lemma unmarshal_object_unknown_keys_witness :
  exists self',
    _unmarshal_json_object builtin_call_same_type name_to_class_excerpt PoolBalance ∅
      (JDict [("apy", JInt 7); ("from", JStr "farm")]) = Ok self'
    /\ (NoDup (map (fun kv => attribute_name_of PoolBalance (fst kv))
                   [("apy", JInt 7); ("from", JStr "farm")]) ->
        forall key value,
          In (key, value) [("apy", JInt 7); ("from", JStr "farm")] ->
          self' !! String.append key (if iskeyword key then "_" else "")
          = Some (VRaw value)).
Proof.
  apply (unmarshal_object_unknown_keys builtin_call_same_type name_to_class_excerpt
           PoolBalance [("apy", JInt 7); ("from", JStr "farm")] ∅).
  - vm_compute. reflexivity.
  - intros key value [[= <- <-] | [[= <- <-] | []]]; split; reflexivity.
Defined.

(** An earlier key [_attribute_is_primitive] decides, through [self], how
    [price] is treated: as a field that is not primitive, whose type [float]
    then has no [unmarshal_json]. *)
Lemma unmarshal_object_aborts_witness :
  _unmarshal_json_object builtin_call_same_type name_to_class_excerpt PoolBalance ∅
    (JDict ([("_attribute_is_primitive", JDict [("price", JBool false)])]
            ++ ("price", JStr "n/a") :: [("apy", JInt 7)]))
  = Raise AttributeError
  /\ unmarshal_json builtin_call_same_type name_to_class_excerpt "PoolBalance"
       (JDict ([("_attribute_is_primitive", JDict [("price", JBool false)])]
               ++ ("price", JStr "n/a") :: [("apy", JInt 7)]))
     = Raise AttributeError.
Proof.
  apply (unmarshal_object_aborts builtin_call_same_type name_to_class_excerpt
           "PoolBalance" PoolBalance
           [("_attribute_is_primitive", JDict [("price", JBool false)])]
           [("apy", JInt 7)]
           "price" (JStr "n/a") AttributeError
           (<["_attribute_is_primitive" := VRaw (JDict [("price", JBool false)])]> ∅)).
  - reflexivity.
  - reflexivity.
  - reflexivity.
  - discriminate.
  - vm_compute. reflexivity.
  - left. vm_compute. reflexivity.
Defined.

Lemma unmarshal_object_list_field_witness :
  _unmarshal_json_object builtin_call_same_type name_to_class_excerpt FarmPortfolio ∅
    (JDict [("pools_balance", JList [JDict [("token", JStr "CAKE")]])])
  = Ok (<["pools_balance" :=
            VList [VObj "PoolBalance" (<["token" := VRaw (JStr "CAKE")]> ∅)]]> ∅)
  <-> exists objs,
        <["pools_balance" :=
            VList [VObj "PoolBalance" (<["token" := VRaw (JStr "CAKE")]> ∅)]]> ∅
        = <["pools_balance" := VList objs]> (∅ : gmap string pyval)
        /\ Forall2 (fun item obj =>
                      exists attrs,
                        _unmarshal_json_object builtin_call_same_type
                          name_to_class_excerpt PoolBalance ∅ item = Ok attrs
                        /\ obj = VObj (cls_name PoolBalance) attrs)
                   [JDict [("token", JStr "CAKE")]] objs.
Proof.
  apply (unmarshal_object_list_field builtin_call_same_type name_to_class_excerpt
           FarmPortfolio PoolBalance "pools_balance" "pools_balance" "PoolBalance");
    vm_compute; reflexivity.
Defined.

(** A payload that puts a decoded object in the place of the field table:
    the key [b], which that object does not have, is then stored as an
    undeclared key. *)
Lemma hydration_keeps_raw_tables_witness :
  (forall self',
     _unmarshal_json_object builtin_call_same_type name_to_class_excerpt PoolBalance ∅
       (JDict [("_api_name_to_python", JDict [("a", JStr "price")]); ("b", JInt 1)])
     = Ok self' ->
     raw_tables self' = true)
  /\ followed
       (_unmarshal_json_object builtin_call_same_type name_to_class_excerpt PoolBalance ∅
          (JDict [("_api_name_to_python", JDict [("a", JStr "price")]); ("b", JInt 1)]))
     = true
  /\ followed
       (unmarshal_json builtin_call_same_type name_to_class_excerpt "PoolBalance"
          (JDict [("_api_name_to_python", JDict [("a", JStr "price")]); ("b", JInt 1)]))
     = true.
Proof.
  apply (hydration_keeps_raw_tables builtin_call_same_type name_to_class_excerpt).
  - intros b x. destruct b, x; reflexivity.
  - vm_compute. reflexivity.
  - vm_compute. reflexivity.
  - vm_compute. reflexivity.
Defined.

Lemma unmarshal_object_descriptor_keys_witness :
  _unmarshal_json_object builtin_call_same_type name_to_class_excerpt PoolBalance ∅
    (JDict (("__class__", JDict [("x", JInt 2)]) :: [("apy", JInt 7)]))
  = Raise TypeError
  /\ _unmarshal_json_object builtin_call_same_type name_to_class_excerpt PoolBalance ∅
       (JDict (("__weakref__", JDict [("x", JInt 2)]) :: [("apy", JInt 7)]))
     = Raise AttributeError
  /\ ((forall d, JDict [("x", JInt 2)] <> JDict d) ->
      _unmarshal_json_object builtin_call_same_type name_to_class_excerpt PoolBalance ∅
        (JDict (("__dict__", JDict [("x", JInt 2)]) :: [("apy", JInt 7)]))
      = Raise TypeError)
  /\ (forall d, JDict [("x", JInt 2)] = JDict d ->
        _unmarshal_json_object builtin_call_same_type name_to_class_excerpt PoolBalance ∅
          (JDict (("__dict__", JDict [("x", JInt 2)]) :: [("apy", JInt 7)]))
        = _unmarshal_json_object builtin_call_same_type name_to_class_excerpt
            PoolBalance (bag_of d) (JDict [("apy", JInt 7)]))
  /\ (forall key x tail,
        [("apy", JInt 7)] = (key, x) :: tail ->
        dict_get (_api_name_to_python PoolBalance) key = None ->
        _unmarshal_json_object builtin_call_same_type name_to_class_excerpt PoolBalance ∅
          (JDict (("__setattr__", JDict [("x", JInt 2)]) :: [("apy", JInt 7)]))
        = Raise TypeError).
Proof.
  apply (unmarshal_object_descriptor_keys builtin_call_same_type name_to_class_excerpt
           PoolBalance ∅ (JDict [("x", JInt 2)]) [("apy", JInt 7)]);
    vm_compute; reflexivity.
Defined.
